(** * capacitor-duckdb: the native bridges between the host runtime and DuckDB

    A shallow embedding of the two platform bridges,
    [android/src/main/cpp/duckdb_jni.cpp] (module [Android]) and
    [ios/Sources/CapacitorDuckDbPlugin/duckdb_ios.cpp] (module [Ios]):
    the JSON text-literal encoder, the two result serializers, the
    per-statement binding store and the handle checks of every exported
    entry point.

    Conventions of the embedding.
    - A C++ [char] is an [ascii] (one byte); a [std::string] is a [string].
    - A [std::ostringstream] is the text written so far; [ss << x] appends.
    - Fixed-width integers are [Z] with the conversions written out.
    - The database engine is external: its answers are the results of the
      events of [EngineE]; the bridge is a program over those events. *)

From Stdlib Require Import ZArith NArith Ascii String Lia.
From Stdlib Require Import DecimalString DecimalPos DecimalZ DecimalN.
From stdpp Require Import base numbers option list strings gmap.

Local Open Scope string_scope.
Local Open Scope Z_scope.

(** ** Characters and the C++ runtime *)

(** The platform-dependent part of the C++ runtime the bridges rely on:
    whether plain [char] is signed (it is on Apple's and the x86 Android
    ABIs, it is not on the ARM Android ABIs); the default [operator<<]
    formatting of [float] and [double], which is carried as a function of
    the value's bit pattern; and the allocation limit, the largest number
    of values a [duckdb::vector<duckdb::Value>] can be grown to before
    the allocation fails. *)
Class Runtime := {
  char_is_signed : bool;
  put_float : Z -> string;
  put_double : Z -> string;
  alloc_limit : Z
}.

(** The value of a byte as [unsigned char]. *)
Definition uchar (c : ascii) : Z := Z.of_N (N_of_ascii c).

(** Integral promotion of a plain [char] to [int]. *)
Definition char_to_int `{Runtime} (c : ascii) : Z :=
  if char_is_signed && (128 <=? uchar c) then uchar c - 256 else uchar c.

Definition ascii_of_Z (z : Z) : ascii := ascii_of_N (Z.to_N z).

Definition DQUOTE : ascii := ascii_of_Z 34.
Definition BACKSLASH : ascii := ascii_of_Z 92.

(** A one-character string, for [ss << 'c']. *)
Definition ch (c : ascii) : string := String c EmptyString.

(** [ss << x] on an output string stream. *)
Notation "ss << x" := (String.append ss x) (at level 50, left associativity).

(** *** Integer formatting of [std::ostream] *)

Definition hex_digit (d : Z) : ascii :=
  if d <? 10 then ascii_of_Z (48 + d) else ascii_of_Z (87 + d).

(** At most [fuel] hexadecimal digits of [v], most significant first,
    without leading zeros (one digit for zero). *)
Fixpoint hex_digits (fuel : nat) (v : Z) (acc : string) : string :=
  match fuel with
  | O => acc
  | S fuel' =>
      let acc' := String (hex_digit (v mod 16)) acc in
      if v / 16 =? 0 then acc' else hex_digits fuel' (v / 16) acc'
  end.

(** [os << std::hex << v] for an [int] [v]: the digits of [v] converted to
    [unsigned int]; eight digits cover the whole 32-bit range. *)
Definition put_hex_int (v : Z) : string := hex_digits 8 (v mod 2 ^ 32) "".

(** [std::setw(w) << std::setfill(fill)]: right-adjusted in a field of
    [w] characters. *)
Definition setw_setfill (w : nat) (fill : ascii) (s : string) : string :=
  String.concat "" (replicate (w - String.length s)%nat (ch fill)) << s.

(** [os << v] for an [int64_t] and for a [uint64_t] in the default decimal
    base. *)
Definition put_int64 (v : Z) : string := NilZero.string_of_int (Z.to_int v).
Definition put_uint64 (v : Z) : string := NilZero.string_of_uint (N.to_uint (Z.to_N v)).

(** ** The engine's values and result objects

    DuckDB itself is not part of the bridges.  What the bridges use of
    [duckdb::Value], [duckdb::DataChunk] and [duckdb::QueryResult] is
    modelled here: the constructors and accessors they call. *)

Inductive LogicalTypeId : Set :=
| INVALID | SQLNULL | BOOLEAN
| TINYINT | SMALLINT | INTEGER | BIGINT
| UTINYINT | USMALLINT | UINTEGER | UBIGINT
| HUGEINT | UHUGEINT
| FLOAT | DOUBLE | DECIMAL
| VARCHAR | BLOB
| DATE | TIME | TIMESTAMP | INTERVAL | UUID
| STRUCT | LIST | MAP | ENUM.

#[global] Instance LogicalTypeId_inhabited : Inhabited LogicalTypeId :=
  populate INVALID.

(** A [duckdb::Value].  [Value_null] is the default-constructed
    [duckdb::Value()]; an integer value carries its type and its number; a
    [float] or [double] carries its bit pattern; a value of any other type
    carries the text [ToString()] gives for it. *)
Inductive Value : Type :=
| Value_null
| Value_BOOLEAN (b : bool)
| Value_integer (ty : LogicalTypeId) (v : Z)
| Value_FLOAT (bits : Z)
| Value_DOUBLE (bits : Z)
| Value_VARCHAR (s : string)
| Value_other (ty : LogicalTypeId) (text : string).

#[global] Instance Value_inhabited : Inhabited Value := populate Value_null.

(** The conversions to the two 64-bit integer types. *)
Definition to_int64 (v : Z) : Z := (v + 2 ^ 63) mod 2 ^ 64 - 2 ^ 63.
Definition to_uint64 (v : Z) : Z := v mod 2 ^ 64.

Definition IsNull (val : Value) : bool :=
  match val with Value_null => true | _ => false end.

(** [val.GetValue<T>()].  The serializers ask a value only for the C++
    type of its column; on a value of another kind the accessors below
    answer a default. *)
Definition GetValue_bool (val : Value) : bool :=
  match val with
  | Value_BOOLEAN b => b
  | Value_integer _ v => negb (v =? 0)
  | _ => false
  end.

Definition GetValue_int64 (val : Value) : Z :=
  match val with
  | Value_BOOLEAN b => if b then 1 else 0
  | Value_integer _ v => to_int64 v
  | _ => 0
  end.

Definition GetValue_uint64 (val : Value) : Z :=
  match val with
  | Value_BOOLEAN b => if b then 1 else 0
  | Value_integer _ v => to_uint64 v
  | _ => 0
  end.

Definition GetValue_float (val : Value) : Z :=
  match val with Value_FLOAT bits => bits | _ => 0 end.

Definition GetValue_double (val : Value) : Z :=
  match val with Value_DOUBLE bits => bits | _ => 0 end.

Definition ToString `{Runtime} (val : Value) : string :=
  match val with
  | Value_null => "NULL"
  | Value_BOOLEAN b => if b then "true" else "false"
  | Value_integer _ v => put_int64 v
  | Value_FLOAT bits => put_float bits
  | Value_DOUBLE bits => put_double bits
  | Value_VARCHAR s => s
  | Value_other _ text => text
  end.

(** A block of rows: [chunk->size()] and [chunk->GetValue(col, row)]. *)
Record DataChunk := {
  chunk_size : nat;
  chunk_GetValue : nat -> nat -> Value
}.

(** A [duckdb::QueryResult]: the carried error ([HasError()],
    [GetError()]), the public members [names] and [types], and the chunks
    that successive calls of [Fetch()] deliver; once they are used up
    [Fetch()] returns [nullptr].  In the engine [names] and [types] have
    one entry per column; the serializers index them with
    [column_names[col]] and [column_types[col]], which is a lookup that
    answers a default when the entry is missing. *)
Record QueryResult := {
  error : option string;
  names : list string;
  types : list LogicalTypeId;
  stream : list DataChunk
}.

Definition HasError (r : QueryResult) : bool :=
  match error r with Some _ => true | None => false end.

Definition GetError (r : QueryResult) : string := default "" (error r).

Definition ColumnCount (r : QueryResult) : nat := length (types r).

(** A [duckdb::MaterializedQueryResult] adds random access:
    [RowCount()] and [GetValue(col, row)]. *)
Record MaterializedQueryResult := {
  base :> QueryResult;
  RowCount : nat;
  GetValue : nat -> nat -> Value
}.

(** [for (size_t i = 0; i < n; i++) body]. *)
Definition for_loop {S : Type} (n : nat) (body : nat -> S -> S) (s : S) : S :=
  fold_left (fun s i => body i s) (seq 0 n) s.

(** ** The engine as an environment

    The bridges call the engine and act on what it answers.  An entry
    point is a program over the events below: each event is one call into
    the engine, and its result is the engine's answer.  A call that can
    throw answers [inl what] with the [what()] of the [std::exception]. *)

(** Engine objects are identified by the engine. *)
Record DuckDB := { db_id : N }.
Record Connection := { conn_id : N }.

(** A [duckdb::PreparedStatement]: the carried error and the public
    member [named_param_map]. *)
Record PreparedStatement := {
  stmt_id : N;
  stmt_error : option string;
  named_param_map : gmap string N
}.

Definition stmt_HasError (s : PreparedStatement) : bool :=
  match stmt_error s with Some _ => true | None => false end.

Definition stmt_GetError (s : PreparedStatement) : string :=
  default "" (stmt_error s).

Inductive EngineE : Type -> Type :=
| DuckDB_open (path : option string) : EngineE (string + DuckDB)
| LoadStaticExtension_Spatial (db : DuckDB) : EngineE (string + unit)
| DuckDB_release (db : DuckDB) : EngineE unit
| Connection_new (db : DuckDB) : EngineE (string + Connection)
| Connection_delete (conn : Connection) : EngineE unit
| Connection_Query (conn : Connection) (sql : string)
    : EngineE (string + MaterializedQueryResult)
| Connection_Prepare (conn : Connection) (sql : string)
    : EngineE (string + PreparedStatement)
| PreparedStatement_delete (stmt : PreparedStatement) : EngineE unit
| PreparedStatement_Execute (stmt : PreparedStatement) (values : list Value)
    (allow_stream_result : bool) : EngineE (string + QueryResult).

(** A program: it returns, or the process aborts (an exception leaves an
    entry point, or the behaviour is undefined), or it calls the engine
    and goes on with the answer. *)
Inductive Prog (R : Type) : Type :=
| Ret (r : R)
| Crash
| Vis {X : Type} (e : EngineE X) (k : X -> Prog R).

Arguments Ret {R} r.
Arguments Crash {R}.
Arguments Vis {R X} e k.

Fixpoint Prog_bind {A B : Type} (f : A -> Prog B) (p : Prog A) : Prog B :=
  match p with
  | Ret a => f a
  | Crash => Crash
  | Vis e k => Vis e (fun x => Prog_bind f (k x))
  end.

(** Programs that also read and write native memory [St]. *)
Definition M (St R : Type) : Type := St -> Prog (R * St).

#[global] Instance M_ret {St} : MRet (M St) := fun A a s => Ret (a, s).

Definition M_bind {St A B : Type} (m : M St A) (f : A -> M St B) : M St B :=
  fun s => Prog_bind (fun '(a, s') => f a s') (m s).

Notation "x <- m ;; k" := (M_bind m (fun x => k))
  (at level 100, m at next level, right associativity).
Notation "m ;;; k" := (M_bind m (fun _ => k))
  (at level 100, right associativity).

Definition engine {St X : Type} (e : EngineE X) : M St X :=
  fun s => Vis e (fun x => Ret (x, s)).

Definition crash {St R : Type} : M St R := fun _ => Crash.

(** *** Native memory

    The objects the bridge allocates live at addresses; address 0 is the
    null pointer.  [new] takes an address that is not in use. *)
Section Memory.
Context {Object : Type}.

Definition new (o : Object) : M (gmap Z Object) Z :=
  fun h => let p := fresh (dom h ∪ {[0]}) in Ret (p, <[p := o]> h).

(** Reading through a pointer that does not point to a live object is
    undefined. *)
Definition load (p : Z) : M (gmap Z Object) Object :=
  fun h => match h !! p with Some o => Ret (o, h) | None => Crash end.

Definition store (p : Z) (o : Object) : M (gmap Z Object) unit :=
  fun h => match h !! p with
           | Some _ => Ret (tt, <[p := o]> h)
           | None => Crash
           end.

Definition free (p : Z) : M (gmap Z Object) unit :=
  fun h => match h !! p with
           | Some _ => Ret (tt, delete p h)
           | None => Crash
           end.
End Memory.

(** *** Fixed-width integers and [std::vector] *)

Definition INT_MAX : Z := 2 ^ 31 - 1.
Definition INT_MIN : Z := - 2 ^ 31.

(** Conversion of a [size_t] to [int], and of an [int] to [size_t]. *)
Definition to_int (v : Z) : Z := (v + 2 ^ 31) mod 2 ^ 32 - 2 ^ 31.
Definition to_size_t (v : Z) : Z := v mod 2 ^ 64.

(** The result [v] of an [int] addition or subtraction.  Signed overflow
    is undefined in C++: a result that an [int] cannot hold ends the
    program. *)
Definition int_result {St : Type} (v : Z) : M St Z :=
  if (INT_MIN <=? v) && (v <=? INT_MAX) then mret v else crash.

(** The vector [v] after a [v.resize(n)] that returned: it is cut, or
    filled up with default-constructed values, which are null. *)
Definition resized (n : Z) (v : list Value) : list Value :=
  resize (Z.to_nat n) Value_null v.

(** [v.resize(n)].  Cutting a vector never fails.  Growing it allocates,
    and beyond the allocation limit of the runtime the allocation fails:
    [resize] throws ([std::length_error], [std::bad_alloc]) and gives no
    vector. *)
Definition vector_resize `{Runtime} (n : Z) (v : list Value)
  : option (list Value) :=
  if (n <=? Z.of_nat (length v)) || (n <=? alloc_limit)
  then Some (resized n v)
  else None.

(** *** Strings at the boundary *)

(** What a reader of a [const char*] sees of a [std::string]: the bytes
    before the first NUL. *)
Fixpoint c_str (s : string) : string :=
  match s with
  | EmptyString => EmptyString
  | String c rest => if uchar c =? 0 then EmptyString else String c (c_str rest)
  end.

(** A Java string reference: null or a text. *)
Definition jstring : Type := option string.

(** A [const char*] argument or a [char*] result: null or a C string. *)
Definition cstring : Type := option string.

Definition GetStringUTFChars (s : jstring) : option string := s.
Definition NewStringUTF (utf : string) : jstring := Some utf.

(** A [char** error_out] argument: null, or the address of a slot that
    holds null or a text. *)
Definition ErrorOut : Type := option (option string).

(** * The Android bridge: [duckdb_jni.cpp] *)

Module Android.

(** *** [escapeJsonString] *)
Section Encoder.
Context `{Runtime}.

(** The body of the [for (char c : str)] loop of [escapeJsonString]. *)
Definition escape_body (c : ascii) (ss : string) : string :=
  match char_to_int c with
  | 34 => ss << ch BACKSLASH << ch DQUOTE
  | 92 => ss << ch BACKSLASH << ch BACKSLASH
  | 8 => ss << ch BACKSLASH << "b"
  | 12 => ss << ch BACKSLASH << "f"
  | 10 => ss << ch BACKSLASH << "n"
  | 13 => ss << ch BACKSLASH << "r"
  | 9 => ss << ch BACKSLASH << "t"
  | _ =>
      if (0 <=? char_to_int c) && (char_to_int c <=? 31)
      then ss << ch BACKSLASH << "u"
              << setw_setfill 4 "0" (put_hex_int (char_to_int c))
      else ss << ch c
  end.

Fixpoint escape_loop (str : string) (ss : string) : string :=
  match str with
  | EmptyString => ss
  | String c rest => escape_loop rest (escape_body c ss)
  end.

Definition escapeJsonString (str : string) : string :=
  let ss := "" in
  let ss := ss << ch DQUOTE in
  let ss := escape_loop str ss in
  ss << ch DQUOTE.
End Encoder.

(** *** [queryResultToJson] and [resultToJson] *)
Section Serializer.
Context `{Runtime}.

(** The [if (val.IsNull()) ... else switch (type.id())] block, which
    both serializers contain. *)
Definition put_value (json : string) (type : LogicalTypeId) (val : Value)
  : string :=
  if IsNull val then json << "null"
  else
    match type with
    | BOOLEAN => json << (if GetValue_bool val then "true" else "false")
    | TINYINT | SMALLINT | INTEGER | BIGINT =>
        json << put_int64 (GetValue_int64 val)
    | UTINYINT | USMALLINT | UINTEGER | UBIGINT =>
        json << put_uint64 (GetValue_uint64 val)
    | FLOAT => json << put_float (GetValue_float val)
    | DOUBLE => json << put_double (GetValue_double val)
    | _ => json << escapeJsonString (ToString val)
    end.

(** The body of the [for col] loop; [get col] is the [GetValue(col, row)]
    of the row at hand. *)
Definition column_body (column_names : list string)
    (column_types : list LogicalTypeId) (get : nat -> Value)
    (col : nat) (json : string) : string :=
  let json := if (0 <? col)%nat then json << "," else json in
  let json := json << escapeJsonString (column_names !!! col) << ":" in
  put_value json (column_types !!! col) (get col).

(** The body of the [for row] loop over one chunk; the state is the
    text written so far and the flag [first_row]. *)
Definition chunk_row_body (result : QueryResult) (chunk : DataChunk)
    (row : nat) (st : string * bool) : string * bool :=
  let '(json, first_row) := st in
  let json := if negb first_row then json << "," else json in
  let first_row := false in
  let json := json << "{" in
  let json :=
    for_loop (ColumnCount result)
      (column_body (names result) (types result)
         (fun col => chunk_GetValue chunk col row)) json in
  (json << "}", first_row).

(** [while ((chunk = result->Fetch()) != nullptr && chunk->size() > 0)]. *)
Fixpoint fetch_loop (result : QueryResult) (chunks : list DataChunk)
    (st : string * bool) : string * bool :=
  match chunks with
  | [] => st
  | chunk :: rest =>
      if (0 <? chunk_size chunk)%nat
      then fetch_loop result rest
             (for_loop (chunk_size chunk) (chunk_row_body result chunk) st)
      else st
  end.

Definition queryResultToJson (result : QueryResult) : string :=
  let json := "" << "[" in
  let first_row := true in
  let '(json, _) := fetch_loop result (stream result) (json, first_row) in
  json << "]".

Definition row_body (result : MaterializedQueryResult)
    (row : nat) (json : string) : string :=
  let json := if (0 <? row)%nat then json << "," else json in
  let json := json << "{" in
  let json :=
    for_loop (ColumnCount result)
      (column_body (names result) (types result)
         (fun col => GetValue result col row)) json in
  json << "}".

Definition resultToJson (result : MaterializedQueryResult) : string :=
  let json := "" << "[" in
  let json := for_loop (RowCount result) (row_body result) json in
  json << "]".
End Serializer.

(** *** Handles and entry points *)

Record DatabaseWrapper := {
  cpp_db : option DuckDB;
  c_db : option DuckDB
}.

Record PreparedStatementWrapper := {
  stmt : PreparedStatement;
  bindings : list Value
}.

(** What a handle can point to: the three kinds of objects the bridge
    allocates with [new]. *)
Inductive Object : Type :=
| Obj_DatabaseWrapper (w : DatabaseWrapper)
| Obj_Connection (conn : Connection)
| Obj_PreparedStatementWrapper (w : PreparedStatementWrapper).

(** Reading through a [reinterpret_cast] of a handle. *)
Definition load_DatabaseWrapper (p : Z) : M (gmap Z Object) DatabaseWrapper :=
  o <- load p ;;
  match o with Obj_DatabaseWrapper w => mret w | _ => crash end.

Definition load_Connection (p : Z) : M (gmap Z Object) Connection :=
  o <- load p ;;
  match o with Obj_Connection c => mret c | _ => crash end.

Definition load_PreparedStatementWrapper (p : Z)
  : M (gmap Z Object) PreparedStatementWrapper :=
  o <- load p ;;
  match o with Obj_PreparedStatementWrapper w => mret w | _ => crash end.

Definition set_bindings (p : Z) (w : PreparedStatementWrapper)
    (b : list Value) : M (gmap Z Object) unit :=
  store p (Obj_PreparedStatementWrapper {| stmt := stmt w; bindings := b |}).

Section Api.
Context `{Runtime}.

Definition openDatabase (path : jstring) : M (gmap Z Object) Z :=
  let pathStr :=
    match path with
    | Some _ => match GetStringUTFChars path with Some s => s | None => "" end
    | None => ""
    end in
  wrapper <- new (Obj_DatabaseWrapper {| cpp_db := None; c_db := None |}) ;;
  r <- engine (DuckDB_open (if String.eqb pathStr "" then None else Some pathStr)) ;;
  match r with
  | inl _ => mret 0
  | inr db =>
      store wrapper (Obj_DatabaseWrapper {| cpp_db := Some db; c_db := None |}) ;;;
      engine (LoadStaticExtension_Spatial db) ;;;
      store wrapper (Obj_DatabaseWrapper {| cpp_db := Some db; c_db := Some db |}) ;;;
      mret wrapper
  end.

Definition closeDatabase (dbPtr : Z) : M (gmap Z Object) unit :=
  if dbPtr =? 0 then mret tt
  else
    wrapper <- load_DatabaseWrapper dbPtr ;;
    match cpp_db wrapper with
    | Some db => engine (DuckDB_release db)
    | None => mret tt
    end ;;;
    free dbPtr.

Definition connect (dbPtr : Z) : M (gmap Z Object) Z :=
  if dbPtr =? 0 then mret 0
  else
    wrapper <- load_DatabaseWrapper dbPtr ;;
    match cpp_db wrapper with
    | None => crash
    | Some db =>
        r <- engine (Connection_new db) ;;
        match r with
        | inl _ => mret 0
        | inr conn => new (Obj_Connection conn)
        end
    end.

Definition disconnect (connPtr : Z) : M (gmap Z Object) unit :=
  if connPtr =? 0 then mret tt
  else
    conn <- load_Connection connPtr ;;
    engine (Connection_delete conn) ;;;
    free connPtr.

Definition query (connPtr : Z) (sql : jstring) : M (gmap Z Object) jstring :=
  if connPtr =? 0 then mret (NewStringUTF "ERROR:Invalid connection handle")
  else
    match GetStringUTFChars sql with
    | None => mret (NewStringUTF "ERROR:Invalid SQL string")
    | Some sqlStr =>
        conn <- load_Connection connPtr ;;
        r <- engine (Connection_Query conn sqlStr) ;;
        match r with
        | inr result =>
            if HasError result then
              let errorMsg := "ERROR:" << GetError result in
              mret (NewStringUTF (c_str errorMsg))
            else
              let jsonResult := resultToJson result in
              mret (NewStringUTF (c_str jsonResult))
        | inl what =>
            let errorMsg := "ERROR:" << what in
            mret (NewStringUTF (c_str errorMsg))
        end
    end.

Definition execute (connPtr : Z) (sql : jstring) : M (gmap Z Object) jstring :=
  if connPtr =? 0 then mret (NewStringUTF "ERROR:Invalid connection handle")
  else
    match GetStringUTFChars sql with
    | None => mret (NewStringUTF "ERROR:Invalid SQL string")
    | Some sqlStr =>
        conn <- load_Connection connPtr ;;
        r <- engine (Connection_Query conn sqlStr) ;;
        match r with
        | inr result =>
            if HasError result then
              let errorMsg := "ERROR:" << GetError result in
              mret (NewStringUTF (c_str errorMsg))
            else
              let rows_changed := to_int64 (Z.of_nat (RowCount result)) in
              let json :=
                "" << "{" << ch DQUOTE << "changes" << ch DQUOTE << ":"
                   << put_int64 rows_changed << "}" in
              mret (NewStringUTF (c_str json))
        | inl what =>
            let errorMsg := "ERROR:" << what in
            mret (NewStringUTF (c_str errorMsg))
        end
    end.

(** The store of a new statement gets one null for each parameter.  The
    number of parameters is that of a statement the engine has just
    built and holds in memory: the model takes the allocation of as many
    values to succeed, as it takes every [new] to. *)
Definition prepare (connPtr : Z) (sql : jstring) : M (gmap Z Object) Z :=
  if connPtr =? 0 then mret 0
  else
    match GetStringUTFChars sql with
    | None => mret 0
    | Some sqlStr =>
        conn <- load_Connection connPtr ;;
        r <- engine (Connection_Prepare conn sqlStr) ;;
        match r with
        | inr stmt =>
            if stmt_HasError stmt then mret 0
            else
              let n_params := Z.of_nat (size (named_param_map stmt)) in
              wrapper <- new (Obj_PreparedStatementWrapper
                               {| stmt := stmt; bindings := [] |}) ;;
              store wrapper
                (Obj_PreparedStatementWrapper
                   {| stmt := stmt; bindings := resized n_params [] |}) ;;;
              mret wrapper
        | inl _ => mret 0
        end
    end.

Definition destroyPrepared (stmtPtr : Z) : M (gmap Z Object) unit :=
  if stmtPtr =? 0 then mret tt
  else
    wrapper <- load_PreparedStatementWrapper stmtPtr ;;
    engine (PreparedStatement_delete (stmt wrapper)) ;;;
    free stmtPtr.

(** The part the five [bind] entry points share after the handle
    check: the index conversion, the range check and the resize.  It
    answers the wrapper, its bindings after the resize and the 0-based
    index, or nothing when the index is refused.  The entry points have
    no [try] block: when [resize] throws, the exception leaves the entry
    point. *)
Definition bind_slot (stmtPtr : Z) (index : Z)
  : M (gmap Z Object) (option (PreparedStatementWrapper * list Value * Z)) :=
  idx <- int_result (index - 1) ;;
  if idx <? 0 then mret None
  else
    wrapper <- load_PreparedStatementWrapper stmtPtr ;;
    if to_int (Z.of_nat (length (bindings wrapper))) <=? idx then
      n <- int_result (idx + 1) ;;
      match vector_resize (to_size_t n) (bindings wrapper) with
      | Some b =>
          set_bindings stmtPtr wrapper b ;;;
          mret (Some (wrapper, b, idx))
      | None => crash
      end
    else mret (Some (wrapper, bindings wrapper, idx)).

Definition bindString (stmtPtr : Z) (index : Z) (value : jstring)
  : M (gmap Z Object) bool :=
  if stmtPtr =? 0 then mret false
  else
    slot <- bind_slot stmtPtr index ;;
    match slot with
    | None => mret false
    | Some (wrapper, b, idx) =>
        match GetStringUTFChars value with
        | None =>
            set_bindings stmtPtr wrapper (<[Z.to_nat idx := Value_null]> b)
        | Some str =>
            let strVal := str in
            set_bindings stmtPtr wrapper
              (<[Z.to_nat idx := Value_VARCHAR strVal]> b)
        end ;;;
        mret true
    end.

Definition bindLong (stmtPtr : Z) (index : Z) (value : Z)
  : M (gmap Z Object) bool :=
  if stmtPtr =? 0 then mret false
  else
    slot <- bind_slot stmtPtr index ;;
    match slot with
    | None => mret false
    | Some (wrapper, b, idx) =>
        set_bindings stmtPtr wrapper
          (<[Z.to_nat idx := Value_integer BIGINT value]> b) ;;;
        mret true
    end.

Definition bindDouble (stmtPtr : Z) (index : Z) (value : Z)
  : M (gmap Z Object) bool :=
  if stmtPtr =? 0 then mret false
  else
    slot <- bind_slot stmtPtr index ;;
    match slot with
    | None => mret false
    | Some (wrapper, b, idx) =>
        set_bindings stmtPtr wrapper
          (<[Z.to_nat idx := Value_DOUBLE value]> b) ;;;
        mret true
    end.

(** A [jboolean] is a byte; [JNI_TRUE] is 1. *)
Definition bindBoolean (stmtPtr : Z) (index : Z) (value : Z)
  : M (gmap Z Object) bool :=
  if stmtPtr =? 0 then mret false
  else
    slot <- bind_slot stmtPtr index ;;
    match slot with
    | None => mret false
    | Some (wrapper, b, idx) =>
        set_bindings stmtPtr wrapper
          (<[Z.to_nat idx := Value_BOOLEAN (value =? 1)]> b) ;;;
        mret true
    end.

Definition bindNull (stmtPtr : Z) (index : Z) : M (gmap Z Object) bool :=
  if stmtPtr =? 0 then mret false
  else
    slot <- bind_slot stmtPtr index ;;
    match slot with
    | None => mret false
    | Some (wrapper, b, idx) =>
        set_bindings stmtPtr wrapper (<[Z.to_nat idx := Value_null]> b) ;;;
        mret true
    end.

Definition executePrepared (stmtPtr : Z) : M (gmap Z Object) jstring :=
  if stmtPtr =? 0 then mret (NewStringUTF "ERROR:Invalid statement handle")
  else
    wrapper <- load_PreparedStatementWrapper stmtPtr ;;
    let values_ref := bindings wrapper in
    r <- engine (PreparedStatement_Execute (stmt wrapper) values_ref false) ;;
    match r with
    | inr result =>
        if HasError result then
          let errorMsg := "ERROR:" << GetError result in
          mret (NewStringUTF (c_str errorMsg))
        else
          let jsonResult := queryResultToJson result in
          mret (NewStringUTF (c_str jsonResult))
    | inl what =>
        let errorMsg := "ERROR:" << what in
        mret (NewStringUTF (c_str errorMsg))
    end.

Definition clearBindings (stmtPtr : Z) : M (gmap Z Object) bool :=
  if stmtPtr =? 0 then mret false
  else
    wrapper <- load_PreparedStatementWrapper stmtPtr ;;
    set_bindings stmtPtr wrapper ((fun _ => Value_null) <$> bindings wrapper) ;;;
    mret true.
End Api.
End Android.

(** * The iOS bridge: [duckdb_ios.cpp] *)

Module Ios.

(** *** [escapeJsonString] *)
Section Encoder.
Context `{Runtime}.

(** As on Android, except that the control byte is converted through
    [unsigned char] before it is printed. *)
Definition escape_body (c : ascii) (ss : string) : string :=
  match char_to_int c with
  | 34 => ss << ch BACKSLASH << ch DQUOTE
  | 92 => ss << ch BACKSLASH << ch BACKSLASH
  | 8 => ss << ch BACKSLASH << "b"
  | 12 => ss << ch BACKSLASH << "f"
  | 10 => ss << ch BACKSLASH << "n"
  | 13 => ss << ch BACKSLASH << "r"
  | 9 => ss << ch BACKSLASH << "t"
  | _ =>
      if (0 <=? char_to_int c) && (char_to_int c <=? 31)
      then ss << ch BACKSLASH << "u"
              << setw_setfill 4 "0" (put_hex_int (uchar c))
      else ss << ch c
  end.

Fixpoint escape_loop (str : string) (ss : string) : string :=
  match str with
  | EmptyString => ss
  | String c rest => escape_loop rest (escape_body c ss)
  end.

Definition escapeJsonString (str : string) : string :=
  let ss := "" in
  let ss := ss << ch DQUOTE in
  let ss := escape_loop str ss in
  ss << ch DQUOTE.
End Encoder.

(** *** [resultToJson] *)
Section Serializer.
Context `{Runtime}.

Definition put_value (json : string) (type : LogicalTypeId) (val : Value)
  : string :=
  if IsNull val then json << "null"
  else
    match type with
    | BOOLEAN => json << (if GetValue_bool val then "true" else "false")
    | TINYINT | SMALLINT | INTEGER | BIGINT =>
        json << put_int64 (GetValue_int64 val)
    | UTINYINT | USMALLINT | UINTEGER | UBIGINT =>
        json << put_uint64 (GetValue_uint64 val)
    | FLOAT => json << put_float (GetValue_float val)
    | DOUBLE => json << put_double (GetValue_double val)
    | _ => json << escapeJsonString (ToString val)
    end.

Definition column_body (column_names : list string)
    (column_types : list LogicalTypeId) (get : nat -> Value)
    (col : nat) (json : string) : string :=
  let json := if (0 <? col)%nat then json << "," else json in
  let json := json << escapeJsonString (column_names !!! col) << ":" in
  put_value json (column_types !!! col) (get col).

Definition chunk_row_body (result : QueryResult) (chunk : DataChunk)
    (row : nat) (st : string * bool) : string * bool :=
  let '(json, first_row) := st in
  let json := if negb first_row then json << "," else json in
  let first_row := false in
  let json := json << "{" in
  let json :=
    for_loop (ColumnCount result)
      (column_body (names result) (types result)
         (fun col => chunk_GetValue chunk col row)) json in
  (json << "}", first_row).

Fixpoint fetch_loop (result : QueryResult) (chunks : list DataChunk)
    (st : string * bool) : string * bool :=
  match chunks with
  | [] => st
  | chunk :: rest =>
      if (0 <? chunk_size chunk)%nat
      then fetch_loop result rest
             (for_loop (chunk_size chunk) (chunk_row_body result chunk) st)
      else st
  end.

(** The one serializer of the iOS bridge fetches chunks. *)
Definition resultToJson (result : QueryResult) : string :=
  let json := "" << "[" in
  let first_row := true in
  let '(json, _) := fetch_loop result (stream result) (json, first_row) in
  json << "]".
End Serializer.

(** *** Handles and entry points *)

Record DatabaseWrapper := {
  db : option DuckDB;
  spatial_loaded : bool
}.

Record ConnectionWrapper := {
  conn : option Connection;
  db_wrapper : Z
}.

Record PreparedWrapper := {
  stmt : PreparedStatement;
  bindings : list Value
}.

Inductive Object : Type :=
| Obj_DatabaseWrapper (w : DatabaseWrapper)
| Obj_ConnectionWrapper (w : ConnectionWrapper)
| Obj_PreparedWrapper (w : PreparedWrapper).

(** Reading through a [static_cast] of a handle. *)
Definition load_DatabaseWrapper (p : Z) : M (gmap Z Object) DatabaseWrapper :=
  o <- load p ;;
  match o with Obj_DatabaseWrapper w => mret w | _ => crash end.

Definition load_ConnectionWrapper (p : Z)
  : M (gmap Z Object) ConnectionWrapper :=
  o <- load p ;;
  match o with Obj_ConnectionWrapper w => mret w | _ => crash end.

(** [wrapper->conn->...]: the wrapper and the connection it owns. *)
Definition load_Connection (p : Z) : M (gmap Z Object) Connection :=
  w <- load_ConnectionWrapper p ;;
  match conn w with Some c => mret c | None => crash end.

Definition load_PreparedWrapper (p : Z) : M (gmap Z Object) PreparedWrapper :=
  o <- load p ;;
  match o with Obj_PreparedWrapper w => mret w | _ => crash end.

Definition set_bindings (p : Z) (w : PreparedWrapper) (b : list Value)
  : M (gmap Z Object) unit :=
  store p (Obj_PreparedWrapper {| stmt := stmt w; bindings := b |}).

(** [malloc] and [strcpy]: the copy is the C string. *)
Definition duplicate_string (str : string) : cstring := Some (c_str str).

(** [if (error_out) *error_out = duplicate_string(msg)]. *)
Definition set_error (error_out : ErrorOut) (msg : string) : ErrorOut :=
  match error_out with
  | Some _ => Some (duplicate_string msg)
  | None => None
  end.

Section Api.
Context `{Runtime}.

Definition duckdb_ios_open_database (path : cstring) (error_out : ErrorOut)
  : M (gmap Z Object) (Z * ErrorOut) :=
  let pathStr := match path with Some s => s | None => "" end in
  wrapper <- new (Obj_DatabaseWrapper {| db := None; spatial_loaded := false |}) ;;
  r <- engine (DuckDB_open (if String.eqb pathStr "" then None else Some pathStr)) ;;
  match r with
  | inl what => mret (0, set_error error_out what)
  | inr d =>
      store wrapper (Obj_DatabaseWrapper {| db := Some d; spatial_loaded := false |}) ;;;
      l <- engine (LoadStaticExtension_Spatial d) ;;
      match l with
      | inr _ =>
          store wrapper
            (Obj_DatabaseWrapper {| db := Some d; spatial_loaded := true |})
      | inl _ => mret tt
      end ;;;
      mret (wrapper, error_out)
  end.

Definition duckdb_ios_close_database (db : Z) : M (gmap Z Object) unit :=
  if negb (db =? 0) then
    wrapper <- load_DatabaseWrapper db ;;
    match Ios.db wrapper with
    | Some d => engine (DuckDB_release d)
    | None => mret tt
    end ;;;
    free db
  else mret tt.

Definition duckdb_ios_connect (db : Z) (error_out : ErrorOut)
  : M (gmap Z Object) (Z * ErrorOut) :=
  if db =? 0 then mret (0, set_error error_out "Invalid database handle")
  else
    db_wrapper <- load_DatabaseWrapper db ;;
    conn_wrapper <- new (Obj_ConnectionWrapper {| conn := None; db_wrapper := db |}) ;;
    match Ios.db db_wrapper with
    | None => crash
    | Some d =>
        r <- engine (Connection_new d) ;;
        match r with
        | inl what => mret (0, set_error error_out what)
        | inr c =>
            store conn_wrapper
              (Obj_ConnectionWrapper {| conn := Some c; db_wrapper := db |}) ;;;
            mret (conn_wrapper, error_out)
        end
    end.

Definition duckdb_ios_disconnect (conn : Z) : M (gmap Z Object) unit :=
  if negb (conn =? 0) then
    wrapper <- load_ConnectionWrapper conn ;;
    match Ios.conn wrapper with
    | Some c => engine (Connection_delete c)
    | None => mret tt
    end ;;;
    free conn
  else mret tt.

Definition duckdb_ios_query (conn : Z) (sql : cstring) (error_out : ErrorOut)
  : M (gmap Z Object) (cstring * ErrorOut) :=
  match conn =? 0, sql with
  | false, Some sql =>
      c <- load_Connection conn ;;
      r <- engine (Connection_Query c sql) ;;
      match r with
      | inr result =>
          if HasError result then
            mret (None, set_error error_out (GetError result))
          else
            let json := resultToJson result in
            mret (duplicate_string json, error_out)
      | inl what => mret (None, set_error error_out what)
      end
  | is_null, _ =>
      mret (None,
            set_error error_out
              (if negb is_null then "Invalid SQL" else "Invalid connection"))
  end.

Definition duckdb_ios_execute (conn : Z) (sql : cstring)
    (rows_changed_out : option Z) (error_out : ErrorOut)
  : M (gmap Z Object) (bool * option Z * ErrorOut) :=
  match conn =? 0, sql with
  | false, Some sql =>
      c <- load_Connection conn ;;
      r <- engine (Connection_Query c sql) ;;
      match r with
      | inr result =>
          if HasError result then
            mret (false, rows_changed_out,
                  set_error error_out (GetError result))
          else
            let rows_changed_out :=
              match rows_changed_out with
              | Some _ => Some (to_int64 (Z.of_nat (RowCount result)))
              | None => None
              end in
            mret (true, rows_changed_out, error_out)
      | inl what => mret (false, rows_changed_out, set_error error_out what)
      end
  | is_null, _ =>
      mret (false, rows_changed_out,
            set_error error_out
              (if negb is_null then "Invalid SQL" else "Invalid connection"))
  end.

(** The store of a new statement gets one null for each parameter.  The
    number of parameters is that of a statement the engine has just
    built and holds in memory: the model takes the allocation of as many
    values to succeed, as it takes every [new] to. *)
Definition duckdb_ios_prepare (conn : Z) (sql : cstring) (error_out : ErrorOut)
  : M (gmap Z Object) (Z * ErrorOut) :=
  match conn =? 0, sql with
  | false, Some sql =>
      c <- load_Connection conn ;;
      r <- engine (Connection_Prepare c sql) ;;
      match r with
      | inr stmt =>
          if stmt_HasError stmt then
            mret (0, set_error error_out (stmt_GetError stmt))
          else
            prep_wrapper <- new (Obj_PreparedWrapper
                                   {| stmt := stmt; bindings := [] |}) ;;
            store prep_wrapper
              (Obj_PreparedWrapper
                 {| stmt := stmt;
                    bindings :=
                      resized (Z.of_nat (size (named_param_map stmt))) [] |}) ;;;
            mret (prep_wrapper, error_out)
      | inl what => mret (0, set_error error_out what)
      end
  | is_null, _ =>
      mret (0,
            set_error error_out
              (if negb is_null then "Invalid SQL" else "Invalid connection"))
  end.

Definition duckdb_ios_destroy_prepared (stmt : Z) : M (gmap Z Object) unit :=
  if negb (stmt =? 0) then
    wrapper <- load_PreparedWrapper stmt ;;
    engine (PreparedStatement_delete (Ios.stmt wrapper)) ;;;
    free stmt
  else mret tt.

(** The part the five [bind] entry points share after the check of the
    handle and of the index: the index conversion and the resize.  It
    answers the wrapper, its bindings after the resize and the 0-based
    index.  The entry points have no [try] block: when [resize] throws,
    the exception leaves the entry point. *)
Definition bind_slot (stmt : Z) (index : Z)
  : M (gmap Z Object) (PreparedWrapper * list Value * Z) :=
  idx <- int_result (index - 1) ;;
  wrapper <- load_PreparedWrapper stmt ;;
  if Z.of_nat (length (bindings wrapper)) <=? to_size_t idx then
    n <- int_result (idx + 1) ;;
    match vector_resize (to_size_t n) (bindings wrapper) with
    | Some b =>
        set_bindings stmt wrapper b ;;;
        mret (wrapper, b, idx)
    | None => crash
    end
  else mret (wrapper, bindings wrapper, idx).

Definition duckdb_ios_bind_string (stmt : Z) (index : Z) (value : cstring)
  : M (gmap Z Object) bool :=
  if (stmt =? 0) || (index <? 1) then mret false
  else
    slot <- bind_slot stmt index ;;
    let '(wrapper, b, idx) := slot in
    match value with
    | Some value =>
        set_bindings stmt wrapper (<[Z.to_nat idx := Value_VARCHAR value]> b)
    | None =>
        set_bindings stmt wrapper (<[Z.to_nat idx := Value_null]> b)
    end ;;;
    mret true.

Definition duckdb_ios_bind_int64 (stmt : Z) (index : Z) (value : Z)
  : M (gmap Z Object) bool :=
  if (stmt =? 0) || (index <? 1) then mret false
  else
    slot <- bind_slot stmt index ;;
    let '(wrapper, b, idx) := slot in
    set_bindings stmt wrapper
      (<[Z.to_nat idx := Value_integer BIGINT value]> b) ;;;
    mret true.

Definition duckdb_ios_bind_double (stmt : Z) (index : Z) (value : Z)
  : M (gmap Z Object) bool :=
  if (stmt =? 0) || (index <? 1) then mret false
  else
    slot <- bind_slot stmt index ;;
    let '(wrapper, b, idx) := slot in
    set_bindings stmt wrapper (<[Z.to_nat idx := Value_DOUBLE value]> b) ;;;
    mret true.

Definition duckdb_ios_bind_bool (stmt : Z) (index : Z) (value : bool)
  : M (gmap Z Object) bool :=
  if (stmt =? 0) || (index <? 1) then mret false
  else
    slot <- bind_slot stmt index ;;
    let '(wrapper, b, idx) := slot in
    set_bindings stmt wrapper (<[Z.to_nat idx := Value_BOOLEAN value]> b) ;;;
    mret true.

Definition duckdb_ios_bind_null (stmt : Z) (index : Z)
  : M (gmap Z Object) bool :=
  if (stmt =? 0) || (index <? 1) then mret false
  else
    slot <- bind_slot stmt index ;;
    let '(wrapper, b, idx) := slot in
    set_bindings stmt wrapper (<[Z.to_nat idx := Value_null]> b) ;;;
    mret true.

Definition duckdb_ios_clear_bindings (stmt : Z) : M (gmap Z Object) unit :=
  if stmt =? 0 then mret tt
  else
    wrapper <- load_PreparedWrapper stmt ;;
    set_bindings stmt wrapper ((fun _ => Value_null) <$> bindings wrapper).

Definition duckdb_ios_execute_prepared (stmt : Z) (error_out : ErrorOut)
  : M (gmap Z Object) (cstring * ErrorOut) :=
  if stmt =? 0 then mret (None, set_error error_out "Invalid statement handle")
  else
    wrapper <- load_PreparedWrapper stmt ;;
    r <- engine (PreparedStatement_Execute (Ios.stmt wrapper)
                   (bindings wrapper) true) ;;
    match r with
    | inr result =>
        if HasError result then
          mret (None, set_error error_out (GetError result))
        else
          let json := resultToJson result in
          mret (duplicate_string json, error_out)
    | inl what => mret (None, set_error error_out what)
    end.

Definition duckdb_ios_has_spatial_extension (db : Z)
  : M (gmap Z Object) bool :=
  if db =? 0 then mret false
  else
    wrapper <- load_DatabaseWrapper db ;;
    mret (spatial_loaded wrapper).
End Api.
End Ios.

(** * The notions the properties are stated with *)

(** ** Decoding a JSON string literal

    The decoder the encoder is checked against: RFC 8259 section 7, on
    bytes.  A literal is a quotation mark, a sequence of characters and a
    quotation mark; a backslash introduces one of the two-character
    escapes or [u] and four hexadecimal digits; a raw control byte is not
    allowed; every other byte stands for itself. *)

Definition hex_val (c : ascii) : option Z :=
  let n := uchar c in
  if (48 <=? n) && (n <=? 57) then Some (n - 48)
  else if (97 <=? n) && (n <=? 102) then Some (n - 87)
  else if (65 <=? n) && (n <=? 70) then Some (n - 55)
  else None.

(** UTF-8 of a code point of the basic multilingual plane. *)
Definition utf8_encode (cp : Z) : string :=
  if cp <? 128 then ch (ascii_of_Z cp)
  else if cp <? 2048 then
    String (ascii_of_Z (192 + cp / 64)) (ch (ascii_of_Z (128 + cp mod 64)))
  else
    String (ascii_of_Z (224 + cp / 4096))
      (String (ascii_of_Z (128 + (cp / 64) mod 64))
         (ch (ascii_of_Z (128 + cp mod 64)))).

Definition json_named_escape (e : ascii) : option ascii :=
  match uchar e with
  | 34 => Some DQUOTE
  | 92 => Some BACKSLASH
  | 47 => Some (ascii_of_Z 47)
  | 98 => Some (ascii_of_Z 8)
  | 102 => Some (ascii_of_Z 12)
  | 110 => Some (ascii_of_Z 10)
  | 114 => Some (ascii_of_Z 13)
  | 116 => Some (ascii_of_Z 9)
  | _ => None
  end.

Definition json_hex4 (h1 h2 h3 h4 : ascii) : option Z :=
  match hex_val h1, hex_val h2, hex_val h3, hex_val h4 with
  | Some a, Some b, Some c, Some d => Some (((a * 16 + b) * 16 + c) * 16 + d)
  | _, _, _, _ => None
  end.

(** The characters of a literal after its opening quotation mark. *)
Fixpoint json_decode_chars (s : string) : option string :=
  match s with
  | EmptyString => None
  | String c rest =>
      if uchar c =? 34 then
        match rest with EmptyString => Some "" | String _ _ => None end
      else if uchar c =? 92 then
        match rest with
        | EmptyString => None
        | String e rest1 =>
            match json_named_escape e with
            | Some x => String x <$> json_decode_chars rest1
            | None =>
                if uchar e =? 117 then
                  match rest1 with
                  | String h1 (String h2 (String h3 (String h4 rest2))) =>
                      match json_hex4 h1 h2 h3 h4 with
                      | Some cp =>
                          String.append (utf8_encode cp) <$> json_decode_chars rest2
                      | None => None
                      end
                  | _ => None
                  end
                else None
            end
        end
      else if uchar c <? 32 then None
      else String c <$> json_decode_chars rest
  end.

Definition json_string_decode (s : string) : option string :=
  match s with
  | EmptyString => None
  | String c rest => if uchar c =? 34 then json_decode_chars rest else None
  end.


(** The escape of one byte as the specification words it: a named
    two-character escape for the quotation mark, the backslash and the
    five named control characters, [\u00XX] for every other byte below
    0x20, and the byte itself otherwise. *)
Definition escape_of_byte (c : ascii) : string :=
  let n := uchar c in
  if n =? 34 then String BACKSLASH (ch DQUOTE)
  else if n =? 92 then String BACKSLASH (ch BACKSLASH)
  else if n =? 8 then String BACKSLASH "b"
  else if n =? 12 then String BACKSLASH "f"
  else if n =? 10 then String BACKSLASH "n"
  else if n =? 13 then String BACKSLASH "r"
  else if n =? 9 then String BACKSLASH "t"
  else if n <? 32 then
    String BACKSLASH
      (String "u" (String "0" (String "0"
         (String (hex_digit (n / 16)) (ch (hex_digit (n mod 16)))))))
  else ch c.

Fixpoint escape_of_bytes (s : string) : string :=
  match s with
  | EmptyString => EmptyString
  | String c rest => escape_of_byte c << escape_of_bytes rest
  end.

(** ** Integer literals *)

(** The decimal literal of an integer, and reading one back. *)
Definition decimal_literal (v : Z) : string := NilZero.string_of_int (Z.to_int v).

Definition parse_integer (s : string) : option Z :=
  Z.of_int <$> NilZero.int_of_string s.

Definition is_digit (c : ascii) : bool := (48 <=? uchar c) && (uchar c <=? 57).

Fixpoint all_digits (s : string) : bool :=
  match s with
  | EmptyString => true
  | String c rest => is_digit c && all_digits rest
  end.

(** The values of each integer category. *)
Definition integer_range (type : LogicalTypeId) : option (Z * Z) :=
  match type with
  | TINYINT => Some (- 2 ^ 7, 2 ^ 7 - 1)
  | SMALLINT => Some (- 2 ^ 15, 2 ^ 15 - 1)
  | INTEGER => Some (- 2 ^ 31, 2 ^ 31 - 1)
  | BIGINT => Some (- 2 ^ 63, 2 ^ 63 - 1)
  | UTINYINT => Some (0, 2 ^ 8 - 1)
  | USMALLINT => Some (0, 2 ^ 16 - 1)
  | UINTEGER => Some (0, 2 ^ 32 - 1)
  | UBIGINT => Some (0, 2 ^ 64 - 1)
  | _ => None
  end.

(** ** The rows of a result *)

(** The chunks a serializer gets before the end of the stream, which is
    a [nullptr] or a chunk without rows. *)
Fixpoint fetched (chunks : list DataChunk) : list DataChunk :=
  match chunks with
  | [] => []
  | chunk :: rest =>
      if (0 <? chunk_size chunk)%nat then chunk :: fetched rest else []
  end.

(** The rows of [chunks], in order, are the rows [off], [off + 1], ... of
    the random access [get], on the columns below [ncols]. *)
Fixpoint chunks_hold (ncols : nat) (chunks : list DataChunk)
    (get : nat -> nat -> Value) (off : nat) : Prop :=
  match chunks with
  | [] => True
  | chunk :: rest =>
      (forall col row : nat,
          (col < ncols)%nat -> (row < chunk_size chunk)%nat ->
          chunk_GetValue chunk col row = get col (off + row)%nat) /\
      chunks_hold ncols rest get (off + chunk_size chunk)%nat
  end.

(** A chunked result and a materialized result with the same column
    names, column types and rows in the same order. *)
Definition same_rows (q : QueryResult) (m : MaterializedQueryResult) : Prop :=
  names q = names m /\
  types q = types m /\
  RowCount m = sum_list (chunk_size <$> fetched (stream q)) /\
  chunks_hold (ColumnCount m) (fetched (stream q)) (GetValue m) 0.

(** ** Programs *)

(** [P] holds of whatever the program returns, whatever the engine
    answers. *)
Fixpoint all_rets {R : Type} (P : R -> Prop) (p : Prog R) : Prop :=
  match p with
  | Ret r => P r
  | Crash => True
  | Vis e k => forall x, all_rets P (k x)
  end.

(** The program does not abort, whatever the engine answers. *)
Fixpoint no_crash {R : Type} (p : Prog R) : Prop :=
  match p with
  | Ret _ => True
  | Crash => False
  | Vis e k => forall x, no_crash (k x)
  end.

(** ** The binding store *)

(** The store [b'] after a bind of [v] at the 1-based position [i] of the
    store [b]. *)
Definition store_after_bind (b : list Value) (i : Z) (v : Value)
    (b' : list Value) : Prop :=
  length b' = Nat.max (length b) (Z.to_nat i) /\
  b' !! (Z.to_nat i - 1)%nat = Some v /\
  (forall j : nat, (j < length b)%nat -> j <> (Z.to_nat i - 1)%nat ->
                   b' !! j = b !! j) /\
  (forall j : nat, (length b <= j)%nat -> (j < Z.to_nat i - 1)%nat ->
                   b' !! j = Some Value_null).

(** The store after growing it for the 1-based position [index] and
    writing [v] there. *)
Definition bound_store (b : list Value) (index : Z) (v : Value) : list Value :=
  <[Z.to_nat (index - 1) := v]>
    (if Z.of_nat (length b) <=? index - 1
     then resize (Z.to_nat index) Value_null b else b).

(** A bind at the 1-based position [index] of the store [b] can be
    served: the store has the position, or it can grow to it within the
    allocation limit. *)
Definition bind_fits `{Runtime} (b : list Value) (index : Z) : bool :=
  (index <=? Z.of_nat (length b)) || (index <=? alloc_limit).

(** The five bind entry points of each bridge, as one call. *)
Inductive AndroidBind : Type :=
| A_bindString (value : jstring)
| A_bindLong (value : Z)
| A_bindDouble (value : Z)
| A_bindBoolean (value : Z)
| A_bindNull.

Definition android_bind `{Runtime} (op : AndroidBind) (stmtPtr index : Z)
  : M (gmap Z Android.Object) bool :=
  match op with
  | A_bindString value => Android.bindString stmtPtr index value
  | A_bindLong value => Android.bindLong stmtPtr index value
  | A_bindDouble value => Android.bindDouble stmtPtr index value
  | A_bindBoolean value => Android.bindBoolean stmtPtr index value
  | A_bindNull => Android.bindNull stmtPtr index
  end.

Definition android_bound (op : AndroidBind) : Value :=
  match op with
  | A_bindString (Some s) => Value_VARCHAR s
  | A_bindString None => Value_null
  | A_bindLong value => Value_integer BIGINT value
  | A_bindDouble value => Value_DOUBLE value
  | A_bindBoolean value => Value_BOOLEAN (value =? 1)
  | A_bindNull => Value_null
  end.

Inductive IosBind : Type :=
| I_bind_string (value : cstring)
| I_bind_int64 (value : Z)
| I_bind_double (value : Z)
| I_bind_bool (value : bool)
| I_bind_null.

Definition ios_bind `{Runtime} (op : IosBind) (stmt index : Z)
  : M (gmap Z Ios.Object) bool :=
  match op with
  | I_bind_string value => Ios.duckdb_ios_bind_string stmt index value
  | I_bind_int64 value => Ios.duckdb_ios_bind_int64 stmt index value
  | I_bind_double value => Ios.duckdb_ios_bind_double stmt index value
  | I_bind_bool value => Ios.duckdb_ios_bind_bool stmt index value
  | I_bind_null => Ios.duckdb_ios_bind_null stmt index
  end.

Definition ios_bound (op : IosBind) : Value :=
  match op with
  | I_bind_string (Some s) => Value_VARCHAR s
  | I_bind_string None => Value_null
  | I_bind_int64 value => Value_integer BIGINT value
  | I_bind_double value => Value_DOUBLE value
  | I_bind_bool value => Value_BOOLEAN value
  | I_bind_null => Value_null
  end.

(** An operation on the store of one statement. *)
Inductive StoreOp (B : Type) : Type :=
| Op_bind (op : B) (index : Z)
| Op_clear
| Op_execute.

Arguments Op_bind {B} op index.
Arguments Op_clear {B}.
Arguments Op_execute {B}.

Definition op_index_in {B : Type} (lo hi : Z) (o : StoreOp B) : Prop :=
  match o with
  | Op_bind _ index => lo <= index <= hi
  | _ => True
  end.

Definition android_step `{Runtime} (stmtPtr : Z) (o : StoreOp AndroidBind)
  : M (gmap Z Android.Object) unit :=
  match o with
  | Op_bind op index => android_bind op stmtPtr index ;;; mret tt
  | Op_clear => Android.clearBindings stmtPtr ;;; mret tt
  | Op_execute => Android.executePrepared stmtPtr ;;; mret tt
  end.

Fixpoint android_run `{Runtime} (stmtPtr : Z) (ops : list (StoreOp AndroidBind))
  : M (gmap Z Android.Object) unit :=
  match ops with
  | [] => mret tt
  | o :: rest => android_step stmtPtr o ;;; android_run stmtPtr rest
  end.

Definition ios_step `{Runtime} (stmt : Z) (o : StoreOp IosBind)
  : M (gmap Z Ios.Object) unit :=
  match o with
  | Op_bind op index => ios_bind op stmt index ;;; mret tt
  | Op_clear => Ios.duckdb_ios_clear_bindings stmt
  | Op_execute => Ios.duckdb_ios_execute_prepared stmt None ;;; mret tt
  end.

Fixpoint ios_run `{Runtime} (stmt : Z) (ops : list (StoreOp IosBind))
  : M (gmap Z Ios.Object) unit :=
  match ops with
  | [] => mret tt
  | o :: rest => ios_step stmt o ;;; ios_run stmt rest
  end.

(** The statement at [p] is live and its store has [n] slots. *)
Definition android_store_size (h : gmap Z Android.Object) (p : Z) (n : nat)
  : Prop :=
  exists w, h !! p = Some (Android.Obj_PreparedStatementWrapper w) /\
            length (Android.bindings w) = n.

Definition ios_store_size (h : gmap Z Ios.Object) (p : Z) (n : nat) : Prop :=
  exists w, h !! p = Some (Ios.Obj_PreparedWrapper w) /\
            length (Ios.bindings w) = n.

(** ** What a caller observes of a call *)

(** The value an entry point returns: nothing for a [void] one, a
    string (a [jstring], or a [char*] that may be null), a handle, or a
    boolean. *)
Inductive Returned : Type :=
| Returns_nothing
| Returns_string (s : option string)
| Returns_handle (p : Z)
| Returns_bool (b : bool).

(** ... and the [error_out] argument after the call, for the entry
    points that have one. *)
Record Reply := {
  returned : Returned;
  error_slot : ErrorOut
}.

(** The entry points of the Android bridge that take a handle. *)
Inductive AndroidCall : Type :=
| Call_closeDatabase
| Call_connect
| Call_disconnect
| Call_query (sql : jstring)
| Call_execute (sql : jstring)
| Call_prepare (sql : jstring)
| Call_destroyPrepared
| Call_bind (op : AndroidBind) (index : Z)
| Call_executePrepared
| Call_clearBindings.

Definition android_call `{Runtime} (c : AndroidCall) (handle : Z)
  : M (gmap Z Android.Object) Reply :=
  match c with
  | Call_closeDatabase =>
      Android.closeDatabase handle ;;;
      mret {| returned := Returns_nothing; error_slot := None |}
  | Call_connect =>
      p <- Android.connect handle ;;
      mret {| returned := Returns_handle p; error_slot := None |}
  | Call_disconnect =>
      Android.disconnect handle ;;;
      mret {| returned := Returns_nothing; error_slot := None |}
  | Call_query sql =>
      s <- Android.query handle sql ;;
      mret {| returned := Returns_string s; error_slot := None |}
  | Call_execute sql =>
      s <- Android.execute handle sql ;;
      mret {| returned := Returns_string s; error_slot := None |}
  | Call_prepare sql =>
      p <- Android.prepare handle sql ;;
      mret {| returned := Returns_handle p; error_slot := None |}
  | Call_destroyPrepared =>
      Android.destroyPrepared handle ;;;
      mret {| returned := Returns_nothing; error_slot := None |}
  | Call_bind op index =>
      b <- android_bind op handle index ;;
      mret {| returned := Returns_bool b; error_slot := None |}
  | Call_executePrepared =>
      s <- Android.executePrepared handle ;;
      mret {| returned := Returns_string s; error_slot := None |}
  | Call_clearBindings =>
      b <- Android.clearBindings handle ;;
      mret {| returned := Returns_bool b; error_slot := None |}
  end.

Definition android_is_void (c : AndroidCall) : bool :=
  match c with
  | Call_closeDatabase | Call_disconnect | Call_destroyPrepared => true
  | _ => false
  end.

(** The entry points of the iOS bridge that take a handle. *)
Inductive IosCall : Type :=
| ICall_close_database
| ICall_connect (error_out : ErrorOut)
| ICall_disconnect
| ICall_query (sql : cstring) (error_out : ErrorOut)
| ICall_execute (sql : cstring) (rows_changed_out : option Z)
    (error_out : ErrorOut)
| ICall_prepare (sql : cstring) (error_out : ErrorOut)
| ICall_destroy_prepared
| ICall_bind (op : IosBind) (index : Z)
| ICall_clear_bindings
| ICall_execute_prepared (error_out : ErrorOut)
| ICall_has_spatial_extension.

Definition ios_call `{Runtime} (c : IosCall) (handle : Z)
  : M (gmap Z Ios.Object) Reply :=
  match c with
  | ICall_close_database =>
      Ios.duckdb_ios_close_database handle ;;;
      mret {| returned := Returns_nothing; error_slot := None |}
  | ICall_connect error_out =>
      r <- Ios.duckdb_ios_connect handle error_out ;;
      mret {| returned := Returns_handle r.1; error_slot := r.2 |}
  | ICall_disconnect =>
      Ios.duckdb_ios_disconnect handle ;;;
      mret {| returned := Returns_nothing; error_slot := None |}
  | ICall_query sql error_out =>
      r <- Ios.duckdb_ios_query handle sql error_out ;;
      mret {| returned := Returns_string r.1; error_slot := r.2 |}
  | ICall_execute sql rows_changed_out error_out =>
      r <- Ios.duckdb_ios_execute handle sql rows_changed_out error_out ;;
      mret {| returned := Returns_bool r.1.1; error_slot := r.2 |}
  | ICall_prepare sql error_out =>
      r <- Ios.duckdb_ios_prepare handle sql error_out ;;
      mret {| returned := Returns_handle r.1; error_slot := r.2 |}
  | ICall_destroy_prepared =>
      Ios.duckdb_ios_destroy_prepared handle ;;;
      mret {| returned := Returns_nothing; error_slot := None |}
  | ICall_bind op index =>
      b <- ios_bind op handle index ;;
      mret {| returned := Returns_bool b; error_slot := None |}
  | ICall_clear_bindings =>
      Ios.duckdb_ios_clear_bindings handle ;;;
      mret {| returned := Returns_nothing; error_slot := None |}
  | ICall_execute_prepared error_out =>
      r <- Ios.duckdb_ios_execute_prepared handle error_out ;;
      mret {| returned := Returns_string r.1; error_slot := r.2 |}
  | ICall_has_spatial_extension =>
      b <- Ios.duckdb_ios_has_spatial_extension handle ;;
      mret {| returned := Returns_bool b; error_slot := None |}
  end.

Definition ios_is_void (c : IosCall) : bool :=
  match c with
  | ICall_close_database | ICall_disconnect | ICall_destroy_prepared
  | ICall_clear_bindings => true
  | _ => false
  end.

(** The [error_out] slot a call was given, when it was given one. *)
Definition ios_error_out (c : IosCall) : ErrorOut :=
  match c with
  | ICall_connect error_out | ICall_query _ error_out
  | ICall_execute _ _ error_out | ICall_prepare _ error_out
  | ICall_execute_prepared error_out => error_out
  | _ => None
  end.

(** The error sentinels: a null string, a string that starts with
    [ERROR:], the handle 0, [false]. *)
Definition is_failure_sentinel (r : Returned) : bool :=
  match r with
  | Returns_nothing => false
  | Returns_string None => true
  | Returns_string (Some s) => String.prefix "ERROR:" s
  | Returns_handle p => p =? 0
  | Returns_bool b => negb b
  end.

Definition wrote_error (e : ErrorOut) : bool :=
  match e with Some (Some _) => true | _ => false end.

(** The call reports a failure: it returns its error sentinel or writes
    an error message. *)
Definition reports_failure (r : Reply) : bool :=
  is_failure_sentinel (returned r) || wrote_error (error_slot r).

(** Every call with the null handle returns at once, with native memory
    as it was, and reports a failure. *)
Definition null_handle_reports_failure {RT : Runtime} : Prop :=
  (forall (c : AndroidCall) (h : gmap Z Android.Object),
      exists reply,
        android_call c 0 h = Ret (reply, h) /\ reports_failure reply = true) /\
  (forall (c : IosCall) (h : gmap Z Ios.Object),
      exists reply,
        ios_call c 0 h = Ret (reply, h) /\ reports_failure reply = true).

(** A text without NUL bytes. *)
Fixpoint no_NUL (s : string) : bool :=
  match s with
  | EmptyString => true
  | String c rest => negb (uchar c =? 0) && no_NUL rest
  end.

Definition starts_with (c : ascii) (s : string) : Prop :=
  match s with
  | EmptyString => False
  | String c' _ => c' = c
  end.

(** A text written with apostrophes for its quotation marks. *)
Fixpoint with_quotes (s : string) : string :=
  match s with
  | EmptyString => EmptyString
  | String c rest =>
      String (if uchar c =? 39 then DQUOTE else c) (with_quotes rest)
  end.

(** ** Sample objects, for the instances of the statements below *)

Definition sample_runtime : Runtime :=
  {| char_is_signed := true;
     put_float := fun _ => "0";
     put_double := fun _ => "0";
     alloc_limit := 1000000 |}.

(** The rows of [SELECT a, b FROM t ORDER BY a] over [(1,'x'), (2,NULL)]. *)
Definition sample_table : list (list Value) :=
  [ [Value_integer INTEGER 1; Value_VARCHAR "x"];
    [Value_integer INTEGER 2; Value_null] ].

Definition table_value (t : list (list Value)) (col row : nat) : Value :=
  (t !!! row) !!! col.

Definition table_chunk (t : list (list Value)) : DataChunk :=
  {| chunk_size := length t; chunk_GetValue := table_value t |}.

(** The rows in two chunks of one row each, then the end of the stream. *)
Definition sample_chunked : QueryResult :=
  {| error := None;
     names := ["a"; "b"];
     types := [INTEGER; VARCHAR];
     stream := [table_chunk (take 1 sample_table);
                table_chunk (drop 1 sample_table);
                table_chunk []] |}.

Definition sample_materialized : MaterializedQueryResult :=
  {| base := {| error := None;
                names := ["a"; "b"];
                types := [INTEGER; VARCHAR];
                stream := [table_chunk sample_table] |};
     RowCount := 2;
     GetValue := table_value sample_table |}.

Definition sample_failed : MaterializedQueryResult :=
  {| base := {| error := Some "Parser Error: syntax error at end of input";
                names := []; types := []; stream := [] |};
     RowCount := 0;
     GetValue := fun _ _ => Value_null |}.

(** A statement with the two parameters [$1] and [$2]. *)
Definition sample_stmt : PreparedStatement :=
  {| stmt_id := 1;
     stmt_error := None;
     named_param_map := <["1" := 0%N]> (<["2" := 1%N]> ∅) |}.

Definition sample_android_heap : gmap Z Android.Object :=
  <[16 := Android.Obj_Connection {| conn_id := 1 |}]>
    (<[32 := Android.Obj_PreparedStatementWrapper
               {| Android.stmt := sample_stmt;
                  Android.bindings := [Value_null; Value_null] |}]> ∅).

Definition sample_ios_heap : gmap Z Ios.Object :=
  <[16 := Ios.Obj_ConnectionWrapper
            {| Ios.conn := Some {| conn_id := 1 |}; Ios.db_wrapper := 8 |}]>
    (<[32 := Ios.Obj_PreparedWrapper
               {| Ios.stmt := sample_stmt;
                  Ios.bindings := [Value_null; Value_null] |}]> ∅).

Definition sample_android_wrapper : Android.PreparedStatementWrapper :=
  {| Android.stmt := sample_stmt; Android.bindings := [Value_null; Value_null] |}.

Definition sample_ios_wrapper : Ios.PreparedWrapper :=
  {| Ios.stmt := sample_stmt; Ios.bindings := [Value_null; Value_null] |}.

Definition sample_ops_android : list (StoreOp AndroidBind) :=
  [Op_bind (A_bindLong 42) 5; Op_clear; Op_execute; Op_bind A_bindNull 0].

Definition sample_ops_ios : list (StoreOp IosBind) :=
  [Op_bind (I_bind_int64 42) 5; Op_clear; Op_execute; Op_bind I_bind_null 0].

Definition sample_heap_after_bind : gmap Z Android.Object :=
  <[32 := Android.Obj_PreparedStatementWrapper
            {| Android.stmt := sample_stmt;
               Android.bindings :=
                 [Value_null; Value_null; Value_null; Value_null;
                  Value_integer BIGINT 42] |}]> sample_android_heap.

(** ** Texts *)

(** Every byte of [s] satisfies [P]. *)
Fixpoint all_bytes (P : ascii -> bool) (s : string) : bool :=
  match s with
  | EmptyString => true
  | String c rest => P c && all_bytes P rest
  end.

(** A byte that is not a control byte. *)
Definition not_control (c : ascii) : bool := 32 <=? uchar c.

(** The texts of [l] with [sep] between them. *)
Fixpoint join (sep : string) (l : list string) : string :=
  match l with
  | [] => EmptyString
  | x :: rest =>
      match rest with
      | [] => x
      | _ :: _ => x << sep << join sep rest
      end
  end.

(** ** A result as an array of records *)

(** The types whose values are written as string literals: all but the
    boolean, the integer and the floating-point types. *)
Definition written_as_text (type : LogicalTypeId) : bool :=
  match type with
  | BOOLEAN
  | TINYINT | SMALLINT | INTEGER | BIGINT
  | UTINYINT | USMALLINT | UINTEGER | UBIGINT
  | FLOAT | DOUBLE => false
  | _ => true
  end.

Section Records.
Context `{Runtime}.

(** One [name:value] pair: the column's name as a string literal, a
    colon and what the value encoder writes for the value. *)
Definition pair_text (column_names : list string)
    (column_types : list LogicalTypeId) (get : nat -> Value) (col : nat)
  : string :=
  Android.escapeJsonString (column_names !!! col) << ":"
    << Android.put_value "" (column_types !!! col) (get col).

(** One record: the pairs of the columns [0 .. ncols - 1] in this order,
    with commas between them, in braces. *)
Definition record_text (column_names : list string)
    (column_types : list LogicalTypeId) (ncols : nat) (get : nat -> Value)
  : string :=
  "{" << join "," (pair_text column_names column_types get <$> seq 0 ncols)
      << "}".

(** The array of the records of [rows], in this order, with commas
    between them, in brackets; [array_open] is the array before its
    closing bracket. *)
Definition array_open (column_names : list string)
    (column_types : list LogicalTypeId) (ncols : nat)
    (rows : list (nat -> Value)) : string :=
  "[" << join "," (record_text column_names column_types ncols <$> rows).

Definition array_text (column_names : list string)
    (column_types : list LogicalTypeId) (ncols : nat)
    (rows : list (nat -> Value)) : string :=
  array_open column_names column_types ncols rows << "]".
End Records.

(** The rows of a chunk, and the rows a serializer fetches from a
    stream, each as a function of the column. *)
Definition chunk_rows (chunk : DataChunk) : list (nat -> Value) :=
  (fun row col => chunk_GetValue chunk col row) <$> seq 0 (chunk_size chunk).

Definition stream_rows (chunks : list DataChunk) : list (nat -> Value) :=
  concat (chunk_rows <$> fetched chunks).

Definition materialized_rows (m : MaterializedQueryResult)
  : list (nat -> Value) :=
  (fun row col => GetValue m col row) <$> seq 0 (RowCount m).

(** The result [q] with another stream of chunks. *)
Definition with_stream (q : QueryResult) (chunks : list DataChunk)
  : QueryResult :=
  {| error := error q; names := names q; types := types q; stream := chunks |}.


(** ** Handles *)

(** The engine call an open makes for a path: none for a null or an
    empty path, which opens a database in memory. *)
Definition open_path (path : option string) : option string :=
  match path with
  | Some s => if String.eqb s "" then None else Some s
  | None => None
  end.

(** ** More sample objects *)

Definition sample_db : DuckDB := {| db_id := 1 |}.

Definition sample_conn : Connection := {| conn_id := 1 |}.

Definition sample_android_db : Android.DatabaseWrapper :=
  {| Android.cpp_db := Some sample_db; Android.c_db := Some sample_db |}.

Definition sample_ios_db : Ios.DatabaseWrapper :=
  {| Ios.db := Some sample_db; Ios.spatial_loaded := true |}.

(** The sample memories with the database of the connection at 8. *)
Definition sample_android_db_heap : gmap Z Android.Object :=
  <[8 := Android.Obj_DatabaseWrapper sample_android_db]> sample_android_heap.

Definition sample_ios_db_heap : gmap Z Ios.Object :=
  <[8 := Ios.Obj_DatabaseWrapper sample_ios_db]> sample_ios_heap.

(** ** Sessions *)

(** The program returns and [Q] holds of what it returns, whatever the
    engine answers. *)
Definition always {R : Type} (Q : R -> Prop) (p : Prog R) : Prop :=
  no_crash p /\ all_rets Q p.

(** The handle [p] is null and native memory is [h], or [p] is the
    handle of an object of the kind [kind] that was added to [h] and gave
    [h']. *)
Definition handle_to {Object : Type} (kind : Object -> Prop) (p : Z)
    (h h' : gmap Z Object) : Prop :=
  (p = 0 /\ h' = h) \/
  (p <> 0 /\ h !! p = None /\ exists o, kind o /\ h' = <[p := o]> h).

Definition android_database (o : Android.Object) : Prop :=
  exists db c,
    o = Android.Obj_DatabaseWrapper
          {| Android.cpp_db := Some db; Android.c_db := c |}.

Definition android_connection (o : Android.Object) : Prop :=
  exists conn, o = Android.Obj_Connection conn.

Definition android_statement (o : Android.Object) : Prop :=
  exists w, o = Android.Obj_PreparedStatementWrapper w.

Definition ios_database (o : Ios.Object) : Prop :=
  exists d l,
    o = Ios.Obj_DatabaseWrapper {| Ios.db := Some d; Ios.spatial_loaded := l |}.

Definition ios_connection (o : Ios.Object) : Prop :=
  exists c d,
    o = Ios.Obj_ConnectionWrapper {| Ios.conn := Some c; Ios.db_wrapper := d |}.

Definition ios_statement (o : Ios.Object) : Prop :=
  exists w, o = Ios.Obj_PreparedWrapper w.

(** What a session has in hand when it ends. *)
Record Session := {
  session_db : Z;
  session_conn : Z;
  session_stmt : Z;
  session_result : option string
}.

(** A session as the plugins run one: open, connect, prepare, execute,
    and then destroy, disconnect and close, each call with the handle
    the call before it returned and without a look at it. *)
Definition android_session `{Runtime} (path sql : jstring)
  : M (gmap Z Android.Object) Session :=
  db <- Android.openDatabase path ;;
  conn <- Android.connect db ;;
  stmt <- Android.prepare conn sql ;;
  r <- Android.executePrepared stmt ;;
  Android.destroyPrepared stmt ;;;
  Android.disconnect conn ;;;
  Android.closeDatabase db ;;;
  mret {| session_db := db; session_conn := conn; session_stmt := stmt;
          session_result := r |}.

Definition ios_session `{Runtime} (path sql : cstring)
  : M (gmap Z Ios.Object) Session :=
  db <- Ios.duckdb_ios_open_database path None ;;
  conn <- Ios.duckdb_ios_connect db.1 None ;;
  stmt <- Ios.duckdb_ios_prepare conn.1 sql None ;;
  r <- Ios.duckdb_ios_execute_prepared stmt.1 None ;;
  Ios.duckdb_ios_destroy_prepared stmt.1 ;;;
  Ios.duckdb_ios_disconnect conn.1 ;;;
  Ios.duckdb_ios_close_database db.1 ;;;
  mret {| session_db := db.1; session_conn := conn.1; session_stmt := stmt.1;
          session_result := r.1 |}.

(** A result with the two columns of the sample table and no row. *)
Definition sample_no_rows : MaterializedQueryResult :=
  {| base := {| error := None;
                names := ["a"; "b"];
                types := [INTEGER; VARCHAR];
                stream := [] |};
     RowCount := 0;
     GetValue := fun _ _ => Value_null |}.

(** * Properties *)

(** ** The text-literal encoder *)

Lemma append_assoc (a b c : string) : a << b << c = a << (b << c).
Proof.
  induction a as [|x a IH]; [reflexivity|].
  change (String x (a << b << c) = String x (a << (b << c))). now f_equal.
Qed.

Lemma append_nil_r (a : string) : a << "" = a.
Proof.
  induction a as [|x a IH]; [reflexivity|].
  change (String x (a << "") = String x a). now f_equal.
Qed.

(** Every byte, under either signedness of [char]. *)
Ltac each_byte c :=
  destruct c as [[] [] [] [] [] [] [] []].

Lemma Android_escape_body_append `{Runtime} (c : ascii) (ss : string) :
  Android.escape_body c ss = ss << Android.escape_body c "".
Proof.
  unfold Android.escape_body. generalize (char_to_int c). intros v.
  repeat match goal with
         | |- context [match ?x with _ => _ end] => destruct x
         end; cbn [String.append]; rewrite ?append_assoc; reflexivity.
Qed.

Lemma Ios_escape_body_append `{Runtime} (c : ascii) (ss : string) :
  Ios.escape_body c ss = ss << Ios.escape_body c "".
Proof.
  unfold Ios.escape_body. generalize (char_to_int c). intros v.
  repeat match goal with
         | |- context [match ?x with _ => _ end] => destruct x
         end; cbn [String.append]; rewrite ?append_assoc; reflexivity.
Qed.

Lemma Android_escape_body_spec {RT : Runtime} (c : ascii) (ss : string) :
  Android.escape_body c ss = ss << escape_of_byte c.
Proof.
  rewrite Android_escape_body_append. f_equal.
  destruct RT as [sgn pf pd].
  destruct sgn; each_byte c; vm_compute; reflexivity.
Qed.

Lemma Ios_escape_body_spec {RT : Runtime} (c : ascii) (ss : string) :
  Ios.escape_body c ss = ss << escape_of_byte c.
Proof.
  rewrite Ios_escape_body_append. f_equal.
  destruct RT as [sgn pf pd].
  destruct sgn; each_byte c; vm_compute; reflexivity.
Qed.

Lemma Android_escape_loop_spec `{Runtime} (str ss : string) :
  Android.escape_loop str ss = ss << escape_of_bytes str.
Proof.
  revert ss. induction str as [|c str IH]; intros ss; simpl.
  - now rewrite append_nil_r.
  - now rewrite IH, Android_escape_body_spec, append_assoc.
Qed.

Lemma Ios_escape_loop_spec `{Runtime} (str ss : string) :
  Ios.escape_loop str ss = ss << escape_of_bytes str.
Proof.
  revert ss. induction str as [|c str IH]; intros ss; simpl.
  - now rewrite append_nil_r.
  - now rewrite IH, Ios_escape_body_spec, append_assoc.
Qed.

Lemma Android_escapeJsonString_spec `{Runtime} (str : string) :
  Android.escapeJsonString str = String DQUOTE (escape_of_bytes str << ch DQUOTE).
Proof.
  unfold Android.escapeJsonString. now rewrite Android_escape_loop_spec.
Qed.

Lemma Ios_escapeJsonString_spec `{Runtime} (str : string) :
  Ios.escapeJsonString str = String DQUOTE (escape_of_bytes str << ch DQUOTE).
Proof.
  unfold Ios.escapeJsonString. now rewrite Ios_escape_loop_spec.
Qed.

Lemma Ios_escapeJsonString_Android `{Runtime} (str : string) :
  Ios.escapeJsonString str = Android.escapeJsonString str.
Proof.
  now rewrite Ios_escapeJsonString_spec, Android_escapeJsonString_spec.
Qed.

Lemma json_decode_escape_of_byte (c : ascii) (tail : string) :
  json_decode_chars (escape_of_byte c << tail)
  = String c <$> json_decode_chars tail.
Proof. each_byte c; reflexivity. Qed.

Lemma json_decode_escape_of_bytes (str : string) :
  json_decode_chars (escape_of_bytes str << ch DQUOTE) = Some str.
Proof.
  induction str as [|c str IH]; simpl.
  - reflexivity.
  - rewrite append_assoc, json_decode_escape_of_byte, IH. reflexivity.
Qed.

(** C3.  On both platforms [escapeJsonString] writes a quotation mark,
    the escape of every byte of its input in order (named escapes for the
    quotation mark, the backslash and the five named control characters,
    [\u00XX] for the other bytes below 0x20, every other byte unchanged,
    those from 0x80 on included) and a quotation mark; decoding that
    literal as a JSON string gives back the input, byte for byte. *)
Theorem escapeJsonString_roundtrip `{Runtime} (str : string) :
  Android.escapeJsonString str
    = String DQUOTE (escape_of_bytes str << ch DQUOTE) /\
  Ios.escapeJsonString str
    = String DQUOTE (escape_of_bytes str << ch DQUOTE) /\
  json_string_decode (Android.escapeJsonString str) = Some str /\
  json_string_decode (Ios.escapeJsonString str) = Some str.
Proof.
  rewrite Ios_escapeJsonString_spec, Android_escapeJsonString_spec.
  repeat split; apply json_decode_escape_of_bytes.
Qed.

(** ** The value encoder on integer columns *)

Lemma to_int64_id (v : Z) : - 2 ^ 63 <= v <= 2 ^ 63 - 1 -> to_int64 v = v.
Proof. intros Hv. unfold to_int64. rewrite Z.mod_small; lia. Qed.

Lemma to_uint64_id (v : Z) : 0 <= v <= 2 ^ 64 - 1 -> to_uint64 v = v.
Proof. intros Hv. unfold to_uint64. rewrite Z.mod_small; lia. Qed.

Lemma put_uint64_literal (v : Z) : 0 <= v -> put_uint64 v = decimal_literal v.
Proof.
  intros Hv. unfold put_uint64, decimal_literal.
  destruct v as [|p|p]; [reflexivity | reflexivity | lia].
Qed.

Lemma parse_decimal_literal (v : Z) : parse_integer (decimal_literal v) = Some v.
Proof.
  unfold parse_integer, decimal_literal.
  rewrite NilZero.isi.
  - simpl. now rewrite DecimalZ.of_to.
  - destruct v; simpl; try discriminate.
    intros [= E]. now apply DecimalPos.Unsigned.to_uint_nonnil in E.
  - destruct v; simpl; try discriminate.
    intros [= E]. now apply DecimalPos.Unsigned.to_uint_nonnil in E.
Qed.

Lemma all_digits_string_of_uint (d : Decimal.uint) :
  all_digits (NilEmpty.string_of_uint d) = true.
Proof. induction d; simpl; auto. Qed.

Lemma all_digits_NilZero (d : Decimal.uint) :
  all_digits (NilZero.string_of_uint d) = true.
Proof. destruct d; try reflexivity; apply (all_digits_string_of_uint). Qed.

Lemma all_digits_decimal_literal (v : Z) :
  all_digits (decimal_literal v) = (0 <=? v).
Proof.
  unfold decimal_literal. destruct v as [|p|p]; simpl Z.to_int.
  - reflexivity.
  - apply all_digits_NilZero.
  - reflexivity.
Qed.

Lemma Android_put_value_integer {RT : Runtime} (type : LogicalTypeId)
    (lo hi v : Z) (json : string) :
  integer_range type = Some (lo, hi) -> lo <= v <= hi ->
  Android.put_value json type (Value_integer type v) = json << decimal_literal v.
Proof.
  intros Hr Hv. unfold Android.put_value. simpl IsNull. cbv iota.
  destruct type; try discriminate Hr; injection Hr as <- <-;
    simpl GetValue_int64; simpl GetValue_uint64;
    rewrite ?to_int64_id, ?to_uint64_id, ?put_uint64_literal by lia;
    reflexivity.
Qed.

Lemma Ios_put_value_integer {RT : Runtime} (type : LogicalTypeId)
    (lo hi v : Z) (json : string) :
  integer_range type = Some (lo, hi) -> lo <= v <= hi ->
  Ios.put_value json type (Value_integer type v) = json << decimal_literal v.
Proof.
  intros Hr Hv. unfold Ios.put_value. simpl IsNull. cbv iota.
  destruct type; try discriminate Hr; injection Hr as <- <-;
    simpl GetValue_int64; simpl GetValue_uint64;
    rewrite ?to_int64_id, ?to_uint64_id, ?put_uint64_literal by lia;
    reflexivity.
Qed.

(** A null is written as [null], whatever the type of its column. *)
Lemma null_renders_null {RT : Runtime} (type : LogicalTypeId) (json : string) :
  Android.put_value json type Value_null = json << "null" /\
  Ios.put_value json type Value_null = json << "null".
Proof. split; reflexivity. Qed.

(** C7.  A non-null value [v] of an integer column, signed or unsigned
    and of any of the four widths, is written on both platforms as the
    decimal literal of [v]: reading the literal back gives [v], and for
    [v >= 0], up to [2^64 - 1], the literal has digits only. *)
Theorem integer_values_render_exactly {RT : Runtime} (type : LogicalTypeId)
    (lo hi v : Z) (json : string) :
  integer_range type = Some (lo, hi) -> lo <= v <= hi ->
  Android.put_value json type (Value_integer type v) = json << decimal_literal v /\
  Ios.put_value json type (Value_integer type v) = json << decimal_literal v /\
  parse_integer (decimal_literal v) = Some v /\
  all_digits (decimal_literal v) = (0 <=? v).
Proof.
  intros Hr Hv. repeat split.
  - now apply Android_put_value_integer with lo hi.
  - now apply Ios_put_value_integer with lo hi.
  - apply parse_decimal_literal.
  - apply all_digits_decimal_literal.
Qed.

(** ** The two serializers *)

Lemma for_loop_S {S : Type} (n : nat) (body : nat -> S -> S) (s : S) :
  for_loop (Datatypes.S n) body s = body n (for_loop n body s).
Proof.
  unfold for_loop. rewrite seq_S, fold_left_app. reflexivity.
Qed.

Lemma for_loop_ext {S : Type} (n : nat) (f g : nat -> S -> S) (s : S) :
  (forall i s', (i < n)%nat -> f i s' = g i s') ->
  for_loop n f s = for_loop n g s.
Proof.
  induction n as [|n IH]; intros Hfg; [reflexivity|].
  rewrite !for_loop_S, IH by (intros; apply Hfg; lia).
  apply Hfg. lia.
Qed.

(** On both platforms the column loop writes the same text. *)
Lemma Ios_put_value_Android {RT : Runtime} json type val :
  Ios.put_value json type val = Android.put_value json type val.
Proof.
  unfold Ios.put_value, Android.put_value.
  now rewrite Ios_escapeJsonString_Android.
Qed.

Lemma Ios_column_body_Android {RT : Runtime} ns ts get col json :
  Ios.column_body ns ts get col json = Android.column_body ns ts get col json.
Proof.
  unfold Ios.column_body, Android.column_body.
  now rewrite Ios_put_value_Android, Ios_escapeJsonString_Android.
Qed.

Lemma Ios_chunk_row_body_Android {RT : Runtime} result chunk row st :
  Ios.chunk_row_body result chunk row st
  = Android.chunk_row_body result chunk row st.
Proof.
  unfold Ios.chunk_row_body, Android.chunk_row_body. destruct st as [json b].
  do 2 f_equal. apply for_loop_ext. intros. apply Ios_column_body_Android.
Qed.

Lemma Ios_fetch_loop_Android {RT : Runtime} result chunks st :
  Ios.fetch_loop result chunks st = Android.fetch_loop result chunks st.
Proof.
  revert st. induction chunks as [|c chunks IH]; intros st; simpl.
  - reflexivity.
  - destruct (0 <? chunk_size c)%nat; [|reflexivity].
    rewrite IH. f_equal. apply for_loop_ext.
    intros. apply Ios_chunk_row_body_Android.
Qed.

Lemma Ios_resultToJson_Android {RT : Runtime} (result : QueryResult) :
  Ios.resultToJson result = Android.queryResultToJson result.
Proof.
  unfold Ios.resultToJson, Android.queryResultToJson.
  now rewrite Ios_fetch_loop_Android.
Qed.

(** The loop stops at the end of the stream. *)
Lemma Android_fetch_loop_fetched {RT : Runtime} result chunks st :
  Android.fetch_loop result chunks st
  = Android.fetch_loop result (fetched chunks) st.
Proof.
  revert st. induction chunks as [|c chunks IH]; intros st; simpl.
  - reflexivity.
  - destruct (0 <? chunk_size c)%nat eqn:E; simpl; [|reflexivity].
    rewrite E. apply IH.
Qed.

Lemma fetched_nonempty (chunks : list DataChunk) :
  Forall (fun c => (0 < chunk_size c)%nat) (fetched chunks).
Proof.
  induction chunks as [|c chunks IH]; simpl; [constructor|].
  destruct (0 <? chunk_size c)%nat eqn:E; [|constructor].
  constructor; [now apply Nat.ltb_lt | exact IH].
Qed.

(** One chunk: its rows are the rows [off ..] of the materialized
    result, and the streaming loop leaves the text the random-access loop
    leaves after the same rows. *)
Lemma Android_chunk_rows {RT : Runtime} (q : QueryResult)
    (m : MaterializedQueryResult) (c : DataChunk) (off k : nat) :
  names q = names m -> types q = types m ->
  (forall col row, (col < ColumnCount m)%nat -> (row < chunk_size c)%nat ->
                   chunk_GetValue c col row = GetValue m col (off + row)%nat) ->
  (k <= chunk_size c)%nat ->
  for_loop k (Android.chunk_row_body q c)
    (for_loop off (Android.row_body m) ("" << "["), (off =? 0)%nat)
  = (for_loop (off + k) (Android.row_body m) ("" << "["), (off + k =? 0)%nat).
Proof.
  intros Hn Ht Hc. induction k as [|k IH]; intros Hk.
  - now rewrite Nat.add_0_r.
  - rewrite for_loop_S, IH by lia.
    rewrite Nat.add_succ_r, for_loop_S.
    unfold Android.chunk_row_body, Android.row_body.
    unfold ColumnCount. rewrite Hn, Ht.
    replace (negb (off + k =? 0)%nat) with (0 <? off + k)%nat
      by (destruct (off + k)%nat; reflexivity).
    f_equal. f_equal. apply for_loop_ext. intros col s' Hcol.
    unfold Android.column_body. rewrite Hc; [reflexivity | exact Hcol | lia].
Qed.

Lemma Android_fetch_loop_rows {RT : Runtime} (q : QueryResult)
    (m : MaterializedQueryResult) (chunks : list DataChunk) (off : nat) :
  names q = names m -> types q = types m ->
  Forall (fun c => (0 < chunk_size c)%nat) chunks ->
  chunks_hold (ColumnCount m) chunks (GetValue m) off ->
  fst (Android.fetch_loop q chunks
         (for_loop off (Android.row_body m) ("" << "["), (off =? 0)%nat))
  = for_loop (off + sum_list (chunk_size <$> chunks)) (Android.row_body m)
      ("" << "[").
Proof.
  intros Hn Ht Hne. revert off.
  induction Hne as [|c chunks Hc Hne IH]; intros off Hh; simpl.
  - now rewrite Nat.add_0_r.
  - destruct Hh as [Hrows Hrest].
    apply Nat.ltb_lt in Hc as ->.
    rewrite (Android_chunk_rows q m c off (chunk_size c));
      [| assumption | assumption | assumption | lia].
    rewrite IH by exact Hrest. f_equal. symmetry. apply Nat.add_assoc.
Qed.

Lemma Android_serializers_agree {RT : Runtime} (q : QueryResult)
    (m : MaterializedQueryResult) :
  same_rows q m -> Android.queryResultToJson q = Android.resultToJson m.
Proof.
  intros (Hn & Ht & Hcount & Hh).
  unfold Android.queryResultToJson, Android.resultToJson.
  rewrite Android_fetch_loop_fetched.
  assert (E : fst (Android.fetch_loop q (fetched (stream q)) ("" << "[", true))
              = for_loop (RowCount m) (Android.row_body m) ("" << "[")).
  { rewrite Hcount.
    exact (Android_fetch_loop_rows q m (fetched (stream q)) 0 Hn Ht
             (fetched_nonempty _) Hh). }
  destruct (Android.fetch_loop q (fetched (stream q)) ("" << "[", true))
    as [json b]. simpl in E. now rewrite E.
Qed.

(** ** The result as an array of records *)

Lemma join_snoc (sep : string) (l : list string) (x : string) :
  join sep (l ++ [x])
  = match l with [] => x | _ :: _ => join sep l << sep << x end.
Proof.
  induction l as [|y l IH]; [reflexivity|].
  destruct l as [|z l]; [reflexivity|].
  change (y << sep << join sep ((z :: l) ++ [x])
          = y << sep << join sep (z :: l) << sep << x).
  rewrite IH, !append_assoc. reflexivity.
Qed.

(** A loop that writes a comma before every item but the first. *)
Lemma comma_loop (f : nat -> string) (body : nat -> string -> string)
    (n : nat) (s : string) :
  (forall i s', body i s' = (if (0 <? i)%nat then s' << "," else s') << f i) ->
  for_loop n body s = s << join "," (f <$> seq 0 n).
Proof.
  intros Hbody. induction n as [|n IH].
  - symmetry. apply append_nil_r.
  - rewrite for_loop_S, IH, Hbody, seq_S, fmap_app.
    change (f <$> [(0 + n)%nat]) with [f n]. rewrite join_snoc.
    destruct n as [|n]; [now rewrite append_nil_r|].
    change (0 <? S n)%nat with true. cbv iota.
    change (f <$> seq 0 (S n)) with (f 0%nat :: (f <$> seq 1 n)).
    rewrite !append_assoc. reflexivity.
Qed.

Lemma Android_put_value_append {RT : Runtime} json type val :
  Android.put_value json type val = json << Android.put_value "" type val.
Proof.
  unfold Android.put_value. destruct (IsNull val); [reflexivity|].
  destruct type; reflexivity.
Qed.

Lemma Android_column_body_pair {RT : Runtime} ns ts get col json :
  Android.column_body ns ts get col json
  = (if (0 <? col)%nat then json << "," else json) << pair_text ns ts get col.
Proof.
  unfold Android.column_body, pair_text.
  rewrite Android_put_value_append, !append_assoc. reflexivity.
Qed.

Lemma Android_columns_record {RT : Runtime} ns ts ncols get json :
  for_loop ncols (Android.column_body ns ts get) (json << "{") << "}"
  = json << record_text ns ts ncols get.
Proof.
  rewrite (comma_loop (pair_text ns ts get)) by apply Android_column_body_pair.
  unfold record_text. rewrite !append_assoc. reflexivity.
Qed.

Lemma Android_resultToJson_records {RT : Runtime}
    (m : MaterializedQueryResult) :
  Android.resultToJson m
  = array_text (names m) (types m) (ColumnCount m) (materialized_rows m).
Proof.
  unfold Android.resultToJson, array_text, array_open, materialized_rows.
  rewrite (comma_loop
             (fun row => record_text (names m) (types m) (ColumnCount m)
                           (fun col => GetValue m col row))).
  - rewrite <- list_fmap_compose. reflexivity.
  - intros row json. unfold Android.row_body.
    destruct (0 <? row)%nat; apply Android_columns_record.
Qed.

(** The streaming loop, with the records written so far. *)
Lemma Android_chunk_records {RT : Runtime} (q : QueryResult) (c : DataChunk)
    (done : list (nat -> Value)) (k : nat) :
  for_loop k (Android.chunk_row_body q c)
    (array_open (names q) (types q) (ColumnCount q) done,
     match done with [] => true | _ => false end)
  = (array_open (names q) (types q) (ColumnCount q)
       (done ++ ((fun row col => chunk_GetValue c col row) <$> seq 0 k))%list,
     match (done ++ ((fun row col => chunk_GetValue c col row) <$> seq 0 k))%list
     with [] => true | _ => false end).
Proof.
  induction k as [|k IH].
  - simpl. now rewrite app_nil_r.
  - rewrite for_loop_S, IH, seq_S, fmap_app, app_assoc.
    change ((fun row col => chunk_GetValue c col row) <$> [(0 + k)%nat])
      with [fun col => chunk_GetValue c col k].
    set (rows := (done ++ _)%list).
    unfold Android.chunk_row_body, array_open.
    assert (E : forall json,
               for_loop (ColumnCount q)
                 (Android.column_body (names q) (types q)
                    (fun col => chunk_GetValue c col k)) (json << "{") << "}"
               = json << record_text (names q) (types q) (ColumnCount q)
                           (fun col => chunk_GetValue c col k))
      by (intros; apply Android_columns_record).
    rewrite fmap_app.
    change (record_text (names q) (types q) (ColumnCount q)
              <$> [fun col => chunk_GetValue c col k])
      with [record_text (names q) (types q) (ColumnCount q)
              (fun col => chunk_GetValue c col k)].
    rewrite join_snoc.
    destruct rows as [|r rows]; simpl negb; cbv iota.
    + rewrite E. reflexivity.
    + rewrite E. reflexivity.
Qed.

Lemma Android_fetch_loop_records {RT : Runtime} (q : QueryResult)
    (chunks : list DataChunk) (done : list (nat -> Value)) :
  (Android.fetch_loop q chunks
     (array_open (names q) (types q) (ColumnCount q) done,
      match done with [] => true | _ => false end)).1
  = array_open (names q) (types q) (ColumnCount q)
      (done ++ stream_rows chunks)%list.
Proof.
  revert done.
  induction chunks as [|c chunks IH]; intros done; simpl.
  - unfold stream_rows. simpl. now rewrite app_nil_r.
  - destruct (0 <? chunk_size c)%nat eqn:E.
    + rewrite (Android_chunk_records q c done (chunk_size c)).
      rewrite IH. unfold stream_rows. simpl. rewrite E. simpl.
      now rewrite app_assoc.
    + unfold stream_rows. simpl. rewrite E. simpl. now rewrite app_nil_r.
Qed.

Lemma Android_queryResultToJson_records {RT : Runtime} (q : QueryResult) :
  Android.queryResultToJson q
  = array_text (names q) (types q) (ColumnCount q) (stream_rows (stream q)).
Proof.
  unfold Android.queryResultToJson, array_text.
  pose proof (Android_fetch_loop_records q (stream q) []) as E.
  simpl app in E.
  change (array_open (names q) (types q) (ColumnCount q) [])
    with ("" << "[") in E.
  destruct (Android.fetch_loop q (stream q) ("" << "[", true)) as [json b].
  simpl in E. now rewrite E.
Qed.

(** C1.  For a chunked result and a materialized result with the same
    column names, column types and rows in the same order, the streaming
    serializers (Android [queryResultToJson], iOS [resultToJson]) and the
    random-access serializer (Android [resultToJson]) write the same
    text, and this text is the array of the records of the rows
    [0 .. RowCount - 1], in this order, each record with one [name:value]
    pair for every column [0 .. ColumnCount - 1], in the order of the
    columns: no row and no column is skipped or moved. *)
Theorem serializers_agree {RT : Runtime} (q : QueryResult)
    (m : MaterializedQueryResult) :
  same_rows q m ->
  Android.queryResultToJson q = Android.resultToJson m /\
  Ios.resultToJson q = Android.resultToJson m /\
  Android.resultToJson m
  = array_text (names m) (types m) (ColumnCount m) (materialized_rows m).
Proof.
  intros Hs. rewrite Ios_resultToJson_Android.
  split; [now apply Android_serializers_agree|].
  split; [now apply Android_serializers_agree|].
  apply Android_resultToJson_records.
Qed.

(** ** Programs over native memory *)

Lemma M_bind_Ret {St A B : Type} (m : M St A) (f : A -> M St B)
    (s s' : St) (a : A) :
  m s = Ret (a, s') -> M_bind m f s = f a s'.
Proof. intros E. unfold M_bind. now rewrite E. Qed.

Lemma M_bind_Crash {St A B : Type} (m : M St A) (f : A -> M St B) (s : St) :
  m s = Crash -> M_bind m f s = Crash.
Proof. intros E. unfold M_bind. now rewrite E. Qed.

Lemma int_result_in {St : Type} (v : Z) (s : St) :
  INT_MIN <= v <= INT_MAX -> int_result v s = Ret (v, s).
Proof.
  intros [Hlo Hhi]. unfold int_result.
  apply Z.leb_le in Hlo as ->. apply Z.leb_le in Hhi as ->. reflexivity.
Qed.

Lemma load_live {Object : Type} (h : gmap Z Object) (p : Z) (o : Object) :
  h !! p = Some o -> load p h = Ret (o, h).
Proof. intros E. unfold load. now rewrite E. Qed.

Lemma store_live {Object : Type} (h : gmap Z Object) (p : Z) (o o' : Object) :
  h !! p = Some o -> store p o' h = Ret (tt, <[p := o']> h).
Proof. intros E. unfold store. now rewrite E. Qed.

Lemma to_int_small (v : Z) : INT_MIN <= v <= INT_MAX -> to_int v = v.
Proof.
  unfold INT_MIN, INT_MAX, to_int. intros Hv. rewrite Z.mod_small; lia.
Qed.

Lemma to_size_t_small (v : Z) : 0 <= v <= INT_MAX -> to_size_t v = v.
Proof.
  unfold INT_MAX, to_size_t. intros Hv. rewrite Z.mod_small; lia.
Qed.

(** ** The binding store *)

Lemma bound_store_after_bind (b : list Value) (index : Z) (v : Value) :
  1 <= index -> store_after_bind b index v (bound_store b index v).
Proof.
  intros Hi. unfold bound_store, store_after_bind.
  replace (Z.to_nat (index - 1)) with (Z.to_nat index - 1)%nat by lia.
  destruct (Z.of_nat (length b) <=? index - 1) eqn:E.
  - apply Z.leb_le in E.
    repeat split.
    + rewrite length_insert, length_resize. lia.
    + apply list_lookup_insert_eq. rewrite length_resize. lia.
    + intros j Hj Hne. rewrite list_lookup_insert_ne by lia.
      rewrite lookup_resize by lia. reflexivity.
    + intros j Hj Hlt. rewrite list_lookup_insert_ne by lia.
      rewrite lookup_resize_new by lia. reflexivity.
  - apply Z.leb_gt in E.
    repeat split.
    + rewrite length_insert. lia.
    + apply list_lookup_insert_eq. lia.
    + intros j Hj Hne. now rewrite list_lookup_insert_ne by lia.
    + intros j Hj Hlt. lia.
Qed.

Lemma Android_load_wrapper (h : gmap Z Android.Object) (p : Z)
    (w : Android.PreparedStatementWrapper) :
  h !! p = Some (Android.Obj_PreparedStatementWrapper w) ->
  Android.load_PreparedStatementWrapper p h = Ret (w, h).
Proof.
  intros Hlive. unfold Android.load_PreparedStatementWrapper.
  rewrite (M_bind_Ret _ _ _ _ _ (load_live _ _ _ Hlive)). reflexivity.
Qed.

Lemma Android_set_bindings (h : gmap Z Android.Object) (p : Z)
    (o : Android.Object) (w0 : Android.PreparedStatementWrapper)
    (b : list Value) :
  h !! p = Some o ->
  Android.set_bindings p w0 b h
  = Ret (tt, <[p := Android.Obj_PreparedStatementWrapper
                       {| Android.stmt := Android.stmt w0;
                          Android.bindings := b |}]> h).
Proof.
  intros Hlive. unfold Android.set_bindings.
  now rewrite (store_live _ _ _ _ Hlive).
Qed.

Lemma vector_resize_fits {RT : Runtime} (b : list Value) (index : Z) :
  vector_resize index b
  = if bind_fits b index then Some (resized index b) else None.
Proof. reflexivity. Qed.

Lemma bind_fits_in_store {RT : Runtime} (b : list Value) (index : Z) :
  index <= Z.of_nat (length b) -> bind_fits b index = true.
Proof.
  intros Hi. unfold bind_fits. apply orb_true_iff. left. now apply Z.leb_le.
Qed.

Lemma bind_fits_in_limit {RT : Runtime} (b : list Value) (index : Z) :
  index <= alloc_limit -> bind_fits b index = true.
Proof.
  intros Hi. unfold bind_fits. apply orb_true_iff. right. now apply Z.leb_le.
Qed.

Lemma bind_fits_false {RT : Runtime} (b : list Value) (index : Z) :
  bind_fits b index = false ->
  Z.of_nat (length b) < index /\ alloc_limit < index.
Proof.
  unfold bind_fits. intros H. apply orb_false_iff in H as [H1 H2].
  apply Z.leb_gt in H1, H2. auto.
Qed.

Lemma Android_bind_slot_live {RT : Runtime} (h : gmap Z Android.Object)
    (p index : Z) (w : Android.PreparedStatementWrapper) :
  h !! p = Some (Android.Obj_PreparedStatementWrapper w) ->
  1 <= index <= INT_MAX ->
  Z.of_nat (length (Android.bindings w)) <= INT_MAX ->
  bind_fits (Android.bindings w) index = true ->
  exists h1,
    Android.bind_slot p index h
    = Ret (Some (w,
                 (if Z.of_nat (length (Android.bindings w)) <=? index - 1
                  then resize (Z.to_nat index) Value_null (Android.bindings w)
                  else Android.bindings w),
                 index - 1), h1) /\
    (exists o, h1 !! p = Some o) /\
    (forall o, <[p := o]> h1 = <[p := o]> h).
Proof.
  intros Hlive Hi Hsz Hfits. unfold Android.bind_slot.
  rewrite (M_bind_Ret _ _ _ _ _ (int_result_in (index - 1) h ltac:(unfold INT_MIN, INT_MAX in *; lia))).
  destruct (index - 1 <? 0) eqn:E0; [apply Z.ltb_lt in E0; lia|].
  rewrite (M_bind_Ret _ _ _ _ _ (Android_load_wrapper h p w Hlive)).
  rewrite to_int_small by (unfold INT_MIN, INT_MAX in *; lia).
  destruct (Z.of_nat (length (Android.bindings w)) <=? index - 1) eqn:E.
  - rewrite (M_bind_Ret _ _ _ _ _ (int_result_in (index - 1 + 1) h ltac:(unfold INT_MIN, INT_MAX in *; lia))).
    replace (index - 1 + 1) with index by lia.
    rewrite to_size_t_small by lia.
    rewrite vector_resize_fits, Hfits.
    rewrite (M_bind_Ret _ _ _ _ _ (Android_set_bindings h p _ w _ Hlive)).
    unfold resized.
    eexists. split; [reflexivity|]. split.
    + eexists. apply lookup_insert_eq.
    + intros o. apply insert_insert_eq.
  - exists h. split; [reflexivity|]. split; [eauto | reflexivity].
Qed.

Lemma Android_bind_slot_beyond {RT : Runtime} (h : gmap Z Android.Object)
    (p index : Z) (w : Android.PreparedStatementWrapper) :
  h !! p = Some (Android.Obj_PreparedStatementWrapper w) ->
  1 <= index <= INT_MAX ->
  Z.of_nat (length (Android.bindings w)) <= INT_MAX ->
  bind_fits (Android.bindings w) index = false ->
  Android.bind_slot p index h = Crash.
Proof.
  intros Hlive Hi Hsz Hfits.
  destruct (bind_fits_false _ _ Hfits) as [Hlen Hlim].
  unfold Android.bind_slot.
  rewrite (M_bind_Ret _ _ _ _ _ (int_result_in (index - 1) h ltac:(unfold INT_MIN, INT_MAX in *; lia))).
  destruct (index - 1 <? 0) eqn:E0; [apply Z.ltb_lt in E0; lia|].
  rewrite (M_bind_Ret _ _ _ _ _ (Android_load_wrapper h p w Hlive)).
  rewrite to_int_small by (unfold INT_MIN, INT_MAX in *; lia).
  destruct (Z.of_nat (length (Android.bindings w)) <=? index - 1) eqn:E;
    [|apply Z.leb_gt in E; lia].
  rewrite (M_bind_Ret _ _ _ _ _ (int_result_in (index - 1 + 1) h ltac:(unfold INT_MIN, INT_MAX in *; lia))).
  replace (index - 1 + 1) with index by lia.
  rewrite to_size_t_small by lia.
  now rewrite vector_resize_fits, Hfits.
Qed.

Lemma android_bind_live {RT : Runtime} (op : AndroidBind)
    (h : gmap Z Android.Object) (p index : Z)
    (w : Android.PreparedStatementWrapper) :
  p <> 0 ->
  h !! p = Some (Android.Obj_PreparedStatementWrapper w) ->
  1 <= index <= INT_MAX ->
  Z.of_nat (length (Android.bindings w)) <= INT_MAX ->
  bind_fits (Android.bindings w) index = true ->
  android_bind op p index h
  = Ret (true,
         <[p := Android.Obj_PreparedStatementWrapper
                  {| Android.stmt := Android.stmt w;
                     Android.bindings :=
                       bound_store (Android.bindings w) index (android_bound op) |}]> h).
Proof.
  intros Hp Hlive Hi Hsz Hfits.
  destruct (Android_bind_slot_live h p index w Hlive Hi Hsz Hfits)
    as (h1 & Hslot & [o Ho] & Hins).
  apply Z.eqb_neq in Hp.
  destruct op as [[s|]|v|v|v|]; simpl;
    unfold Android.bindString, Android.bindLong, Android.bindDouble,
      Android.bindBoolean, Android.bindNull;
    rewrite Hp; rewrite (M_bind_Ret _ _ _ _ _ Hslot); simpl;
    rewrite (M_bind_Ret _ _ _ _ _ (Android_set_bindings h1 p o w _ Ho));
    unfold mret, M_ret; rewrite Hins; reflexivity.
Qed.

Lemma android_bind_beyond {RT : Runtime} (op : AndroidBind)
    (h : gmap Z Android.Object) (p index : Z)
    (w : Android.PreparedStatementWrapper) :
  p <> 0 ->
  h !! p = Some (Android.Obj_PreparedStatementWrapper w) ->
  1 <= index <= INT_MAX ->
  Z.of_nat (length (Android.bindings w)) <= INT_MAX ->
  bind_fits (Android.bindings w) index = false ->
  android_bind op p index h = Crash.
Proof.
  intros Hp Hlive Hi Hsz Hfits.
  pose proof (Android_bind_slot_beyond h p index w Hlive Hi Hsz Hfits) as Hslot.
  apply Z.eqb_neq in Hp.
  destruct op; simpl;
    unfold Android.bindString, Android.bindLong, Android.bindDouble,
      Android.bindBoolean, Android.bindNull;
    rewrite Hp; now rewrite (M_bind_Crash _ _ _ Hslot).
Qed.

Lemma Ios_load_wrapper (h : gmap Z Ios.Object) (p : Z) (w : Ios.PreparedWrapper) :
  h !! p = Some (Ios.Obj_PreparedWrapper w) ->
  Ios.load_PreparedWrapper p h = Ret (w, h).
Proof.
  intros Hlive. unfold Ios.load_PreparedWrapper.
  rewrite (M_bind_Ret _ _ _ _ _ (load_live _ _ _ Hlive)). reflexivity.
Qed.

Lemma Ios_set_bindings (h : gmap Z Ios.Object) (p : Z) (o : Ios.Object)
    (w0 : Ios.PreparedWrapper) (b : list Value) :
  h !! p = Some o ->
  Ios.set_bindings p w0 b h
  = Ret (tt, <[p := Ios.Obj_PreparedWrapper
                       {| Ios.stmt := Ios.stmt w0; Ios.bindings := b |}]> h).
Proof.
  intros Hlive. unfold Ios.set_bindings.
  now rewrite (store_live _ _ _ _ Hlive).
Qed.

Lemma Ios_bind_slot_live {RT : Runtime} (h : gmap Z Ios.Object)
    (p index : Z) (w : Ios.PreparedWrapper) :
  h !! p = Some (Ios.Obj_PreparedWrapper w) ->
  1 <= index <= INT_MAX ->
  bind_fits (Ios.bindings w) index = true ->
  exists h1,
    Ios.bind_slot p index h
    = Ret ((w,
            (if Z.of_nat (length (Ios.bindings w)) <=? index - 1
             then resize (Z.to_nat index) Value_null (Ios.bindings w)
             else Ios.bindings w),
            index - 1), h1) /\
    (exists o, h1 !! p = Some o) /\
    (forall o, <[p := o]> h1 = <[p := o]> h).
Proof.
  intros Hlive Hi Hfits. unfold Ios.bind_slot.
  rewrite (M_bind_Ret _ _ _ _ _ (int_result_in (index - 1) h ltac:(unfold INT_MIN, INT_MAX in *; lia))).
  rewrite (M_bind_Ret _ _ _ _ _ (Ios_load_wrapper h p w Hlive)).
  rewrite to_size_t_small by lia.
  destruct (Z.of_nat (length (Ios.bindings w)) <=? index - 1) eqn:E.
  - rewrite (M_bind_Ret _ _ _ _ _ (int_result_in (index - 1 + 1) h ltac:(unfold INT_MIN, INT_MAX in *; lia))).
    replace (index - 1 + 1) with index by lia.
    rewrite to_size_t_small by lia.
    rewrite vector_resize_fits, Hfits.
    rewrite (M_bind_Ret _ _ _ _ _ (Ios_set_bindings h p _ w _ Hlive)).
    unfold resized.
    eexists. split; [reflexivity|]. split.
    + eexists. apply lookup_insert_eq.
    + intros o. apply insert_insert_eq.
  - exists h. split; [reflexivity|]. split; [eauto | reflexivity].
Qed.

Lemma Ios_bind_slot_beyond {RT : Runtime} (h : gmap Z Ios.Object)
    (p index : Z) (w : Ios.PreparedWrapper) :
  h !! p = Some (Ios.Obj_PreparedWrapper w) ->
  1 <= index <= INT_MAX ->
  bind_fits (Ios.bindings w) index = false ->
  Ios.bind_slot p index h = Crash.
Proof.
  intros Hlive Hi Hfits.
  destruct (bind_fits_false _ _ Hfits) as [Hlen Hlim].
  unfold Ios.bind_slot.
  rewrite (M_bind_Ret _ _ _ _ _ (int_result_in (index - 1) h ltac:(unfold INT_MIN, INT_MAX in *; lia))).
  rewrite (M_bind_Ret _ _ _ _ _ (Ios_load_wrapper h p w Hlive)).
  rewrite to_size_t_small by lia.
  destruct (Z.of_nat (length (Ios.bindings w)) <=? index - 1) eqn:E;
    [|apply Z.leb_gt in E; lia].
  rewrite (M_bind_Ret _ _ _ _ _ (int_result_in (index - 1 + 1) h ltac:(unfold INT_MIN, INT_MAX in *; lia))).
  replace (index - 1 + 1) with index by lia.
  rewrite to_size_t_small by lia.
  now rewrite vector_resize_fits, Hfits.
Qed.

Lemma ios_bind_live {RT : Runtime} (op : IosBind) (h : gmap Z Ios.Object)
    (p index : Z) (w : Ios.PreparedWrapper) :
  p <> 0 ->
  h !! p = Some (Ios.Obj_PreparedWrapper w) ->
  1 <= index <= INT_MAX ->
  bind_fits (Ios.bindings w) index = true ->
  ios_bind op p index h
  = Ret (true,
         <[p := Ios.Obj_PreparedWrapper
                  {| Ios.stmt := Ios.stmt w;
                     Ios.bindings :=
                       bound_store (Ios.bindings w) index (ios_bound op) |}]> h).
Proof.
  intros Hp Hlive Hi Hfits.
  destruct (Ios_bind_slot_live h p index w Hlive Hi Hfits)
    as (h1 & Hslot & [o Ho] & Hins).
  apply Z.eqb_neq in Hp.
  assert (Hidx : (index <? 1) = false) by (apply Z.ltb_ge; lia).
  destruct op as [[s|]|v|v|v|]; simpl;
    unfold Ios.duckdb_ios_bind_string, Ios.duckdb_ios_bind_int64,
      Ios.duckdb_ios_bind_double, Ios.duckdb_ios_bind_bool,
      Ios.duckdb_ios_bind_null;
    rewrite Hp, Hidx; simpl; rewrite (M_bind_Ret _ _ _ _ _ Hslot); simpl;
    rewrite (M_bind_Ret _ _ _ _ _ (Ios_set_bindings h1 p o w _ Ho));
    unfold mret, M_ret; rewrite Hins; reflexivity.
Qed.

Lemma ios_bind_beyond {RT : Runtime} (op : IosBind) (h : gmap Z Ios.Object)
    (p index : Z) (w : Ios.PreparedWrapper) :
  p <> 0 ->
  h !! p = Some (Ios.Obj_PreparedWrapper w) ->
  1 <= index <= INT_MAX ->
  bind_fits (Ios.bindings w) index = false ->
  ios_bind op p index h = Crash.
Proof.
  intros Hp Hlive Hi Hfits.
  pose proof (Ios_bind_slot_beyond h p index w Hlive Hi Hfits) as Hslot.
  apply Z.eqb_neq in Hp.
  assert (Hidx : (index <? 1) = false) by (apply Z.ltb_ge; lia).
  destruct op; simpl;
    unfold Ios.duckdb_ios_bind_string, Ios.duckdb_ios_bind_int64,
      Ios.duckdb_ios_bind_double, Ios.duckdb_ios_bind_bool,
      Ios.duckdb_ios_bind_null;
    rewrite Hp, Hidx; simpl; now rewrite (M_bind_Crash _ _ _ Hslot).
Qed.

(** C2.  A bind at an index [index >= 1] through a live statement handle
    succeeds on both platforms, whichever of the five entry points is
    used, when it can be served: the store has the position [index], or
    [index] is within the allocation limit.  A store shorter than
    [index] grows to exactly [index] slots, the new ones null; the value
    is written at position [index] over whatever was there; every other
    slot of the old store keeps its value.  (On Android the size of the
    store is converted to [int], so the store has at most [INT_MAX]
    slots.) *)
Theorem bind_grows_and_writes {RT : Runtime} (index : Z) :
  1 <= index <= INT_MAX ->
  (forall (op : AndroidBind) (h : gmap Z Android.Object) (p : Z)
          (w : Android.PreparedStatementWrapper),
      p <> 0 ->
      h !! p = Some (Android.Obj_PreparedStatementWrapper w) ->
      Z.of_nat (length (Android.bindings w)) <= INT_MAX ->
      index <= Z.of_nat (length (Android.bindings w)) \/ index <= alloc_limit ->
      exists b',
        android_bind op p index h
        = Ret (true,
               <[p := Android.Obj_PreparedStatementWrapper
                        {| Android.stmt := Android.stmt w;
                           Android.bindings := b' |}]> h) /\
        store_after_bind (Android.bindings w) index (android_bound op) b') /\
  (forall (op : IosBind) (h : gmap Z Ios.Object) (p : Z)
          (w : Ios.PreparedWrapper),
      p <> 0 ->
      h !! p = Some (Ios.Obj_PreparedWrapper w) ->
      index <= Z.of_nat (length (Ios.bindings w)) \/ index <= alloc_limit ->
      exists b',
        ios_bind op p index h
        = Ret (true,
               <[p := Ios.Obj_PreparedWrapper
                        {| Ios.stmt := Ios.stmt w; Ios.bindings := b' |}]> h) /\
        store_after_bind (Ios.bindings w) index (ios_bound op) b').
Proof.
  intros Hi. split.
  - intros op h p w Hp Hlive Hsz Hfits. eexists. split.
    + apply android_bind_live; try assumption.
      destruct Hfits; [now apply bind_fits_in_store | now apply bind_fits_in_limit].
    + apply bound_store_after_bind. lia.
  - intros op h p w Hp Hlive Hfits. eexists. split.
    + apply ios_bind_live; try assumption.
      destruct Hfits; [now apply bind_fits_in_store | now apply bind_fits_in_limit].
    + apply bound_store_after_bind. lia.
Qed.

(** C10.  Through a live statement handle and at an index [index >= 1],
    the string bind of a null string is the very program the null bind
    is; when the bind can be served (the store has the position
    [index], or [index] is within the allocation limit) it succeeds, as
    every bind does, and the value it leaves at position [index] is the
    null value. *)
Theorem bind_null_string_is_bind_null {RT : Runtime} (index : Z) :
  1 <= index <= INT_MAX ->
  (forall (h : gmap Z Android.Object) (p : Z)
          (w : Android.PreparedStatementWrapper),
      p <> 0 ->
      h !! p = Some (Android.Obj_PreparedStatementWrapper w) ->
      Z.of_nat (length (Android.bindings w)) <= INT_MAX ->
      Android.bindString p index None h = Android.bindNull p index h /\
      (index <= Z.of_nat (length (Android.bindings w)) \/ index <= alloc_limit ->
       exists b',
         Android.bindString p index None h
         = Ret (true,
                <[p := Android.Obj_PreparedStatementWrapper
                         {| Android.stmt := Android.stmt w;
                            Android.bindings := b' |}]> h) /\
         store_after_bind (Android.bindings w) index Value_null b')) /\
  (forall (h : gmap Z Ios.Object) (p : Z) (w : Ios.PreparedWrapper),
      p <> 0 ->
      h !! p = Some (Ios.Obj_PreparedWrapper w) ->
      Ios.duckdb_ios_bind_string p index None h
      = Ios.duckdb_ios_bind_null p index h /\
      (index <= Z.of_nat (length (Ios.bindings w)) \/ index <= alloc_limit ->
       exists b',
         Ios.duckdb_ios_bind_string p index None h
         = Ret (true,
                <[p := Ios.Obj_PreparedWrapper
                         {| Ios.stmt := Ios.stmt w; Ios.bindings := b' |}]> h) /\
         store_after_bind (Ios.bindings w) index Value_null b')).
Proof.
  intros Hi. split.
  - intros h p w Hp Hlive Hsz. split; [reflexivity|].
    intros Hfits. eexists. split.
    + apply (android_bind_live (A_bindString None) h p index w); try assumption.
      destruct Hfits; [now apply bind_fits_in_store | now apply bind_fits_in_limit].
    + apply bound_store_after_bind. lia.
  - intros h p w Hp Hlive. split; [reflexivity|].
    intros Hfits. eexists. split.
    + apply (ios_bind_live (I_bind_string None) h p index w); try assumption.
      destruct Hfits; [now apply bind_fits_in_store | now apply bind_fits_in_limit].
    + apply bound_store_after_bind. lia.
Qed.

(** *** Refused indexes *)

(** An index below 1 is refused by the iOS bridge, and the store is not
    touched. *)
Lemma ios_bind_refused {RT : Runtime} (op : IosBind) (h : gmap Z Ios.Object)
    (p index : Z) :
  index < 1 -> ios_bind op p index h = Ret (false, h).
Proof.
  intros Hi. apply Z.ltb_lt in Hi.
  destruct op; simpl;
    unfold Ios.duckdb_ios_bind_string, Ios.duckdb_ios_bind_int64,
      Ios.duckdb_ios_bind_double, Ios.duckdb_ios_bind_bool,
      Ios.duckdb_ios_bind_null;
    rewrite Hi, orb_true_r; reflexivity.
Qed.

(** So it is by the Android bridge, when [index - 1] is an [int]. *)
Lemma android_bind_refused {RT : Runtime} (op : AndroidBind)
    (h : gmap Z Android.Object) (p index : Z) :
  INT_MIN < index < 1 -> android_bind op p index h = Ret (false, h).
Proof.
  intros Hi.
  assert (Hslot : Android.bind_slot p index h = Ret (None, h)).
  { unfold Android.bind_slot.
    rewrite (M_bind_Ret _ _ _ _ _ (int_result_in (index - 1) h ltac:(unfold INT_MIN, INT_MAX in *; lia))).
    destruct (index - 1 <? 0) eqn:E; [reflexivity|].
    apply Z.ltb_ge in E. lia. }
  destruct op; simpl;
    unfold Android.bindString, Android.bindLong, Android.bindDouble,
      Android.bindBoolean, Android.bindNull;
    (destruct (p =? 0); [reflexivity|]);
    rewrite (M_bind_Ret _ _ _ _ _ Hslot); reflexivity.
Qed.

(** At [INT_MIN] the subtraction [index - 1] of the Android bridge, which
    comes before the range check, overflows. *)
Lemma android_bind_INT_MIN {RT : Runtime} (op : AndroidBind)
    (h : gmap Z Android.Object) (p : Z) :
  p <> 0 -> android_bind op p INT_MIN h = Crash.
Proof.
  intros Hp. apply Z.eqb_neq in Hp.
  assert (Hslot : Android.bind_slot p INT_MIN h = Crash) by reflexivity.
  destruct op; simpl;
    unfold Android.bindString, Android.bindLong, Android.bindDouble,
      Android.bindBoolean, Android.bindNull;
    rewrite Hp; rewrite (M_bind_Crash _ _ _ Hslot); reflexivity.
Qed.

(** Were the overflow to wrap around, as it does in two's complement,
    the converted index would be [INT_MAX] and pass the check [idx < 0];
    the size asked of [resize] would then overflow in turn. *)
Lemma wrapped_index_passes_the_check :
  to_int (INT_MIN - 1) = INT_MAX /\
  (to_int (INT_MIN - 1) <? 0) = false /\
  to_int (INT_MAX + 1) = INT_MIN.
Proof. repeat split. Qed.

(** C6.  On Android a bind at the index [INT_MIN], which is below 1,
    through a non-null handle does not report a failure: [index - 1] is
    evaluated before the check and overflows.  On iOS the same call
    returns false and leaves native memory as it was. *)
Theorem bind_at_INT_MIN {RT : Runtime} (p : Z) :
  p <> 0 ->
  (forall (op : AndroidBind) (h : gmap Z Android.Object),
      android_bind op p INT_MIN h = Crash) /\
  (forall (op : IosBind) (h : gmap Z Ios.Object),
      ios_bind op p INT_MIN h = Ret (false, h)).
Proof.
  intros Hp. split.
  - intros op h. now apply android_bind_INT_MIN.
  - intros op h. apply ios_bind_refused. unfold INT_MIN. lia.
Qed.

(** *** Sequences of operations *)

Lemma all_rets_impl {R : Type} (P Q : R -> Prop) (p : Prog R) :
  (forall r, P r -> Q r) -> all_rets P p -> all_rets Q p.
Proof.
  intros HPQ. induction p as [r| |X e k IH]; simpl; auto.
Qed.

Lemma all_rets_bind {St A B : Type} (m : M St A) (f : A -> M St B)
    (Q : B * St -> Prop) (s : St) :
  all_rets (fun r => all_rets Q (f r.1 r.2)) (m s) ->
  all_rets Q (M_bind m f s).
Proof.
  unfold M_bind. induction (m s) as [[a s']| |X e k IH]; simpl; auto.
Qed.

Lemma no_crash_bind {St A B : Type} (m : M St A) (f : A -> M St B) (s : St) :
  no_crash (m s) ->
  all_rets (fun r => no_crash (f r.1 r.2)) (m s) ->
  no_crash (M_bind m f s).
Proof.
  unfold M_bind. induction (m s) as [[a s']| |X e k IH]; simpl; auto.
Qed.

Lemma fmap_const_null (b : list Value) :
  (fun _ => Value_null) <$> b = replicate (length b) Value_null.
Proof.
  induction b as [|x b IH]; [reflexivity|].
  cbn. f_equal. exact IH.
Qed.

Lemma Android_clearBindings_live (h : gmap Z Android.Object)
    (p : Z) (w : Android.PreparedStatementWrapper) :
  p <> 0 ->
  h !! p = Some (Android.Obj_PreparedStatementWrapper w) ->
  Android.clearBindings p h
  = Ret (true,
         <[p := Android.Obj_PreparedStatementWrapper
                  {| Android.stmt := Android.stmt w;
                     Android.bindings :=
                       replicate (length (Android.bindings w)) Value_null |}]> h).
Proof.
  intros Hp Hlive. apply Z.eqb_neq in Hp.
  unfold Android.clearBindings. rewrite Hp.
  rewrite (M_bind_Ret _ _ _ _ _ (Android_load_wrapper h p w Hlive)).
  rewrite (M_bind_Ret _ _ _ _ _ (Android_set_bindings h p _ w _ Hlive)).
  now rewrite fmap_const_null.
Qed.

Lemma Ios_clear_bindings_live (h : gmap Z Ios.Object)
    (p : Z) (w : Ios.PreparedWrapper) :
  p <> 0 ->
  h !! p = Some (Ios.Obj_PreparedWrapper w) ->
  Ios.duckdb_ios_clear_bindings p h
  = Ret (tt,
         <[p := Ios.Obj_PreparedWrapper
                  {| Ios.stmt := Ios.stmt w;
                     Ios.bindings :=
                       replicate (length (Ios.bindings w)) Value_null |}]> h).
Proof.
  intros Hp Hlive. apply Z.eqb_neq in Hp.
  unfold Ios.duckdb_ios_clear_bindings. rewrite Hp.
  rewrite (M_bind_Ret _ _ _ _ _ (Ios_load_wrapper h p w Hlive)).
  rewrite (Ios_set_bindings h p _ w _ Hlive).
  now rewrite fmap_const_null.
Qed.

(** Executing leaves native memory as it is, whatever the engine
    answers. *)
Lemma Android_executePrepared_live {RT : Runtime} (h : gmap Z Android.Object)
    (p : Z) (w : Android.PreparedStatementWrapper) :
  p <> 0 ->
  h !! p = Some (Android.Obj_PreparedStatementWrapper w) ->
  exists k,
    Android.executePrepared p h
    = Vis (PreparedStatement_Execute (Android.stmt w) (Android.bindings w) false) k /\
    forall x, exists s, k x = Ret (s, h).
Proof.
  intros Hp Hlive. apply Z.eqb_neq in Hp.
  unfold Android.executePrepared. rewrite Hp.
  rewrite (M_bind_Ret _ _ _ _ _ (Android_load_wrapper h p w Hlive)).
  eexists. split; [reflexivity|].
  intros [what|result]; simpl; [eauto|].
  destruct (HasError result); eauto.
Qed.

Lemma Ios_execute_prepared_live {RT : Runtime} (h : gmap Z Ios.Object)
    (p : Z) (w : Ios.PreparedWrapper) (error_out : ErrorOut) :
  p <> 0 ->
  h !! p = Some (Ios.Obj_PreparedWrapper w) ->
  exists k,
    Ios.duckdb_ios_execute_prepared p error_out h
    = Vis (PreparedStatement_Execute (Ios.stmt w) (Ios.bindings w) true) k /\
    forall x, exists s, k x = Ret (s, h).
Proof.
  intros Hp Hlive. apply Z.eqb_neq in Hp.
  unfold Ios.duckdb_ios_execute_prepared. rewrite Hp.
  rewrite (M_bind_Ret _ _ _ _ _ (Ios_load_wrapper h p w Hlive)).
  eexists. split; [reflexivity|].
  intros [what|result]; simpl; [eauto|].
  destruct (HasError result); eauto.
Qed.

(** An operation on a store of [n] slots that can be served: a bind at
    an index up to [INT_MAX] that is in the store or within the
    allocation limit, a clear, an execution. *)
Lemma android_step_size {RT : Runtime} (o : StoreOp AndroidBind)
    (h : gmap Z Android.Object) (p : Z) (n : nat) :
  p <> 0 -> android_store_size h p n -> Z.of_nat n <= INT_MAX ->
  op_index_in INT_MIN INT_MAX o ->
  all_rets (fun r => exists n', android_store_size r.2 p n' /\
                                (n <= n')%nat /\ Z.of_nat n' <= INT_MAX)
    (android_step p o h).
Proof.
  intros Hp (w & Hlive & Hlen) Hn Ho. destruct o as [op index| |]; simpl.
  - cbn [op_index_in] in Ho.
    destruct (Z.eq_dec index INT_MIN) as [-> | Hne].
    { rewrite (M_bind_Crash _ _ _ (android_bind_INT_MIN op h p Hp)). exact I. }
    destruct (Z_lt_le_dec index 1) as [Hlt | Hge].
    + rewrite (M_bind_Ret _ _ _ _ _ (android_bind_refused op h p index ltac:(lia))).
      simpl. exists n. split; [exists w; auto | lia].
    + destruct (bind_fits (Android.bindings w) index) eqn:Hfits.
      * rewrite (M_bind_Ret _ _ _ _ _
                   (android_bind_live op h p index w Hp Hlive ltac:(lia)
                      ltac:(lia) Hfits)).
        simpl.
        destruct (bound_store_after_bind (Android.bindings w) index
                    (android_bound op) ltac:(lia)) as (Hl & _).
        eexists. split.
        -- eexists. split; [apply lookup_insert_eq | reflexivity].
        -- simpl. rewrite Hl. lia.
      * rewrite (M_bind_Crash _ _ _
                   (android_bind_beyond op h p index w Hp Hlive ltac:(lia)
                      ltac:(lia) Hfits)).
        exact I.
  - rewrite (M_bind_Ret _ _ _ _ _ (Android_clearBindings_live h p w Hp Hlive)).
    simpl. exists n. split; [|lia].
    eexists. split; [apply lookup_insert_eq|].
    simpl. now rewrite length_replicate.
  - destruct (Android_executePrepared_live h p w Hp Hlive) as (k & Hk & Hret).
    unfold M_bind. rewrite Hk. simpl. intros x.
    destruct (Hret x) as [s ->]. simpl.
    exists n. split; [exists w; auto | lia].
Qed.

Lemma android_step_no_crash {RT : Runtime} (o : StoreOp AndroidBind)
    (h : gmap Z Android.Object) (p : Z) (n : nat) :
  p <> 0 -> android_store_size h p n -> Z.of_nat n <= INT_MAX ->
  op_index_in (INT_MIN + 1) (Z.min INT_MAX alloc_limit) o ->
  no_crash (android_step p o h).
Proof.
  intros Hp (w & Hlive & Hlen) Hn Ho. destruct o as [op index| |]; simpl.
  - cbn [op_index_in] in Ho.
    destruct (Z_lt_le_dec index 1) as [Hlt | Hge].
    + rewrite (M_bind_Ret _ _ _ _ _ (android_bind_refused op h p index ltac:(lia))).
      exact I.
    + rewrite (M_bind_Ret _ _ _ _ _
                 (android_bind_live op h p index w Hp Hlive ltac:(lia) ltac:(lia)
                    (@bind_fits_in_limit RT (Android.bindings w) index
                       ltac:(lia)))).
      exact I.
  - rewrite (M_bind_Ret _ _ _ _ _ (Android_clearBindings_live h p w Hp Hlive)).
    exact I.
  - destruct (Android_executePrepared_live h p w Hp Hlive) as (k & Hk & Hret).
    unfold M_bind. rewrite Hk. simpl. intros x.
    destruct (Hret x) as [s ->]. exact I.
Qed.

Lemma op_index_in_weaken {B : Type} (lo hi lo' hi' : Z) (o : StoreOp B) :
  lo' <= lo -> hi <= hi' -> op_index_in lo hi o -> op_index_in lo' hi' o.
Proof. intros Hlo Hhi. destruct o; simpl; [lia | auto | auto]. Qed.

Lemma android_run_size {RT : Runtime} (ops : list (StoreOp AndroidBind))
    (h : gmap Z Android.Object) (p : Z) (n : nat) :
  p <> 0 -> android_store_size h p n -> Z.of_nat n <= INT_MAX ->
  Forall (op_index_in INT_MIN INT_MAX) ops ->
  all_rets (fun r => exists n', android_store_size r.2 p n' /\ (n <= n')%nat)
    (android_run p ops h).
Proof.
  intros Hp Hs Hn Hops. revert h n Hs Hn.
  induction Hops as [|o ops Ho Hops IH]; intros h n Hs Hn; simpl.
  - exists n. auto.
  - apply all_rets_bind.
    eapply all_rets_impl; [|exact (android_step_size o h p n Hp Hs Hn Ho)].
    intros [[] h'] (n' & Hs' & Hle & Hn'). simpl in *.
    eapply all_rets_impl; [|exact (IH h' n' Hs' Hn')].
    intros r (n'' & Hs'' & Hle'). exists n''. split; [exact Hs'' | lia].
Qed.

Lemma android_run_no_crash {RT : Runtime} (ops : list (StoreOp AndroidBind))
    (h : gmap Z Android.Object) (p : Z) (n : nat) :
  p <> 0 -> android_store_size h p n -> Z.of_nat n <= INT_MAX ->
  Forall (op_index_in (INT_MIN + 1) (Z.min INT_MAX alloc_limit)) ops ->
  no_crash (android_run p ops h).
Proof.
  intros Hp Hs Hn Hops. revert h n Hs Hn.
  induction Hops as [|o ops Ho Hops IH]; intros h n Hs Hn; simpl.
  - exact I.
  - apply no_crash_bind.
    + exact (android_step_no_crash o h p n Hp Hs Hn Ho).
    + eapply all_rets_impl;
        [|apply (android_step_size o h p n Hp Hs Hn)].
      * intros [[] h'] (n' & Hs' & Hle & Hn'). simpl in *. now apply (IH h' n').
      * apply (op_index_in_weaken (INT_MIN + 1) (Z.min INT_MAX alloc_limit));
          [unfold INT_MIN; lia | lia | exact Ho].
Qed.

Lemma ios_step_size {RT : Runtime} (o : StoreOp IosBind)
    (h : gmap Z Ios.Object) (p : Z) (n : nat) :
  p <> 0 -> ios_store_size h p n ->
  op_index_in INT_MIN INT_MAX o ->
  all_rets (fun r => exists n', ios_store_size r.2 p n' /\ (n <= n')%nat)
    (ios_step p o h).
Proof.
  intros Hp (w & Hlive & Hlen) Ho. destruct o as [op index| |]; simpl.
  - cbn [op_index_in] in Ho.
    destruct (Z_lt_le_dec index 1) as [Hlt | Hge].
    + rewrite (M_bind_Ret _ _ _ _ _ (ios_bind_refused op h p index Hlt)).
      simpl. exists n. split; [exists w; auto | lia].
    + destruct (bind_fits (Ios.bindings w) index) eqn:Hfits.
      * rewrite (M_bind_Ret _ _ _ _ _
                   (ios_bind_live op h p index w Hp Hlive ltac:(lia) Hfits)).
        simpl.
        destruct (bound_store_after_bind (Ios.bindings w) index
                    (ios_bound op) ltac:(lia)) as (Hl & _).
        eexists. split.
        -- eexists. split; [apply lookup_insert_eq | reflexivity].
        -- simpl. rewrite Hl. lia.
      * rewrite (M_bind_Crash _ _ _
                   (ios_bind_beyond op h p index w Hp Hlive ltac:(lia) Hfits)).
        exact I.
  - rewrite (Ios_clear_bindings_live h p w Hp Hlive).
    simpl. exists n. split; [|lia].
    eexists. split; [apply lookup_insert_eq|].
    simpl. now rewrite length_replicate.
  - destruct (Ios_execute_prepared_live h p w None Hp Hlive) as (k & Hk & Hret).
    unfold M_bind. rewrite Hk. simpl.
    intros x; destruct (Hret x) as [s ->]; simpl.
    exists n. split; [exists w; auto | lia].
Qed.

Lemma ios_step_no_crash {RT : Runtime} (o : StoreOp IosBind)
    (h : gmap Z Ios.Object) (p : Z) (n : nat) :
  p <> 0 -> ios_store_size h p n ->
  op_index_in INT_MIN (Z.min INT_MAX alloc_limit) o ->
  no_crash (ios_step p o h).
Proof.
  intros Hp (w & Hlive & Hlen) Ho. destruct o as [op index| |]; simpl.
  - cbn [op_index_in] in Ho.
    destruct (Z_lt_le_dec index 1) as [Hlt | Hge].
    + rewrite (M_bind_Ret _ _ _ _ _ (ios_bind_refused op h p index Hlt)).
      exact I.
    + rewrite (M_bind_Ret _ _ _ _ _
                 (ios_bind_live op h p index w Hp Hlive ltac:(lia)
                    (@bind_fits_in_limit RT (Ios.bindings w) index ltac:(lia)))).
      exact I.
  - rewrite (Ios_clear_bindings_live h p w Hp Hlive). exact I.
  - destruct (Ios_execute_prepared_live h p w None Hp Hlive) as (k & Hk & Hret).
    unfold M_bind. rewrite Hk. simpl.
    intros x; destruct (Hret x) as [s ->]. exact I.
Qed.

Lemma ios_run_size {RT : Runtime} (ops : list (StoreOp IosBind))
    (h : gmap Z Ios.Object) (p : Z) (n : nat) :
  p <> 0 -> ios_store_size h p n ->
  Forall (op_index_in INT_MIN INT_MAX) ops ->
  all_rets (fun r => exists n', ios_store_size r.2 p n' /\ (n <= n')%nat)
    (ios_run p ops h).
Proof.
  intros Hp Hs Hops. revert h n Hs.
  induction Hops as [|o ops Ho Hops IH]; intros h n Hs; simpl.
  - exists n. auto.
  - apply all_rets_bind.
    eapply all_rets_impl; [|exact (ios_step_size o h p n Hp Hs Ho)].
    intros [[] h'] (n' & Hs' & Hle). simpl in *.
    eapply all_rets_impl; [|exact (IH h' n' Hs')].
    intros r (n'' & Hs'' & Hle'). exists n''. split; [exact Hs'' | lia].
Qed.

Lemma ios_run_no_crash {RT : Runtime} (ops : list (StoreOp IosBind))
    (h : gmap Z Ios.Object) (p : Z) (n : nat) :
  p <> 0 -> ios_store_size h p n ->
  Forall (op_index_in INT_MIN (Z.min INT_MAX alloc_limit)) ops ->
  no_crash (ios_run p ops h).
Proof.
  intros Hp Hs Hops. revert h n Hs.
  induction Hops as [|o ops Ho Hops IH]; intros h n Hs; simpl.
  - exact I.
  - apply no_crash_bind.
    + exact (ios_step_no_crash o h p n Hp Hs Ho).
    + eapply all_rets_impl; [|apply (ios_step_size o h p n Hp Hs)].
      * intros [[] h'] (n' & Hs' & Hle). simpl in *. now apply (IH h' n').
      * apply (op_index_in_weaken INT_MIN (Z.min INT_MAX alloc_limit));
          [lia | lia | exact Ho].
Qed.

(** C5.  Clearing the bindings through a live handle makes every slot of
    the store null and keeps the number of slots; and after any sequence
    of binds (of any kind, at any index), clears and executions the store
    has at least the slots it had.  Such a sequence does not abort when
    its indexes are within the allocation limit (and, on Android, none
    is [INT_MIN]). *)
Theorem store_never_shrinks {RT : Runtime} (p : Z) :
  p <> 0 ->
  (forall (h : gmap Z Android.Object) (w : Android.PreparedStatementWrapper),
      h !! p = Some (Android.Obj_PreparedStatementWrapper w) ->
      Android.clearBindings p h
      = Ret (true,
             <[p := Android.Obj_PreparedStatementWrapper
                      {| Android.stmt := Android.stmt w;
                         Android.bindings :=
                           replicate (length (Android.bindings w)) Value_null |}]> h)) /\
  (forall (h : gmap Z Ios.Object) (w : Ios.PreparedWrapper),
      h !! p = Some (Ios.Obj_PreparedWrapper w) ->
      Ios.duckdb_ios_clear_bindings p h
      = Ret (tt,
             <[p := Ios.Obj_PreparedWrapper
                      {| Ios.stmt := Ios.stmt w;
                         Ios.bindings :=
                           replicate (length (Ios.bindings w)) Value_null |}]> h)) /\
  (forall (ops : list (StoreOp AndroidBind)) (h : gmap Z Android.Object)
          (n : nat),
      android_store_size h p n -> Z.of_nat n <= INT_MAX ->
      Forall (op_index_in INT_MIN INT_MAX) ops ->
      all_rets (fun r => exists n', android_store_size r.2 p n' /\ (n <= n')%nat)
        (android_run p ops h) /\
      (Forall (op_index_in (INT_MIN + 1) (Z.min INT_MAX alloc_limit)) ops ->
       no_crash (android_run p ops h))) /\
  (forall (ops : list (StoreOp IosBind)) (h : gmap Z Ios.Object) (n : nat),
      ios_store_size h p n ->
      Forall (op_index_in INT_MIN INT_MAX) ops ->
      all_rets (fun r => exists n', ios_store_size r.2 p n' /\ (n <= n')%nat)
        (ios_run p ops h) /\
      (Forall (op_index_in INT_MIN (Z.min INT_MAX alloc_limit)) ops ->
       no_crash (ios_run p ops h))).
Proof.
  intros Hp. repeat split.
  - intros h w Hlive. now apply Android_clearBindings_live.
  - intros h w Hlive. now apply Ios_clear_bindings_live.
  - now apply android_run_size.
  - intros Hops. now apply (android_run_no_crash ops h p n).
  - now apply ios_run_size.
  - intros Hops. now apply (ios_run_no_crash ops h p n).
Qed.

(** *** A serialized result starts with a bracket *)

Lemma starts_with_append (c : ascii) (s t : string) :
  starts_with c s -> starts_with c (s << t).
Proof. destruct s as [|a s]; [intros [] | intros Hs; exact Hs]. Qed.

Lemma for_loop_invariant {S : Type} (P : S -> Prop) (n : nat)
    (body : nat -> S -> S) (s : S) :
  (forall i s', P s' -> P (body i s')) -> P s -> P (for_loop n body s).
Proof.
  intros Hbody Hs. induction n as [|n IH]; [exact Hs|].
  rewrite for_loop_S. now apply Hbody.
Qed.

Lemma Android_put_value_starts {RT : Runtime} c json type val :
  starts_with c json -> starts_with c (Android.put_value json type val).
Proof.
  intros Hs. unfold Android.put_value.
  destruct (IsNull val); [now apply starts_with_append|].
  destruct type; now apply starts_with_append.
Qed.

Lemma Android_column_body_starts {RT : Runtime} c ns ts get col json :
  starts_with c json -> starts_with c (Android.column_body ns ts get col json).
Proof.
  intros Hs. unfold Android.column_body.
  apply Android_put_value_starts. apply starts_with_append.
  apply starts_with_append. destruct (0 <? col)%nat; [|exact Hs].
  now apply starts_with_append.
Qed.

Lemma Android_resultToJson_starts {RT : Runtime} (m : MaterializedQueryResult) :
  starts_with "[" (Android.resultToJson m).
Proof.
  unfold Android.resultToJson. apply starts_with_append.
  apply for_loop_invariant; [|reflexivity].
  intros row json Hs. unfold Android.row_body. apply starts_with_append.
  apply for_loop_invariant.
  - intros col json'. apply Android_column_body_starts.
  - apply starts_with_append. destruct (0 <? row)%nat; [|exact Hs].
    now apply starts_with_append.
Qed.

Lemma Android_queryResultToJson_starts {RT : Runtime} (q : QueryResult) :
  starts_with "[" (Android.queryResultToJson q).
Proof.
  unfold Android.queryResultToJson.
  assert (Hloop : forall chunks st,
             starts_with "[" st.1 ->
             starts_with "[" (Android.fetch_loop q chunks st).1).
  { induction chunks as [|c chunks IH]; intros st Hst; simpl; [exact Hst|].
    destruct (0 <? chunk_size c)%nat; [|exact Hst].
    apply IH. apply (for_loop_invariant (fun st => starts_with "[" st.1));
      [|exact Hst].
    intros row [json b] Hs. unfold Android.chunk_row_body. simpl.
    apply starts_with_append. apply for_loop_invariant.
    - intros col json'. apply Android_column_body_starts.
    - apply starts_with_append. destruct (negb b); [|exact Hs].
      now apply starts_with_append. }
  specialize (Hloop (stream q) ("" << "[", true) eq_refl).
  destruct (Android.fetch_loop q (stream q) ("" << "[", true)) as [json b].
  now apply starts_with_append.
Qed.

Lemma c_str_starts (c : ascii) (s : string) :
  uchar c <> 0 -> starts_with c s -> starts_with c (c_str s).
Proof.
  intros Hc. destruct s as [|c' s]; simpl; [auto|].
  intros ->. apply Z.eqb_neq in Hc. now rewrite Hc.
Qed.

Lemma starts_with_bracket_not_error (s : string) :
  starts_with "[" s -> String.prefix "ERROR:" s = false.
Proof. destruct s as [|c s]; simpl; [tauto|]. now intros ->. Qed.
(** ** Errors carried by a result *)

Lemma c_str_no_NUL (s : string) : no_NUL s = true -> c_str s = s.
Proof.
  induction s as [|c s IH]; simpl; [reflexivity|].
  intros Hs. apply andb_true_iff in Hs as [Hc Hs].
  apply negb_true_iff in Hc. rewrite Hc. now rewrite IH.
Qed.

Lemma Android_load_Connection (h : gmap Z Android.Object) (p : Z)
    (conn : Connection) :
  h !! p = Some (Android.Obj_Connection conn) ->
  Android.load_Connection p h = Ret (conn, h).
Proof.
  intros Hlive. unfold Android.load_Connection.
  rewrite (M_bind_Ret _ _ _ _ _ (load_live _ _ _ Hlive)). reflexivity.
Qed.

Lemma Ios_load_Connection (h : gmap Z Ios.Object) (p d : Z)
    (conn : Connection) :
  h !! p = Some (Ios.Obj_ConnectionWrapper
                   {| Ios.conn := Some conn; Ios.db_wrapper := d |}) ->
  Ios.load_Connection p h = Ret (conn, h).
Proof.
  intros Hlive. unfold Ios.load_Connection, Ios.load_ConnectionWrapper.
  unfold M_bind at 1.
  rewrite (M_bind_Ret _ _ _ _ _ (load_live _ _ _ Hlive)). reflexivity.
Qed.

(** C4.  When the result the engine answers carries an error, a query or
    an execution of a prepared statement returns the error and nothing
    else: on Android the text [ERROR:] followed by the engine's message,
    on iOS a null pointer, with the message in the [error_out] slot (when
    the caller gave one); no serializer runs, no engine call follows and
    native memory is not touched.  When the result carries no error the
    call returns the serialized rows, and the [error_out] slot is left as
    it was; the serialized rows start with a bracket, so they are never
    taken for an [ERROR:] text.  The message crosses the boundary as a C
    string: it is unchanged when it has no NUL byte. *)
Theorem error_result_returns_only_the_error {RT : Runtime}
    (connPtr stmtPtr : Z) (sql : string) :
  connPtr <> 0 -> stmtPtr <> 0 ->
  (forall (h : gmap Z Android.Object) (conn : Connection)
          (w : Android.PreparedStatementWrapper),
      h !! connPtr = Some (Android.Obj_Connection conn) ->
      h !! stmtPtr = Some (Android.Obj_PreparedStatementWrapper w) ->
      (exists k,
          Android.query connPtr (Some sql) h = Vis (Connection_Query conn sql) k /\
          forall result : MaterializedQueryResult,
            k (inr result)
            = Ret (if HasError result
                   then Some (c_str ("ERROR:" << GetError result))
                   else Some (c_str (Android.resultToJson result)), h)) /\
      (exists k,
          Android.executePrepared stmtPtr h
          = Vis (PreparedStatement_Execute (Android.stmt w)
                   (Android.bindings w) false) k /\
          forall result : QueryResult,
            k (inr result)
            = Ret (if HasError result
                   then Some (c_str ("ERROR:" << GetError result))
                   else Some (c_str (Android.queryResultToJson result)), h))) /\
  (forall (h : gmap Z Ios.Object) (conn : Connection) (d : Z)
          (w : Ios.PreparedWrapper) (error_out : ErrorOut),
      h !! connPtr = Some (Ios.Obj_ConnectionWrapper
                             {| Ios.conn := Some conn; Ios.db_wrapper := d |}) ->
      h !! stmtPtr = Some (Ios.Obj_PreparedWrapper w) ->
      (exists k,
          Ios.duckdb_ios_query connPtr (Some sql) error_out h
          = Vis (Connection_Query conn sql) k /\
          forall result : MaterializedQueryResult,
            k (inr result)
            = Ret (if HasError result
                   then (None,
                         match error_out with
                         | Some _ => Some (Some (c_str (GetError result)))
                         | None => None
                         end)
                   else (Some (c_str (Ios.resultToJson result)), error_out), h)) /\
      (exists k,
          Ios.duckdb_ios_execute_prepared stmtPtr error_out h
          = Vis (PreparedStatement_Execute (Ios.stmt w) (Ios.bindings w) true) k /\
          forall result : QueryResult,
            k (inr result)
            = Ret (if HasError result
                   then (None,
                         match error_out with
                         | Some _ => Some (Some (c_str (GetError result)))
                         | None => None
                         end)
                   else (Some (c_str (Ios.resultToJson result)), error_out), h))) /\
  (forall (m : MaterializedQueryResult) (q : QueryResult),
      String.prefix "ERROR:" (c_str (Android.resultToJson m)) = false /\
      String.prefix "ERROR:" (c_str (Android.queryResultToJson q)) = false) /\
  (forall msg : string,
      no_NUL msg = true ->
      c_str ("ERROR:" << msg) = "ERROR:" << msg /\ c_str msg = msg).
Proof.
  intros Hc Hs. apply Z.eqb_neq in Hc, Hs.
  split; [intros h conn w Hconn Hstmt; split|].
  3: split; [intros h conn d w error_out Hconn Hstmt; split | split].
  - unfold Android.query. rewrite Hc. simpl.
    rewrite (M_bind_Ret _ _ _ _ _ (Android_load_Connection h connPtr conn Hconn)).
    eexists. split; [reflexivity|].
    intros result. simpl. destruct (HasError result); reflexivity.
  - unfold Android.executePrepared. rewrite Hs.
    rewrite (M_bind_Ret _ _ _ _ _ (Android_load_wrapper h stmtPtr w Hstmt)).
    eexists. split; [reflexivity|].
    intros result. simpl. destruct (HasError result); reflexivity.
  - unfold Ios.duckdb_ios_query. rewrite Hc.
    rewrite (M_bind_Ret _ _ _ _ _ (Ios_load_Connection h connPtr d conn Hconn)).
    eexists. split; [reflexivity|].
    intros result. simpl. destruct (HasError result); reflexivity.
  - unfold Ios.duckdb_ios_execute_prepared. rewrite Hs.
    rewrite (M_bind_Ret _ _ _ _ _ (Ios_load_wrapper h stmtPtr w Hstmt)).
    eexists. split; [reflexivity|].
    intros result. simpl. destruct (HasError result); reflexivity.
  - intros m q. split; apply starts_with_bracket_not_error, c_str_starts;
      solve [discriminate | apply Android_resultToJson_starts
             | apply Android_queryResultToJson_starts].
  - intros msg Hmsg. split.
    + now apply (c_str_no_NUL ("ERROR:" << msg)).
    + now apply c_str_no_NUL.
Qed.

(** ** A new statement *)

Lemma new_fresh {Object : Type} (o : Object) (h : gmap Z Object) :
  exists p, new o h = Ret (p, <[p := o]> h) /\ p <> 0 /\ h !! p = None.
Proof.
  unfold new. eexists. split; [reflexivity|].
  pose proof (is_fresh (dom h ∪ {[0]})) as Hf.
  split.
  - intros E. apply Hf. rewrite E. set_solver.
  - apply not_elem_of_dom. set_solver.
Qed.

Lemma resized_nil (n : nat) :
  resized (Z.of_nat n) [] = replicate n Value_null.
Proof. unfold resized. now rewrite Nat2Z.id, resize_nil. Qed.

(** C9.  A prepare that the engine answers with a statement without
    error returns a new, non-null handle; the statement's store has as
    many slots as its [named_param_map] has entries, all of them null; and
    an execution right after passes exactly that list of nulls to the
    engine. *)
Theorem prepare_sizes_the_store {RT : Runtime} (connPtr : Z) (sql : string)
    (conn : Connection) (stmt : PreparedStatement) :
  connPtr <> 0 -> stmt_HasError stmt = false ->
  (forall h : gmap Z Android.Object,
      h !! connPtr = Some (Android.Obj_Connection conn) ->
      exists k p,
        Android.prepare connPtr (Some sql) h = Vis (Connection_Prepare conn sql) k /\
        p <> 0 /\ h !! p = None /\
        let h' := <[p := Android.Obj_PreparedStatementWrapper
                            {| Android.stmt := stmt;
                               Android.bindings :=
                                 replicate (size (named_param_map stmt)) Value_null |}]> h in
        k (inr stmt) = Ret (p, h') /\
        exists k',
          Android.executePrepared p h'
          = Vis (PreparedStatement_Execute stmt
                   (replicate (size (named_param_map stmt)) Value_null) false) k') /\
  (forall (h : gmap Z Ios.Object) (d : Z) (error_out : ErrorOut),
      h !! connPtr = Some (Ios.Obj_ConnectionWrapper
                             {| Ios.conn := Some conn; Ios.db_wrapper := d |}) ->
      exists k p,
        Ios.duckdb_ios_prepare connPtr (Some sql) error_out h
        = Vis (Connection_Prepare conn sql) k /\
        p <> 0 /\ h !! p = None /\
        let h' := <[p := Ios.Obj_PreparedWrapper
                            {| Ios.stmt := stmt;
                               Ios.bindings :=
                                 replicate (size (named_param_map stmt)) Value_null |}]> h in
        k (inr stmt) = Ret ((p, error_out), h') /\
        exists k',
          Ios.duckdb_ios_execute_prepared p None h'
          = Vis (PreparedStatement_Execute stmt
                   (replicate (size (named_param_map stmt)) Value_null) true) k').
Proof.
  intros Hc Hok. apply Z.eqb_neq in Hc. split.
  - intros h Hlive.
    destruct (new_fresh (Android.Obj_PreparedStatementWrapper
                           {| Android.stmt := stmt; Android.bindings := [] |}) h)
      as (p & Hnew & Hp & Hfresh).
    unfold Android.prepare. rewrite Hc. simpl.
    rewrite (M_bind_Ret _ _ _ _ _ (Android_load_Connection h connPtr conn Hlive)).
    eexists. exists p. split; [reflexivity|]. split; [exact Hp|].
    split; [exact Hfresh|]. simpl. rewrite Hok. split.
    + rewrite (M_bind_Ret _ _ _ _ _ Hnew).
      rewrite (M_bind_Ret _ _ _ _ _
                 (store_live _ p _ _ (lookup_insert_eq h p _))).
      unfold mret, M_ret. rewrite insert_insert_eq, resized_nil.
      reflexivity.
    + apply Z.eqb_neq in Hp. unfold Android.executePrepared. rewrite Hp.
      rewrite (M_bind_Ret _ _ _ _ _
                 (Android_load_wrapper _ p _ (lookup_insert_eq h p _))).
      eexists. reflexivity.
  - intros h d error_out Hlive.
    destruct (new_fresh (Ios.Obj_PreparedWrapper
                           {| Ios.stmt := stmt; Ios.bindings := [] |}) h)
      as (p & Hnew & Hp & Hfresh).
    unfold Ios.duckdb_ios_prepare. rewrite Hc.
    rewrite (M_bind_Ret _ _ _ _ _ (Ios_load_Connection h connPtr d conn Hlive)).
    eexists. exists p. split; [reflexivity|]. split; [exact Hp|].
    split; [exact Hfresh|]. simpl. rewrite Hok. split.
    + rewrite (M_bind_Ret _ _ _ _ _ Hnew).
      rewrite (M_bind_Ret _ _ _ _ _
                 (store_live _ p _ _ (lookup_insert_eq h p _))).
      unfold mret, M_ret. rewrite insert_insert_eq, resized_nil.
      reflexivity.
    + apply Z.eqb_neq in Hp. unfold Ios.duckdb_ios_execute_prepared. rewrite Hp.
      rewrite (M_bind_Ret _ _ _ _ _
                 (Ios_load_wrapper _ p _ (lookup_insert_eq h p _))).
      eexists. reflexivity.
Qed.

(** ** Null handles *)

(** C8 as it is stated fails: with a null handle
    [duckdb_ios_clear_bindings] returns nothing and writes no message. *)
Lemma null_handle_clear_bindings_is_silent :
  @ios_call sample_runtime ICall_clear_bindings 0 ∅
  = Ret ({| returned := Returns_nothing; error_slot := None |}, ∅) /\
  reports_failure {| returned := Returns_nothing; error_slot := None |} = false /\
  ~ @null_handle_reports_failure sample_runtime.
Proof.
  split; [reflexivity|]. split; [reflexivity|].
  intros [_ Hall].
  destruct (Hall ICall_clear_bindings ∅) as (reply & Hrun & Hrep).
  injection Hrun as <-. discriminate Hrep.
Qed.

(** C8, amended.  Every entry point that takes a handle, called with the
    null handle, returns at once: it makes no engine call and leaves
    native memory as it is.  An entry point that returns a value returns
    its error sentinel (on Android an [ERROR:] text, the handle 0 or
    false; on iOS a null pointer or false), and an iOS entry point that
    was given an [error_out] slot writes a message there.  The [void]
    entry points (close, disconnect and destroy on both platforms, clear
    bindings on iOS) return nothing and write nothing. *)
Theorem null_handle_fails_locally {RT : Runtime} :
  (forall (c : AndroidCall) (h : gmap Z Android.Object),
      exists reply,
        android_call c 0 h = Ret (reply, h) /\
        (if android_is_void c then returned reply = Returns_nothing
         else is_failure_sentinel (returned reply) = true) /\
        error_slot reply = None) /\
  (forall (c : IosCall) (h : gmap Z Ios.Object),
      exists reply,
        ios_call c 0 h = Ret (reply, h) /\
        (if ios_is_void c then returned reply = Returns_nothing
         else is_failure_sentinel (returned reply) = true) /\
        wrote_error (error_slot reply)
        = match ios_error_out c with Some _ => true | None => false end).
Proof.
  split.
  - intros c h. destruct c as [| | |sql|sql|sql| |op index| |];
      try (eexists; split; [reflexivity | split; reflexivity]).
    destruct op; eexists; (split; [reflexivity | split; reflexivity]).
  - intros c h.
    destruct c as [|e| |sql e|sql r e|sql e| |op index| |e|];
      try (eexists; split; [reflexivity | split; reflexivity]);
      try (destruct e; eexists; (split; [reflexivity | split; reflexivity])).
    destruct op; eexists; (split; [reflexivity | split; reflexivity]).
Qed.

(** * Instances *)

(** ** The statements above at the sample objects *)

Lemma sample_same_rows : same_rows sample_chunked sample_materialized.
Proof.
  split; [reflexivity|]. split; [reflexivity|]. split; [reflexivity|].
  simpl. split; [|split; [|exact I]].
  - intros col row Hc Hr.
    destruct row as [|row]; [|cbv in Hr; lia].
    destruct col as [|[|col]]; [reflexivity | reflexivity | cbv in Hc; lia].
  - intros col row Hc Hr.
    destruct row as [|row]; [|cbv in Hr; lia].
    destruct col as [|[|col]]; [reflexivity | reflexivity | cbv in Hc; lia].
Defined.

Lemma serializers_agree_witness :
  same_rows sample_chunked sample_materialized /\
  @Android.queryResultToJson sample_runtime sample_chunked
  = @Android.resultToJson sample_runtime sample_materialized /\
  @Ios.resultToJson sample_runtime sample_chunked
  = @Android.resultToJson sample_runtime sample_materialized /\
  @Android.resultToJson sample_runtime sample_materialized
  = @array_text sample_runtime ["a"; "b"] [INTEGER; VARCHAR] 2
      (materialized_rows sample_materialized).
Proof.
  split; [exact sample_same_rows|].
  exact (@serializers_agree sample_runtime sample_chunked sample_materialized
           sample_same_rows).
Defined.

Lemma integer_values_render_exactly_witness :
  integer_range UBIGINT = Some (0, 2 ^ 64 - 1) /\
  0 <= 18446744073709551615 <= 2 ^ 64 - 1 /\
  @Android.put_value sample_runtime "" UBIGINT
    (Value_integer UBIGINT 18446744073709551615)
  = "" << decimal_literal 18446744073709551615 /\
  @Ios.put_value sample_runtime "" UBIGINT
    (Value_integer UBIGINT 18446744073709551615)
  = "" << decimal_literal 18446744073709551615 /\
  parse_integer (decimal_literal 18446744073709551615)
  = Some 18446744073709551615 /\
  all_digits (decimal_literal 18446744073709551615)
  = (0 <=? 18446744073709551615).
Proof.
  split; [reflexivity|]. split; [lia|].
  apply (@integer_values_render_exactly sample_runtime UBIGINT
           0 (2 ^ 64 - 1) 18446744073709551615 ""); [reflexivity | lia].
Defined.

Lemma bind_grows_and_writes_witness :
  1 <= 5 <= INT_MAX /\
  5 <= @alloc_limit sample_runtime /\
  (exists b',
      @android_bind sample_runtime (A_bindLong 42) 32 5 sample_android_heap
      = Ret (true,
             <[32 := Android.Obj_PreparedStatementWrapper
                       {| Android.stmt := sample_stmt;
                          Android.bindings := b' |}]> sample_android_heap) /\
      store_after_bind [Value_null; Value_null] 5 (Value_integer BIGINT 42) b') /\
  (exists b',
      @ios_bind sample_runtime (I_bind_int64 42) 32 5 sample_ios_heap
      = Ret (true,
             <[32 := Ios.Obj_PreparedWrapper
                       {| Ios.stmt := sample_stmt; Ios.bindings := b' |}]>
               sample_ios_heap) /\
      store_after_bind [Value_null; Value_null] 5 (Value_integer BIGINT 42) b').
Proof.
  assert (Hi : 1 <= 5 <= INT_MAX) by (unfold INT_MAX; lia).
  assert (Hl : 5 <= @alloc_limit sample_runtime) by (simpl; lia).
  split; [exact Hi|]. split; [exact Hl|].
  destruct (@bind_grows_and_writes sample_runtime 5 Hi) as [HA HI].
  split.
  - apply (HA (A_bindLong 42) sample_android_heap 32 sample_android_wrapper);
      [lia | reflexivity | unfold INT_MAX; simpl; lia | right; exact Hl].
  - apply (HI (I_bind_int64 42) sample_ios_heap 32 sample_ios_wrapper);
      [lia | reflexivity | right; exact Hl].
Defined.

Lemma bind_null_string_is_bind_null_witness :
  1 <= 1 <= INT_MAX /\
  1 <= @alloc_limit sample_runtime /\
  (exists b',
      @Android.bindString sample_runtime 32 1 None sample_android_heap
      = Ret (true,
             <[32 := Android.Obj_PreparedStatementWrapper
                       {| Android.stmt := sample_stmt;
                          Android.bindings := b' |}]> sample_android_heap) /\
      store_after_bind [Value_null; Value_null] 1 Value_null b') /\
  @Android.bindString sample_runtime 32 1 None sample_android_heap
  = @Android.bindNull sample_runtime 32 1 sample_android_heap /\
  @Ios.duckdb_ios_bind_string sample_runtime 32 1 None sample_ios_heap
  = @Ios.duckdb_ios_bind_null sample_runtime 32 1 sample_ios_heap.
Proof.
  assert (Hi : 1 <= 1 <= INT_MAX) by (unfold INT_MAX; lia).
  assert (Hl : 1 <= @alloc_limit sample_runtime) by (simpl; lia).
  split; [exact Hi|]. split; [exact Hl|].
  destruct (@bind_null_string_is_bind_null sample_runtime 1 Hi) as [HA HI].
  destruct (HA sample_android_heap 32 sample_android_wrapper)
    as [He Hb]; [lia | reflexivity | unfold INT_MAX; simpl; lia |].
  destruct (HI sample_ios_heap 32 sample_ios_wrapper)
    as [He' _]; [lia | reflexivity |].
  split; [exact (Hb (or_intror Hl))|]. split; [exact He | exact He'].
Defined.

Lemma bind_at_INT_MIN_witness :
  32 <> 0 /\
  @android_bind sample_runtime (A_bindLong 42) 32 INT_MIN sample_android_heap
  = Crash /\
  @ios_bind sample_runtime (I_bind_int64 42) 32 INT_MIN sample_ios_heap
  = Ret (false, sample_ios_heap).
Proof.
  assert (Hp : 32 <> 0) by lia.
  split; [exact Hp|].
  destruct (@bind_at_INT_MIN sample_runtime 32 Hp) as [HA HI].
  split; [apply HA | apply HI].
Defined.

Lemma store_never_shrinks_witness :
  32 <> 0 /\
  all_rets (fun r => exists n', android_store_size r.2 32 n' /\ (2 <= n')%nat)
    (@android_run sample_runtime 32 sample_ops_android sample_android_heap) /\
  no_crash (@android_run sample_runtime 32 sample_ops_android sample_android_heap) /\
  all_rets (fun r => exists n', ios_store_size r.2 32 n' /\ (2 <= n')%nat)
    (@ios_run sample_runtime 32 sample_ops_ios sample_ios_heap) /\
  no_crash (@ios_run sample_runtime 32 sample_ops_ios sample_ios_heap).
Proof.
  assert (Hp : 32 <> 0) by lia.
  split; [exact Hp|].
  destruct (@store_never_shrinks sample_runtime 32 Hp) as (_ & _ & HA & HI).
  assert (HsA : android_store_size sample_android_heap 32 2).
  { exists sample_android_wrapper. split; reflexivity. }
  assert (HsI : ios_store_size sample_ios_heap 32 2).
  { exists sample_ios_wrapper. split; reflexivity. }
  assert (HopsA : Forall (op_index_in (B := AndroidBind) INT_MIN INT_MAX)
                    sample_ops_android).
  { repeat constructor; unfold INT_MIN, INT_MAX; simpl; lia. }
  assert (HopsA' : Forall (op_index_in (B := AndroidBind) (INT_MIN + 1)
                             (Z.min INT_MAX (@alloc_limit sample_runtime)))
                     sample_ops_android).
  { repeat constructor; unfold INT_MIN, INT_MAX; simpl; lia. }
  assert (HopsI' : Forall (op_index_in (B := IosBind) INT_MIN
                             (Z.min INT_MAX (@alloc_limit sample_runtime)))
                     sample_ops_ios).
  { repeat constructor; unfold INT_MIN, INT_MAX; simpl; lia. }
  assert (HopsI : Forall (op_index_in (B := IosBind) INT_MIN INT_MAX)
                    sample_ops_ios).
  { repeat constructor; unfold INT_MIN, INT_MAX; simpl; lia. }
  destruct (HA sample_ops_android sample_android_heap 2%nat HsA
              ltac:(unfold INT_MAX; lia) HopsA) as [HA1 HA2].
  destruct (HI sample_ops_ios sample_ios_heap 2%nat HsI HopsI) as [HI1 HI2].
  split; [exact HA1|]. split; [exact (HA2 HopsA')|].
  split; [exact HI1 | exact (HI2 HopsI')].
Defined.

Lemma error_result_returns_only_the_error_witness :
  16 <> 0 /\ 32 <> 0 /\
  (exists k,
      @Android.query sample_runtime 16 (Some "SELECT") sample_android_heap
      = Vis (Connection_Query {| conn_id := 1 |} "SELECT") k /\
      k (inr sample_failed)
      = Ret (Some "ERROR:Parser Error: syntax error at end of input",
             sample_android_heap)) /\
  (exists k,
      @Ios.duckdb_ios_query sample_runtime 16 (Some "SELECT") (Some None)
        sample_ios_heap
      = Vis (Connection_Query {| conn_id := 1 |} "SELECT") k /\
      k (inr sample_failed)
      = Ret ((None, Some (Some "Parser Error: syntax error at end of input")),
             sample_ios_heap)).
Proof.
  assert (Hc : 16 <> 0) by lia. assert (Hs : 32 <> 0) by lia.
  split; [exact Hc|]. split; [exact Hs|].
  destruct (@error_result_returns_only_the_error sample_runtime 16 32 "SELECT"
              Hc Hs) as (HA & HI & _).
  destruct (HA sample_android_heap {| conn_id := 1 |} sample_android_wrapper
              eq_refl eq_refl) as [(k & Hk & Hres) _].
  destruct (HI sample_ios_heap {| conn_id := 1 |} 8 sample_ios_wrapper
              (Some None) eq_refl eq_refl) as [(k' & Hk' & Hres') _].
  split.
  - exists k. split; [exact Hk | exact (Hres sample_failed)].
  - exists k'. split; [exact Hk' | exact (Hres' sample_failed)].
Defined.

Lemma prepare_sizes_the_store_witness :
  16 <> 0 /\ stmt_HasError sample_stmt = false /\
  (exists k p,
      Android.prepare 16 (Some "SELECT $1, $2") sample_android_heap
      = Vis (Connection_Prepare {| conn_id := 1 |} "SELECT $1, $2") k /\
      p <> 0 /\ sample_android_heap !! p = None /\
      k (inr sample_stmt)
      = Ret (p, <[p := Android.Obj_PreparedStatementWrapper
                         {| Android.stmt := sample_stmt;
                            Android.bindings := [Value_null; Value_null] |}]>
                  sample_android_heap)).
Proof.
  assert (Hc : 16 <> 0) by lia.
  split; [exact Hc|]. split; [reflexivity|].
  destruct (@prepare_sizes_the_store sample_runtime 16 "SELECT $1, $2"
              {| conn_id := 1 |} sample_stmt Hc eq_refl) as [HA _].
  destruct (HA sample_android_heap eq_refl) as (k & p & Hk & Hp & Hf & Hres & _).
  exists k, p. split; [exact Hk|]. split; [exact Hp|]. split; [exact Hf|].
  exact Hres.
Defined.

(** ** Examples *)

(** The scenario of the specification: the rows [(1,'x'), (2,NULL)] of
    the columns [a] and [b]. *)
Example scenario_json :
  @Android.resultToJson sample_runtime sample_materialized
  = with_quotes "[{'a':1,'b':'x'},{'a':2,'b':null}]" /\
  @Android.queryResultToJson sample_runtime sample_chunked
  = with_quotes "[{'a':1,'b':'x'},{'a':2,'b':null}]" /\
  @Ios.resultToJson sample_runtime sample_chunked
  = with_quotes "[{'a':1,'b':'x'},{'a':2,'b':null}]".
Proof. repeat split; vm_compute; reflexivity. Qed.

(** A result without rows is the empty array. *)
Example no_rows_json :
  @Android.resultToJson sample_runtime sample_failed = "[]".
Proof. vm_compute. reflexivity. Qed.

(** The largest [UBIGINT]. *)
Example ubigint_max_json :
  @Android.put_value sample_runtime "" UBIGINT
    (Value_integer UBIGINT 18446744073709551615)
  = "18446744073709551615".
Proof. vm_compute. reflexivity. Qed.

(** The most negative [BIGINT]. *)
Example bigint_min_json :
  @Ios.put_value sample_runtime "" BIGINT
    (Value_integer BIGINT (-9223372036854775808))
  = "-9223372036854775808".
Proof. vm_compute. reflexivity. Qed.

(** The text [line1], newline, [line2], tab, [tab], quotation mark,
    [quote]. *)
Example escape_sample :
  @Android.escapeJsonString sample_runtime
    ("line1" << ch (ascii_of_Z 10) << "line2" << ch (ascii_of_Z 9) << "tab"
       << ch DQUOTE << "quote")
  = with_quotes "'line1" << ch BACKSLASH << "nline2" << ch BACKSLASH << "ttab"
      << ch BACKSLASH << with_quotes "'quote'".
Proof. vm_compute. reflexivity. Qed.

(** The solidus, which JSON allows to escape, is written as it is. *)
Example solidus_is_not_escaped :
  @Android.escapeJsonString sample_runtime "a/b" = with_quotes "'a/b'" /\
  @Ios.escapeJsonString sample_runtime "a/b" = with_quotes "'a/b'".
Proof. split; vm_compute; reflexivity. Qed.

(** A bind at index 5 of a store of two slots, then a clear. *)
Example bind_at_5_then_clear :
  @android_bind sample_runtime (A_bindLong 42) 32 5 sample_android_heap
  = Ret (true, sample_heap_after_bind) /\
  Android.clearBindings 32 sample_heap_after_bind
  = Ret (true,
         <[32 := Android.Obj_PreparedStatementWrapper
                   {| Android.stmt := sample_stmt;
                      Android.bindings := replicate 5 Value_null |}]>
           sample_android_heap).
Proof.
  split.
  - rewrite (android_bind_live (A_bindLong 42) sample_android_heap 32 5
               sample_android_wrapper);
      [reflexivity | lia | reflexivity | unfold INT_MAX; lia
       | unfold INT_MAX; simpl; lia | reflexivity].
  - rewrite (Android_clearBindings_live sample_heap_after_bind 32
               {| Android.stmt := sample_stmt;
                  Android.bindings :=
                    [Value_null; Value_null; Value_null; Value_null;
                     Value_integer BIGINT 42] |});
      [| lia | reflexivity].
    unfold sample_heap_after_bind. now rewrite insert_insert_eq.
Qed.

(** * Further properties *)

(** ** The text-literal encoder *)

Lemma all_bytes_append (P : ascii -> bool) (s t : string) :
  all_bytes P (s << t) = all_bytes P s && all_bytes P t.
Proof.
  induction s as [|c s IH]; [reflexivity|].
  change (P c && all_bytes P (s << t) = P c && all_bytes P s && all_bytes P t).
  rewrite IH. apply andb_assoc.
Qed.

Lemma length_append (s t : string) :
  String.length (s << t) = (String.length s + String.length t)%nat.
Proof.
  induction s as [|c s IH]; [reflexivity|].
  change (S (String.length (s << t)) = S (String.length s + String.length t)).
  now rewrite IH.
Qed.

Lemma escape_of_byte_not_control (c : ascii) :
  all_bytes not_control (escape_of_byte c) = true.
Proof. each_byte c; vm_compute; reflexivity. Qed.

Lemma escape_of_bytes_not_control (str : string) :
  all_bytes not_control (escape_of_bytes str) = true.
Proof.
  induction str as [|c str IH]; [reflexivity|].
  change (all_bytes not_control (escape_of_byte c << escape_of_bytes str) = true).
  now rewrite all_bytes_append, escape_of_byte_not_control, IH.
Qed.

Lemma Android_escapeJsonString_not_control {RT : Runtime} (str : string) :
  all_bytes not_control (Android.escapeJsonString str) = true.
Proof.
  rewrite Android_escapeJsonString_spec.
  change (not_control DQUOTE
          && all_bytes not_control (escape_of_bytes str << ch DQUOTE) = true).
  now rewrite all_bytes_append, escape_of_bytes_not_control.
Qed.

(** X1.  The literal [escapeJsonString] writes has no control byte: every
    byte of it is 0x20 or above, whatever the input holds. *)
Theorem escapeJsonString_has_no_control_byte {RT : Runtime} (str : string) :
  all_bytes not_control (Android.escapeJsonString str) = true /\
  all_bytes not_control (Ios.escapeJsonString str) = true.
Proof.
  rewrite Ios_escapeJsonString_Android.
  split; apply Android_escapeJsonString_not_control.
Qed.

Lemma escape_of_byte_length (c : ascii) :
  (1 <= String.length (escape_of_byte c) <= 6)%nat.
Proof. each_byte c; vm_compute; lia. Qed.

Lemma escape_of_bytes_length (str : string) :
  (String.length str <= String.length (escape_of_bytes str)
   <= 6 * String.length str)%nat.
Proof.
  induction str as [|c str IH]; [simpl; lia|].
  change (S (String.length str)
          <= String.length (escape_of_byte c << escape_of_bytes str)
          <= 6 * S (String.length str))%nat.
  rewrite length_append. pose proof (escape_of_byte_length c). lia.
Qed.

(** X2.  The literal of a text of [n] bytes has at least [n + 2] and at
    most [6 * n + 2] bytes: two quotation marks, and one to six bytes for
    every byte of the text. *)
Theorem escapeJsonString_length {RT : Runtime} (str : string) :
  (String.length str + 2 <= String.length (Android.escapeJsonString str)
   <= 6 * String.length str + 2)%nat /\
  String.length (Ios.escapeJsonString str)
  = String.length (Android.escapeJsonString str).
Proof.
  rewrite Ios_escapeJsonString_spec, Android_escapeJsonString_spec.
  split; [|reflexivity].
  change (String.length (String DQUOTE (escape_of_bytes str << ch DQUOTE)))
    with (S (String.length (escape_of_bytes str << ch DQUOTE))).
  rewrite length_append. pose proof (escape_of_bytes_length str).
  simpl String.length. lia.
Qed.

(** X3.  The literal does not depend on the platform or on whether plain
    [char] is signed there: any two runtimes give the same bytes, on
    Android and on iOS. *)
Theorem escapeJsonString_is_portable (RT1 RT2 : Runtime) (str : string) :
  @Android.escapeJsonString RT1 str = @Android.escapeJsonString RT2 str /\
  @Ios.escapeJsonString RT1 str = @Ios.escapeJsonString RT2 str /\
  @Android.escapeJsonString RT1 str = @Ios.escapeJsonString RT2 str.
Proof.
  split; [|split].
  - now rewrite (@Android_escapeJsonString_spec RT1),
      (@Android_escapeJsonString_spec RT2).
  - now rewrite (@Ios_escapeJsonString_spec RT1),
      (@Ios_escapeJsonString_spec RT2).
  - now rewrite (@Android_escapeJsonString_spec RT1),
      (@Ios_escapeJsonString_spec RT2).
Qed.

(** ** The result serializers *)

(** X4.  Every serializer writes an array of records.  The
    random-access serializer writes one record for every row
    [0 .. RowCount - 1], in this order; the streaming serializers write
    one for every row of every chunk fetched before the end of the
    stream, in the order of the chunks and of the rows in them.  A record
    has one pair for every column [0 .. ColumnCount - 1], in the order of
    the columns, columns of the same name included; there are commas
    between records and between pairs and nothing else. *)
Theorem serializers_write_arrays_of_records {RT : Runtime} :
  (forall m : MaterializedQueryResult,
      Android.resultToJson m
      = array_text (names m) (types m) (ColumnCount m) (materialized_rows m)) /\
  (forall q : QueryResult,
      Android.queryResultToJson q
      = array_text (names q) (types q) (ColumnCount q) (stream_rows (stream q)) /\
      Ios.resultToJson q
      = array_text (names q) (types q) (ColumnCount q) (stream_rows (stream q))).
Proof.
  split.
  - intros m. apply Android_resultToJson_records.
  - intros q. rewrite Ios_resultToJson_Android.
    split; apply Android_queryResultToJson_records.
Qed.

Lemma fetched_app_empty (pre post : list DataChunk) (c : DataChunk) :
  chunk_size c = 0%nat -> fetched (pre ++ c :: post) = fetched pre.
Proof.
  intros Hc. induction pre as [|x pre IH]; simpl.
  - now rewrite Hc.
  - destruct (0 <? chunk_size x)%nat; [now rewrite IH | reflexivity].
Qed.

(** X5.  A result without rows is written as the empty array [[]]: by
    the random-access serializer when [RowCount] is 0, by the streaming
    serializers when the first [Fetch()] gives [nullptr] or a chunk
    without rows, whatever the columns are. *)
Theorem no_rows_is_empty_array {RT : Runtime} :
  (forall m : MaterializedQueryResult,
      RowCount m = 0%nat -> Android.resultToJson m = "[]") /\
  (forall q : QueryResult,
      match stream q with
      | [] => True
      | c :: _ => chunk_size c = 0%nat
      end ->
      Android.queryResultToJson q = "[]" /\ Ios.resultToJson q = "[]").
Proof.
  split.
  - intros m Hm. rewrite Android_resultToJson_records.
    unfold materialized_rows. now rewrite Hm.
  - intros q Hq.
    rewrite Ios_resultToJson_Android, Android_queryResultToJson_records.
    assert (E : stream_rows (stream q) = []).
    { unfold stream_rows. destruct (stream q) as [|c rest]; [reflexivity|].
      simpl. now rewrite Hq. }
    rewrite E. now split.
Qed.

(** X6.  The streaming serializers stop at the first chunk without rows:
    what the stream holds after it is not written. *)
Theorem empty_chunk_ends_the_stream {RT : Runtime} (q : QueryResult)
    (pre post : list DataChunk) (c : DataChunk) :
  chunk_size c = 0%nat ->
  Android.queryResultToJson (with_stream q (pre ++ c :: post))
  = Android.queryResultToJson (with_stream q pre) /\
  Ios.resultToJson (with_stream q (pre ++ c :: post))
  = Ios.resultToJson (with_stream q pre).
Proof.
  intros Hc.
  rewrite !Ios_resultToJson_Android, !Android_queryResultToJson_records.
  unfold stream_rows. simpl stream. now rewrite (fetched_app_empty _ _ _ Hc).
Qed.

(** X7.  A non-null value of a column that is neither boolean nor of an
    integer or floating-point type ([VARCHAR], [DATE], [DECIMAL],
    [HUGEINT], [BLOB], ...) is written as a string literal, and the
    literal decodes to the text [ToString()] gives for the value. *)
Theorem other_types_are_written_as_text {RT : Runtime}
    (type : LogicalTypeId) (val : Value) :
  written_as_text type = true -> IsNull val = false ->
  json_string_decode (Android.put_value "" type val) = Some (ToString val) /\
  json_string_decode (Ios.put_value "" type val) = Some (ToString val).
Proof.
  intros Ht Hv. rewrite Ios_put_value_Android.
  assert (E : Android.put_value "" type val
              = Android.escapeJsonString (ToString val)).
  { unfold Android.put_value. rewrite Hv.
    destruct type; try discriminate Ht; reflexivity. }
  rewrite E, Android_escapeJsonString_spec.
  split; apply json_decode_escape_of_bytes.
Qed.

(** *** The serialized text as a C string *)

Lemma no_NUL_append (s t : string) :
  no_NUL (s << t) = no_NUL s && no_NUL t.
Proof.
  induction s as [|c s IH]; [reflexivity|].
  change (negb (uchar c =? 0) && no_NUL (s << t)
          = negb (uchar c =? 0) && no_NUL s && no_NUL t).
  rewrite IH. apply andb_assoc.
Qed.

Lemma not_control_no_NUL (s : string) :
  all_bytes not_control s = true -> no_NUL s = true.
Proof.
  induction s as [|c s IH]; [reflexivity|]. simpl.
  intros Hs. apply andb_true_iff in Hs as [Hc Hs].
  rewrite IH by exact Hs. rewrite andb_true_r.
  unfold not_control in Hc. apply Z.leb_le in Hc.
  apply negb_true_iff, Z.eqb_neq. lia.
Qed.

Lemma no_NUL_string_of_uint (d : Decimal.uint) :
  no_NUL (NilZero.string_of_uint d) = true.
Proof.
  assert (E : forall d', no_NUL (NilEmpty.string_of_uint d') = true)
    by (induction d'; simpl; auto).
  destruct d; try reflexivity; apply E.
Qed.

Lemma no_NUL_put_uint64 (v : Z) : no_NUL (put_uint64 v) = true.
Proof. apply no_NUL_string_of_uint. Qed.

Lemma no_NUL_put_int64 (v : Z) : no_NUL (put_int64 v) = true.
Proof.
  unfold put_int64. destruct (Z.to_int v); simpl NilZero.string_of_int.
  - apply no_NUL_string_of_uint.
  - change (no_NUL (NilZero.string_of_uint d) = true).
    apply no_NUL_string_of_uint.
Qed.

Lemma no_NUL_join (sep : string) (l : list string) :
  no_NUL sep = true -> Forall (fun x => no_NUL x = true) l ->
  no_NUL (join sep l) = true.
Proof.
  intros Hsep Hl. induction Hl as [|x l Hx Hl IH]; [reflexivity|].
  destruct l as [|y l]; [exact Hx|].
  change (no_NUL (x << sep << join sep (y :: l)) = true).
  now rewrite !no_NUL_append, Hx, Hsep, IH.
Qed.

Section NoNUL.
Context {RT : Runtime}.
Hypothesis put_float_no_NUL : forall bits, no_NUL (put_float bits) = true.
Hypothesis put_double_no_NUL : forall bits, no_NUL (put_double bits) = true.

Lemma no_NUL_escapeJsonString (str : string) :
  no_NUL (Android.escapeJsonString str) = true.
Proof. apply not_control_no_NUL, Android_escapeJsonString_not_control. Qed.

Lemma no_NUL_put_value (type : LogicalTypeId) (val : Value) :
  no_NUL (Android.put_value "" type val) = true.
Proof.
  unfold Android.put_value. destruct (IsNull val); [reflexivity|].
  assert (Hnil : forall s : string, "" << s = s) by reflexivity.
  destruct type; rewrite Hnil;
    auto using no_NUL_escapeJsonString, no_NUL_put_int64, no_NUL_put_uint64.
  destruct (GetValue_bool val); reflexivity.
Qed.

Lemma no_NUL_array_text ns ts ncols (rows : list (nat -> Value)) :
  no_NUL (array_text ns ts ncols rows) = true.
Proof.
  unfold array_text, array_open. rewrite !no_NUL_append.
  rewrite no_NUL_join; [reflexivity | reflexivity |].
  apply Forall_fmap, Forall_forall. intros get _.
  change (no_NUL (record_text ns ts ncols get) = true).
  unfold record_text. rewrite !no_NUL_append.
  rewrite no_NUL_join; [reflexivity | reflexivity |].
  apply Forall_fmap, Forall_forall. intros col _.
  change (no_NUL (pair_text ns ts get col) = true).
  unfold pair_text.
  now rewrite !no_NUL_append, no_NUL_escapeJsonString, no_NUL_put_value.
Qed.
End NoNUL.

(** X8.  When the formatting of [float] and [double] writes no NUL byte,
    no serialized result has one: names and texts are escaped, and
    numbers are digits and a sign.  So the text a query returns through
    [c_str()] or [strcpy] is the whole serialized text. *)
Theorem serialized_text_is_a_C_string {RT : Runtime} :
  (forall bits, no_NUL (put_float bits) = true) ->
  (forall bits, no_NUL (put_double bits) = true) ->
  (forall m : MaterializedQueryResult,
      c_str (Android.resultToJson m) = Android.resultToJson m) /\
  (forall q : QueryResult,
      c_str (Android.queryResultToJson q) = Android.queryResultToJson q /\
      c_str (Ios.resultToJson q) = Ios.resultToJson q).
Proof.
  intros Hf Hd. split.
  - intros m. apply c_str_no_NUL.
    rewrite Android_resultToJson_records. now apply no_NUL_array_text.
  - intros q. rewrite Ios_resultToJson_Android.
    assert (E : c_str (Android.queryResultToJson q) = Android.queryResultToJson q).
    { apply c_str_no_NUL.
      rewrite Android_queryResultToJson_records. now apply no_NUL_array_text. }
    now split.
Qed.

(** ** Opening and closing *)

Lemma insert_then_delete {Object : Type} (h : gmap Z Object) (p : Z) (o : Object) :
  h !! p = None -> delete p (<[p := o]> h) = h.
Proof. intros Hp. rewrite delete_insert_eq. now apply delete_id. Qed.

Lemma free_live {Object : Type} (h : gmap Z Object) (p : Z) (o : Object) :
  h !! p = Some o -> free p h = Ret (tt, delete p h).
Proof. intros E. unfold free. now rewrite E. Qed.

Lemma Android_load_DatabaseWrapper (h : gmap Z Android.Object) (p : Z)
    (w : Android.DatabaseWrapper) :
  h !! p = Some (Android.Obj_DatabaseWrapper w) ->
  Android.load_DatabaseWrapper p h = Ret (w, h).
Proof.
  intros Hlive. unfold Android.load_DatabaseWrapper.
  rewrite (M_bind_Ret _ _ _ _ _ (load_live _ _ _ Hlive)). reflexivity.
Qed.

Lemma Ios_load_DatabaseWrapper (h : gmap Z Ios.Object) (p : Z)
    (w : Ios.DatabaseWrapper) :
  h !! p = Some (Ios.Obj_DatabaseWrapper w) ->
  Ios.load_DatabaseWrapper p h = Ret (w, h).
Proof.
  intros Hlive. unfold Ios.load_DatabaseWrapper.
  rewrite (M_bind_Ret _ _ _ _ _ (load_live _ _ _ Hlive)). reflexivity.
Qed.

Lemma Android_openDatabase_runs (path : jstring)
    (h : gmap Z Android.Object) :
  exists p k,
    p <> 0 /\ h !! p = None /\
    Android.openDatabase path h = Vis (DuckDB_open (open_path path)) k /\
    (forall what,
        k (inl what)
        = Ret (0, <[p := Android.Obj_DatabaseWrapper
                            {| Android.cpp_db := None; Android.c_db := None |}]> h)) /\
    (forall db, exists k2,
        k (inr db) = Vis (LoadStaticExtension_Spatial db) k2 /\
        forall loaded,
          k2 loaded
          = Ret (p, <[p := Android.Obj_DatabaseWrapper
                              {| Android.cpp_db := Some db;
                                 Android.c_db := Some db |}]> h)).
Proof.
  destruct (new_fresh (Android.Obj_DatabaseWrapper
                         {| Android.cpp_db := None; Android.c_db := None |}) h)
    as (p & Hnew & Hp & Hfresh).
  exists p. unfold Android.openDatabase.
  rewrite (M_bind_Ret _ _ _ _ _ Hnew).
  eexists. split; [exact Hp|]. split; [exact Hfresh|]. split.
  { unfold M_bind, engine. simpl. f_equal.
    destruct path as [s|]; reflexivity. }
  split.
  - intros what. reflexivity.
  - intros db. simpl.
    rewrite (store_live _ p _ _ (lookup_insert_eq h p _)). simpl.
    eexists. split; [reflexivity|].
    intros loaded. simpl.
    rewrite (store_live _ p _ _ (lookup_insert_eq _ p _)). simpl.
    unfold mret, M_ret. now rewrite !insert_insert_eq.
Qed.

Lemma Ios_open_database_runs (path : cstring)
    (error_out : ErrorOut) (h : gmap Z Ios.Object) :
  exists p k,
    p <> 0 /\ h !! p = None /\
    Ios.duckdb_ios_open_database path error_out h
    = Vis (DuckDB_open (open_path path)) k /\
    (forall what,
        k (inl what)
        = Ret ((0, Ios.set_error error_out what),
               <[p := Ios.Obj_DatabaseWrapper
                        {| Ios.db := None; Ios.spatial_loaded := false |}]> h)) /\
    (forall d, exists k2,
        k (inr d) = Vis (LoadStaticExtension_Spatial d) k2 /\
        forall loaded,
          k2 loaded
          = Ret ((p, error_out),
                 <[p := Ios.Obj_DatabaseWrapper
                          {| Ios.db := Some d;
                             Ios.spatial_loaded :=
                               match loaded with
                               | inr _ => true
                               | inl _ => false
                               end |}]> h)).
Proof.
  destruct (new_fresh (Ios.Obj_DatabaseWrapper
                         {| Ios.db := None; Ios.spatial_loaded := false |}) h)
    as (p & Hnew & Hp & Hfresh).
  exists p. unfold Ios.duckdb_ios_open_database.
  rewrite (M_bind_Ret _ _ _ _ _ Hnew).
  eexists. split; [exact Hp|]. split; [exact Hfresh|]. split.
  { unfold M_bind, engine. simpl. f_equal.
    destruct path as [s|]; reflexivity. }
  split.
  - intros what. reflexivity.
  - intros d. simpl.
    rewrite (store_live _ p _ _ (lookup_insert_eq h p _)). simpl.
    eexists. split; [reflexivity|].
    intros [what|[]]; simpl.
    + unfold mret, M_ret. now rewrite !insert_insert_eq.
    + rewrite (store_live _ p _ _ (lookup_insert_eq _ p _)). simpl.
      unfold mret, M_ret. now rewrite !insert_insert_eq.
Qed.

Lemma Android_closeDatabase_live (h : gmap Z Android.Object)
    (p : Z) (w : Android.DatabaseWrapper) :
  p <> 0 -> h !! p = Some (Android.Obj_DatabaseWrapper w) ->
  match Android.cpp_db w with
  | Some db =>
      exists k, Android.closeDatabase p h = Vis (DuckDB_release db) k /\
                forall x, k x = Ret (tt, delete p h)
  | None => Android.closeDatabase p h = Ret (tt, delete p h)
  end.
Proof.
  intros Hp Hlive. apply Z.eqb_neq in Hp.
  unfold Android.closeDatabase. rewrite Hp.
  rewrite (M_bind_Ret _ _ _ _ _ (Android_load_DatabaseWrapper h p w Hlive)).
  destruct (Android.cpp_db w) as [db|].
  - eexists. split; [reflexivity|]. intros x. simpl.
    exact (free_live _ _ _ Hlive).
  - exact (free_live _ _ _ Hlive).
Qed.

Lemma Ios_close_database_live (h : gmap Z Ios.Object)
    (p : Z) (w : Ios.DatabaseWrapper) :
  p <> 0 -> h !! p = Some (Ios.Obj_DatabaseWrapper w) ->
  match Ios.db w with
  | Some d =>
      exists k, Ios.duckdb_ios_close_database p h = Vis (DuckDB_release d) k /\
                forall x, k x = Ret (tt, delete p h)
  | None => Ios.duckdb_ios_close_database p h = Ret (tt, delete p h)
  end.
Proof.
  intros Hp Hlive. apply Z.eqb_neq in Hp.
  unfold Ios.duckdb_ios_close_database. rewrite Hp.
  change (negb false) with true. cbv iota.
  rewrite (M_bind_Ret _ _ _ _ _ (Ios_load_DatabaseWrapper h p w Hlive)).
  destruct (Ios.db w) as [d|].
  - eexists. split; [reflexivity|]. intros x. simpl.
    exact (free_live _ _ _ Hlive).
  - exact (free_live _ _ _ Hlive).
Qed.

Lemma Ios_has_spatial_extension_live (h : gmap Z Ios.Object)
    (p : Z) (w : Ios.DatabaseWrapper) :
  p <> 0 -> h !! p = Some (Ios.Obj_DatabaseWrapper w) ->
  Ios.duckdb_ios_has_spatial_extension p h = Ret (Ios.spatial_loaded w, h).
Proof.
  intros Hp Hlive. apply Z.eqb_neq in Hp.
  unfold Ios.duckdb_ios_has_spatial_extension. rewrite Hp.
  now rewrite (M_bind_Ret _ _ _ _ _ (Ios_load_DatabaseWrapper h p w Hlive)).
Qed.

(** ** Connections and statements *)

Lemma Android_connect_live (h : gmap Z Android.Object)
    (p : Z) (w : Android.DatabaseWrapper) (db : DuckDB) :
  p <> 0 -> h !! p = Some (Android.Obj_DatabaseWrapper w) ->
  Android.cpp_db w = Some db ->
  exists q k,
    q <> 0 /\ h !! q = None /\
    Android.connect p h = Vis (Connection_new db) k /\
    (forall what, k (inl what) = Ret (0, h)) /\
    (forall conn, k (inr conn) = Ret (q, <[q := Android.Obj_Connection conn]> h)).
Proof.
  intros Hp Hlive Hdb. apply Z.eqb_neq in Hp.
  unfold Android.connect. rewrite Hp.
  rewrite (M_bind_Ret _ _ _ _ _ (Android_load_DatabaseWrapper h p w Hlive)).
  rewrite Hdb.
  pose proof (is_fresh (dom h ∪ {[0]})) as Hf.
  exists (fresh (dom h ∪ {[0]})). eexists.
  split; [intros E; apply Hf; rewrite E; set_solver|].
  split; [apply not_elem_of_dom; set_solver|].
  split; [reflexivity|]. split; intros x; reflexivity.
Qed.

Lemma Android_disconnect_live (h : gmap Z Android.Object)
    (p : Z) (conn : Connection) :
  p <> 0 -> h !! p = Some (Android.Obj_Connection conn) ->
  exists k, Android.disconnect p h = Vis (Connection_delete conn) k /\
            forall x, k x = Ret (tt, delete p h).
Proof.
  intros Hp Hlive. apply Z.eqb_neq in Hp.
  unfold Android.disconnect. rewrite Hp.
  rewrite (M_bind_Ret _ _ _ _ _ (Android_load_Connection h p conn Hlive)).
  eexists. split; [reflexivity|]. intros x. simpl.
  exact (free_live _ _ _ Hlive).
Qed.

Lemma Android_prepare_live (h : gmap Z Android.Object)
    (p : Z) (conn : Connection) (sql : string) :
  p <> 0 -> h !! p = Some (Android.Obj_Connection conn) ->
  exists q k,
    q <> 0 /\ h !! q = None /\
    Android.prepare p (Some sql) h = Vis (Connection_Prepare conn sql) k /\
    (forall what, k (inl what) = Ret (0, h)) /\
    (forall stmt,
        k (inr stmt)
        = if stmt_HasError stmt then Ret (0, h)
          else Ret (q, <[q := Android.Obj_PreparedStatementWrapper
                                 {| Android.stmt := stmt;
                                    Android.bindings :=
                                      replicate (size (named_param_map stmt))
                                        Value_null |}]> h)).
Proof.
  intros Hp Hlive. apply Z.eqb_neq in Hp.
  unfold Android.prepare. rewrite Hp. simpl.
  rewrite (M_bind_Ret _ _ _ _ _ (Android_load_Connection h p conn Hlive)).
  pose proof (is_fresh (dom h ∪ {[0]})) as Hf.
  exists (fresh (dom h ∪ {[0]})). eexists.
  split; [intros E; apply Hf; rewrite E; set_solver|].
  split; [apply not_elem_of_dom; set_solver|].
  split; [reflexivity|]. split; intros x; [reflexivity|].
  simpl. destruct (stmt_HasError x); [reflexivity|].
  unfold new. rewrite M_bind_Ret with (a := fresh (dom h ∪ {[0]}))
    (s' := <[fresh (dom h ∪ {[0]}) :=
              Android.Obj_PreparedStatementWrapper
                {| Android.stmt := x; Android.bindings := [] |}]> h)
    by reflexivity.
  rewrite (M_bind_Ret _ _ _ _ _ (store_live _ _ _ _ (lookup_insert_eq h _ _))).
  unfold mret, M_ret. now rewrite insert_insert_eq, resized_nil.
Qed.

Lemma Android_destroyPrepared_live (h : gmap Z Android.Object)
    (p : Z) (w : Android.PreparedStatementWrapper) :
  p <> 0 -> h !! p = Some (Android.Obj_PreparedStatementWrapper w) ->
  exists k,
    Android.destroyPrepared p h
    = Vis (PreparedStatement_delete (Android.stmt w)) k /\
    forall x, k x = Ret (tt, delete p h).
Proof.
  intros Hp Hlive. apply Z.eqb_neq in Hp.
  unfold Android.destroyPrepared. rewrite Hp.
  rewrite (M_bind_Ret _ _ _ _ _ (Android_load_wrapper h p w Hlive)).
  eexists. split; [reflexivity|]. intros x. simpl.
  exact (free_live _ _ _ Hlive).
Qed.

Lemma Ios_load_ConnectionWrapper (h : gmap Z Ios.Object) (p : Z)
    (w : Ios.ConnectionWrapper) :
  h !! p = Some (Ios.Obj_ConnectionWrapper w) ->
  Ios.load_ConnectionWrapper p h = Ret (w, h).
Proof.
  intros Hlive. unfold Ios.load_ConnectionWrapper.
  rewrite (M_bind_Ret _ _ _ _ _ (load_live _ _ _ Hlive)). reflexivity.
Qed.

Lemma Ios_connect_live (h : gmap Z Ios.Object)
    (p : Z) (w : Ios.DatabaseWrapper) (d : DuckDB) (error_out : ErrorOut) :
  p <> 0 -> h !! p = Some (Ios.Obj_DatabaseWrapper w) ->
  Ios.db w = Some d ->
  exists q k,
    q <> 0 /\ h !! q = None /\
    Ios.duckdb_ios_connect p error_out h = Vis (Connection_new d) k /\
    (forall what,
        k (inl what)
        = Ret ((0, Ios.set_error error_out what),
               <[q := Ios.Obj_ConnectionWrapper
                        {| Ios.conn := None; Ios.db_wrapper := p |}]> h)) /\
    (forall c,
        k (inr c)
        = Ret ((q, error_out),
               <[q := Ios.Obj_ConnectionWrapper
                        {| Ios.conn := Some c; Ios.db_wrapper := p |}]> h)).
Proof.
  intros Hp Hlive Hdb. apply Z.eqb_neq in Hp.
  unfold Ios.duckdb_ios_connect. rewrite Hp.
  rewrite (M_bind_Ret _ _ _ _ _ (Ios_load_DatabaseWrapper h p w Hlive)).
  destruct (new_fresh (Ios.Obj_ConnectionWrapper
                         {| Ios.conn := None; Ios.db_wrapper := p |}) h)
    as (q & Hnew & Hq & Hfresh).
  rewrite (M_bind_Ret _ _ _ _ _ Hnew). rewrite Hdb.
  exists q. eexists. split; [exact Hq|]. split; [exact Hfresh|].
  split; [reflexivity|]. split; intros x; [reflexivity|].
  simpl.
  rewrite (M_bind_Ret _ _ _ _ _ (store_live _ q _ _ (lookup_insert_eq h q _))).
  unfold mret, M_ret. now rewrite insert_insert_eq.
Qed.

Lemma Ios_disconnect_live (h : gmap Z Ios.Object)
    (p : Z) (w : Ios.ConnectionWrapper) :
  p <> 0 -> h !! p = Some (Ios.Obj_ConnectionWrapper w) ->
  match Ios.conn w with
  | Some c =>
      exists k, Ios.duckdb_ios_disconnect p h = Vis (Connection_delete c) k /\
                forall x, k x = Ret (tt, delete p h)
  | None => Ios.duckdb_ios_disconnect p h = Ret (tt, delete p h)
  end.
Proof.
  intros Hp Hlive. apply Z.eqb_neq in Hp.
  unfold Ios.duckdb_ios_disconnect. rewrite Hp.
  change (negb false) with true. cbv iota.
  rewrite (M_bind_Ret _ _ _ _ _ (Ios_load_ConnectionWrapper h p w Hlive)).
  destruct (Ios.conn w) as [c|].
  - eexists. split; [reflexivity|]. intros x. simpl.
    exact (free_live _ _ _ Hlive).
  - exact (free_live _ _ _ Hlive).
Qed.

Lemma Ios_prepare_live (h : gmap Z Ios.Object)
    (p d : Z) (c : Connection) (sql : string) (error_out : ErrorOut) :
  p <> 0 ->
  h !! p = Some (Ios.Obj_ConnectionWrapper
                   {| Ios.conn := Some c; Ios.db_wrapper := d |}) ->
  exists q k,
    q <> 0 /\ h !! q = None /\
    Ios.duckdb_ios_prepare p (Some sql) error_out h
    = Vis (Connection_Prepare c sql) k /\
    (forall what, k (inl what) = Ret ((0, Ios.set_error error_out what), h)) /\
    (forall stmt,
        k (inr stmt)
        = if stmt_HasError stmt
          then Ret ((0, Ios.set_error error_out (stmt_GetError stmt)), h)
          else Ret ((q, error_out),
                    <[q := Ios.Obj_PreparedWrapper
                             {| Ios.stmt := stmt;
                                Ios.bindings :=
                                  replicate (size (named_param_map stmt))
                                    Value_null |}]> h)).
Proof.
  intros Hp Hlive. apply Z.eqb_neq in Hp.
  unfold Ios.duckdb_ios_prepare. rewrite Hp.
  rewrite (M_bind_Ret _ _ _ _ _ (Ios_load_Connection h p d c Hlive)).
  pose proof (is_fresh (dom h ∪ {[0]})) as Hf.
  exists (fresh (dom h ∪ {[0]})). eexists.
  split; [intros E; apply Hf; rewrite E; set_solver|].
  split; [apply not_elem_of_dom; set_solver|].
  split; [reflexivity|]. split; intros x; [reflexivity|].
  simpl. destruct (stmt_HasError x); [reflexivity|].
  unfold new. rewrite M_bind_Ret with (a := fresh (dom h ∪ {[0]}))
    (s' := <[fresh (dom h ∪ {[0]}) :=
              Ios.Obj_PreparedWrapper
                {| Ios.stmt := x; Ios.bindings := [] |}]> h)
    by reflexivity.
  rewrite (M_bind_Ret _ _ _ _ _ (store_live _ _ _ _ (lookup_insert_eq h _ _))).
  unfold mret, M_ret. now rewrite insert_insert_eq, resized_nil.
Qed.

Lemma Ios_destroy_prepared_live (h : gmap Z Ios.Object)
    (p : Z) (w : Ios.PreparedWrapper) :
  p <> 0 -> h !! p = Some (Ios.Obj_PreparedWrapper w) ->
  exists k,
    Ios.duckdb_ios_destroy_prepared p h
    = Vis (PreparedStatement_delete (Ios.stmt w)) k /\
    forall x, k x = Ret (tt, delete p h).
Proof.
  intros Hp Hlive. apply Z.eqb_neq in Hp.
  unfold Ios.duckdb_ios_destroy_prepared. rewrite Hp.
  change (negb false) with true. cbv iota.
  rewrite (M_bind_Ret _ _ _ _ _ (Ios_load_wrapper h p w Hlive)).
  eexists. split; [reflexivity|]. intros x. simpl.
  exact (free_live _ _ _ Hlive).
Qed.

(** ** Running SQL *)

Lemma c_str_append_no_NUL (s t : string) :
  no_NUL s = true -> c_str (s << t) = s << c_str t.
Proof.
  induction s as [|c s IH]; [reflexivity|].
  intros Hs. simpl in Hs. apply andb_true_iff in Hs as [Hc Hs].
  apply negb_true_iff in Hc.
  change (c_str (String c (s << t)) = String c (s << c_str t)).
  simpl. rewrite Hc. now rewrite IH.
Qed.

Lemma c_str_changes (n : Z) :
  c_str ("" << "{" << ch DQUOTE << "changes" << ch DQUOTE << ":"
            << put_int64 n << "}")
  = with_quotes "{'changes':" << put_int64 n << "}".
Proof.
  apply c_str_no_NUL.
  rewrite !no_NUL_append, no_NUL_put_int64. reflexivity.
Qed.

Lemma Android_query_live {RT : Runtime} (h : gmap Z Android.Object)
    (p : Z) (conn : Connection) (sql : string) :
  p <> 0 -> h !! p = Some (Android.Obj_Connection conn) ->
  exists k,
    Android.query p (Some sql) h = Vis (Connection_Query conn sql) k /\
    (forall what, k (inl what) = Ret (Some ("ERROR:" << c_str what), h)) /\
    (forall answer, exists s, k answer = Ret (s, h)).
Proof.
  intros Hp Hlive. apply Z.eqb_neq in Hp.
  unfold Android.query. rewrite Hp. simpl.
  rewrite (M_bind_Ret _ _ _ _ _ (Android_load_Connection h p conn Hlive)).
  eexists. split; [reflexivity|]. split.
  - intros what. unfold mret, M_ret, NewStringUTF.
    change (Ret (Some (c_str ("ERROR:" << what)), h)
            = Ret (Some ("ERROR:" << c_str what), h)).
    now rewrite (c_str_append_no_NUL "ERROR:" what).
  - intros [what|result]; simpl; [eexists; reflexivity|].
    destruct (HasError result); eexists; reflexivity.
Qed.

Lemma Android_execute_live (h : gmap Z Android.Object)
    (p : Z) (conn : Connection) (sql : string) :
  p <> 0 -> h !! p = Some (Android.Obj_Connection conn) ->
  exists k,
    Android.execute p (Some sql) h = Vis (Connection_Query conn sql) k /\
    (forall what, k (inl what) = Ret (Some ("ERROR:" << c_str what), h)) /\
    (forall result,
        k (inr result)
        = Ret (Some (if HasError result
                     then "ERROR:" << c_str (GetError result)
                     else with_quotes "{'changes':"
                            << put_int64 (to_int64 (Z.of_nat (RowCount result)))
                            << "}"), h)).
Proof.
  intros Hp Hlive. apply Z.eqb_neq in Hp.
  unfold Android.execute. rewrite Hp. simpl.
  rewrite (M_bind_Ret _ _ _ _ _ (Android_load_Connection h p conn Hlive)).
  eexists. split; [reflexivity|]. split.
  - intros what. unfold mret, M_ret, NewStringUTF.
    change (Ret (Some (c_str ("ERROR:" << what)), h)
            = Ret (Some ("ERROR:" << c_str what), h)).
    now rewrite (c_str_append_no_NUL "ERROR:" what).
  - intros result.
    transitivity
      (if HasError result
       then Ret (Some (c_str ("ERROR:" << GetError result)), h)
       else Ret (Some (c_str ("" << "{" << ch DQUOTE << "changes" << ch DQUOTE
                                 << ":"
                                 << put_int64 (to_int64 (Z.of_nat (RowCount result)))
                                 << "}")), h));
      [destruct (HasError result); reflexivity|].
    destruct (HasError result).
    + now rewrite (c_str_append_no_NUL "ERROR:" (GetError result)).
    + now rewrite c_str_changes.
Qed.

Lemma Ios_query_live {RT : Runtime} (h : gmap Z Ios.Object)
    (p d : Z) (c : Connection) (sql : string) (error_out : ErrorOut) :
  p <> 0 ->
  h !! p = Some (Ios.Obj_ConnectionWrapper
                   {| Ios.conn := Some c; Ios.db_wrapper := d |}) ->
  exists k,
    Ios.duckdb_ios_query p (Some sql) error_out h
    = Vis (Connection_Query c sql) k /\
    (forall what, k (inl what) = Ret ((None, Ios.set_error error_out what), h)) /\
    (forall answer, exists r, k answer = Ret (r, h)).
Proof.
  intros Hp Hlive. apply Z.eqb_neq in Hp.
  unfold Ios.duckdb_ios_query. rewrite Hp.
  rewrite (M_bind_Ret _ _ _ _ _ (Ios_load_Connection h p d c Hlive)).
  eexists. split; [reflexivity|]. split.
  - intros what. reflexivity.
  - intros [what|result]; simpl; [eexists; reflexivity|].
    destruct (HasError result); eexists; reflexivity.
Qed.

Lemma Ios_execute_live (h : gmap Z Ios.Object)
    (p d : Z) (c : Connection) (sql : string) (rows_changed_out : option Z)
    (error_out : ErrorOut) :
  p <> 0 ->
  h !! p = Some (Ios.Obj_ConnectionWrapper
                   {| Ios.conn := Some c; Ios.db_wrapper := d |}) ->
  exists k,
    Ios.duckdb_ios_execute p (Some sql) rows_changed_out error_out h
    = Vis (Connection_Query c sql) k /\
    (forall what,
        k (inl what)
        = Ret ((false, rows_changed_out, Ios.set_error error_out what), h)) /\
    (forall result,
        k (inr result)
        = Ret (if HasError result
               then (false, rows_changed_out,
                     Ios.set_error error_out (GetError result))
               else (true,
                     match rows_changed_out with
                     | Some _ => Some (to_int64 (Z.of_nat (RowCount result)))
                     | None => None
                     end, error_out), h)).
Proof.
  intros Hp Hlive. apply Z.eqb_neq in Hp.
  unfold Ios.duckdb_ios_execute. rewrite Hp.
  rewrite (M_bind_Ret _ _ _ _ _ (Ios_load_Connection h p d c Hlive)).
  eexists. split; [reflexivity|]. split.
  - intros what. reflexivity.
  - intros result. simpl. destruct (HasError result); reflexivity.
Qed.

Lemma Android_executePrepared_throws {RT : Runtime}
    (h : gmap Z Android.Object) (p : Z) (w : Android.PreparedStatementWrapper) :
  p <> 0 -> h !! p = Some (Android.Obj_PreparedStatementWrapper w) ->
  exists k,
    Android.executePrepared p h
    = Vis (PreparedStatement_Execute (Android.stmt w) (Android.bindings w) false) k /\
    (forall what, k (inl what) = Ret (Some ("ERROR:" << c_str what), h)) /\
    (forall answer, exists s, k answer = Ret (s, h)).
Proof.
  intros Hp Hlive. apply Z.eqb_neq in Hp.
  unfold Android.executePrepared. rewrite Hp.
  rewrite (M_bind_Ret _ _ _ _ _ (Android_load_wrapper h p w Hlive)).
  eexists. split; [reflexivity|]. split.
  - intros what.
    change (Ret (Some (c_str ("ERROR:" << what)), h)
            = Ret (Some ("ERROR:" << c_str what), h)).
    now rewrite (c_str_append_no_NUL "ERROR:" what).
  - intros [what|result]; simpl; [eexists; reflexivity|].
    destruct (HasError result); eexists; reflexivity.
Qed.

Lemma Ios_execute_prepared_throws {RT : Runtime}
    (h : gmap Z Ios.Object) (p : Z) (w : Ios.PreparedWrapper)
    (error_out : ErrorOut) :
  p <> 0 -> h !! p = Some (Ios.Obj_PreparedWrapper w) ->
  exists k,
    Ios.duckdb_ios_execute_prepared p error_out h
    = Vis (PreparedStatement_Execute (Ios.stmt w) (Ios.bindings w) true) k /\
    (forall what,
        k (inl what) = Ret ((None, Ios.set_error error_out what), h)) /\
    (forall answer, exists r, k answer = Ret (r, h)).
Proof.
  intros Hp Hlive. apply Z.eqb_neq in Hp.
  unfold Ios.duckdb_ios_execute_prepared. rewrite Hp.
  rewrite (M_bind_Ret _ _ _ _ _ (Ios_load_wrapper h p w Hlive)).
  eexists. split; [reflexivity|]. split.
  - intros what. reflexivity.
  - intros [what|result]; simpl; [eexists; reflexivity|].
    destruct (HasError result); eexists; reflexivity.
Qed.

(** ** The life of a handle *)

(** X9.  An open that the engine answers with a database returns a
    handle that is not null and was not in use, and adds to native
    memory the wrapper of the database and nothing else.  A null or an
    empty path opens a database in memory.  The spatial extension is
    loaded next, and its failure does not fail the open; on iOS the
    wrapper records whether it loaded, and that is what
    [duckdb_ios_has_spatial_extension] answers for the handle. *)
Theorem open_gives_a_fresh_handle :
  (forall (path : jstring) (h : gmap Z Android.Object),
      exists p k,
        p <> 0 /\ h !! p = None /\
        Android.openDatabase path h = Vis (DuckDB_open (open_path path)) k /\
        forall db, exists k2,
          k (inr db) = Vis (LoadStaticExtension_Spatial db) k2 /\
          forall loaded,
            k2 loaded
            = Ret (p, <[p := Android.Obj_DatabaseWrapper
                                {| Android.cpp_db := Some db;
                                   Android.c_db := Some db |}]> h)) /\
  (forall (path : cstring) (error_out : ErrorOut) (h : gmap Z Ios.Object),
      exists p k,
        p <> 0 /\ h !! p = None /\
        Ios.duckdb_ios_open_database path error_out h
        = Vis (DuckDB_open (open_path path)) k /\
        forall d, exists k2,
          k (inr d) = Vis (LoadStaticExtension_Spatial d) k2 /\
          forall loaded, exists ok h',
            ok = match loaded with inr _ => true | inl _ => false end /\
            h' = <[p := Ios.Obj_DatabaseWrapper
                          {| Ios.db := Some d; Ios.spatial_loaded := ok |}]> h /\
            k2 loaded = Ret ((p, error_out), h') /\
            Ios.duckdb_ios_has_spatial_extension p h' = Ret (ok, h')).
Proof.
  split.
  - intros path h.
    destruct (Android_openDatabase_runs path h)
      as (p & k & Hp & Hfresh & Hrun & _ & Hok).
    exists p, k. auto.
  - intros path error_out h.
    destruct (Ios_open_database_runs path error_out h)
      as (p & k & Hp & Hfresh & Hrun & _ & Hok).
    exists p, k. split; [exact Hp|]. split; [exact Hfresh|].
    split; [exact Hrun|].
    intros d. destruct (Hok d) as (k2 & Hk & Hk2).
    exists k2. split; [exact Hk|].
    intros loaded. eexists. eexists.
    split; [reflexivity|]. split; [reflexivity|]. split; [apply Hk2|].
    now apply (Ios_has_spatial_extension_live _ p
                 {| Ios.db := Some d;
                    Ios.spatial_loaded :=
                      match loaded with inr _ => true | inl _ => false end |});
      [|apply lookup_insert_eq].
Qed.

(** X10.  An open that the engine refuses with an exception returns the
    null handle (on iOS with the [what()] of the exception in the
    [error_out] slot), and the wrapper it had allocated before it called
    the engine stays in native memory: no handle leads to it. *)
Theorem failed_open_leaks_the_wrapper (what : string) :
  (forall (path : jstring) (h : gmap Z Android.Object),
      exists p k,
        h !! p = None /\
        Android.openDatabase path h = Vis (DuckDB_open (open_path path)) k /\
        k (inl what)
        = Ret (0, <[p := Android.Obj_DatabaseWrapper
                            {| Android.cpp_db := None;
                               Android.c_db := None |}]> h)) /\
  (forall (path : cstring) (error_out : ErrorOut) (h : gmap Z Ios.Object),
      exists p k,
        h !! p = None /\
        Ios.duckdb_ios_open_database path error_out h
        = Vis (DuckDB_open (open_path path)) k /\
        k (inl what)
        = Ret ((0, Ios.set_error error_out what),
               <[p := Ios.Obj_DatabaseWrapper
                        {| Ios.db := None; Ios.spatial_loaded := false |}]> h)).
Proof.
  split.
  - intros path h.
    destruct (Android_openDatabase_runs path h)
      as (p & k & _ & Hfresh & Hrun & Hfail & _).
    exists p, k. auto.
  - intros path error_out h.
    destruct (Ios_open_database_runs path error_out h)
      as (p & k & _ & Hfresh & Hrun & Hfail & _).
    exists p, k. auto.
Qed.

(** X11.  A connect through a live database handle asks the engine for
    a connection.  When the engine gives one, the call returns a handle
    that is not null and was not in use, and native memory gains the
    connection (on iOS its wrapper, which points back to the database
    handle).  When the engine throws, the call returns the null handle;
    on Android native memory is as it was, on iOS the wrapper allocated
    before the engine call stays in it and [error_out] gets the
    message. *)
Theorem connect_gives_a_fresh_handle (dbPtr : Z) (db : DuckDB) :
  dbPtr <> 0 ->
  (forall (h : gmap Z Android.Object) (w : Android.DatabaseWrapper),
      h !! dbPtr = Some (Android.Obj_DatabaseWrapper w) ->
      Android.cpp_db w = Some db ->
      exists q k,
        q <> 0 /\ h !! q = None /\
        Android.connect dbPtr h = Vis (Connection_new db) k /\
        (forall what, k (inl what) = Ret (0, h)) /\
        (forall conn,
            k (inr conn) = Ret (q, <[q := Android.Obj_Connection conn]> h))) /\
  (forall (h : gmap Z Ios.Object) (w : Ios.DatabaseWrapper)
          (error_out : ErrorOut),
      h !! dbPtr = Some (Ios.Obj_DatabaseWrapper w) ->
      Ios.db w = Some db ->
      exists q k,
        q <> 0 /\ h !! q = None /\
        Ios.duckdb_ios_connect dbPtr error_out h = Vis (Connection_new db) k /\
        (forall what,
            k (inl what)
            = Ret ((0, Ios.set_error error_out what),
                   <[q := Ios.Obj_ConnectionWrapper
                            {| Ios.conn := None; Ios.db_wrapper := dbPtr |}]> h)) /\
        (forall c,
            k (inr c)
            = Ret ((q, error_out),
                   <[q := Ios.Obj_ConnectionWrapper
                            {| Ios.conn := Some c;
                               Ios.db_wrapper := dbPtr |}]> h))).
Proof.
  intros Hp. split.
  - intros h w Hlive Hdb. now apply (Android_connect_live h dbPtr w db).
  - intros h w error_out Hlive Hdb.
    now apply (Ios_connect_live h dbPtr w db error_out).
Qed.

(** X12.  A prepare that fails allocates nothing.  When the engine
    throws, or answers a statement that carries an error, the call
    returns the null handle and native memory is as it was; on iOS the
    [error_out] slot gets the [what()] of the exception or the error of
    the statement. *)
Theorem failed_prepare_allocates_nothing
    (connPtr : Z) (conn : Connection) (sql : string) :
  connPtr <> 0 ->
  (forall h : gmap Z Android.Object,
      h !! connPtr = Some (Android.Obj_Connection conn) ->
      exists k,
        Android.prepare connPtr (Some sql) h
        = Vis (Connection_Prepare conn sql) k /\
        (forall what, k (inl what) = Ret (0, h)) /\
        (forall stmt, stmt_HasError stmt = true -> k (inr stmt) = Ret (0, h))) /\
  (forall (h : gmap Z Ios.Object) (d : Z) (error_out : ErrorOut),
      h !! connPtr = Some (Ios.Obj_ConnectionWrapper
                             {| Ios.conn := Some conn; Ios.db_wrapper := d |}) ->
      exists k,
        Ios.duckdb_ios_prepare connPtr (Some sql) error_out h
        = Vis (Connection_Prepare conn sql) k /\
        (forall what,
            k (inl what) = Ret ((0, Ios.set_error error_out what), h)) /\
        (forall stmt,
            stmt_HasError stmt = true ->
            k (inr stmt)
            = Ret ((0, Ios.set_error error_out (stmt_GetError stmt)), h))).
Proof.
  intros Hp. split.
  - intros h Hlive.
    destruct (Android_prepare_live h connPtr conn sql Hp Hlive)
      as (q & k & _ & _ & Hrun & Hthrow & Hstmt).
    exists k. split; [exact Hrun|]. split; [exact Hthrow|].
    intros stmt Herr. now rewrite Hstmt, Herr.
  - intros h d error_out Hlive.
    destruct (Ios_prepare_live h connPtr d conn sql error_out Hp Hlive)
      as (q & k & _ & _ & Hrun & Hthrow & Hstmt).
    exists k. split; [exact Hrun|]. split; [exact Hthrow|].
    intros stmt Herr. now rewrite Hstmt, Herr.
Qed.

(** X13.  Closing a database, a connection or a statement through a live
    handle hands the engine object back to the engine and frees the
    object of the handle, and nothing else: every other object in native
    memory stays as it is.  Nothing is returned and nothing can fail. *)
Theorem destroy_frees_the_handle (dbPtr connPtr stmtPtr : Z) :
  dbPtr <> 0 -> connPtr <> 0 -> stmtPtr <> 0 ->
  (forall (h : gmap Z Android.Object) (db : DuckDB) (c : option DuckDB)
          (conn : Connection) (w : Android.PreparedStatementWrapper),
      h !! dbPtr = Some (Android.Obj_DatabaseWrapper
                           {| Android.cpp_db := Some db; Android.c_db := c |}) ->
      h !! connPtr = Some (Android.Obj_Connection conn) ->
      h !! stmtPtr = Some (Android.Obj_PreparedStatementWrapper w) ->
      (exists k, Android.closeDatabase dbPtr h = Vis (DuckDB_release db) k /\
                 forall x, k x = Ret (tt, delete dbPtr h)) /\
      (exists k, Android.disconnect connPtr h = Vis (Connection_delete conn) k /\
                 forall x, k x = Ret (tt, delete connPtr h)) /\
      (exists k, Android.destroyPrepared stmtPtr h
                 = Vis (PreparedStatement_delete (Android.stmt w)) k /\
                 forall x, k x = Ret (tt, delete stmtPtr h))) /\
  (forall (h : gmap Z Ios.Object) (db : DuckDB) (l : bool)
          (conn : Connection) (d : Z) (w : Ios.PreparedWrapper),
      h !! dbPtr = Some (Ios.Obj_DatabaseWrapper
                           {| Ios.db := Some db; Ios.spatial_loaded := l |}) ->
      h !! connPtr = Some (Ios.Obj_ConnectionWrapper
                             {| Ios.conn := Some conn; Ios.db_wrapper := d |}) ->
      h !! stmtPtr = Some (Ios.Obj_PreparedWrapper w) ->
      (exists k, Ios.duckdb_ios_close_database dbPtr h
                 = Vis (DuckDB_release db) k /\
                 forall x, k x = Ret (tt, delete dbPtr h)) /\
      (exists k, Ios.duckdb_ios_disconnect connPtr h
                 = Vis (Connection_delete conn) k /\
                 forall x, k x = Ret (tt, delete connPtr h)) /\
      (exists k, Ios.duckdb_ios_destroy_prepared stmtPtr h
                 = Vis (PreparedStatement_delete (Ios.stmt w)) k /\
                 forall x, k x = Ret (tt, delete stmtPtr h))).
Proof.
  intros Hd Hc Hs. split.
  - intros h db c conn w Hdb Hconn Hstmt. split; [|split].
    + exact (Android_closeDatabase_live h dbPtr _ Hd Hdb).
    + exact (Android_disconnect_live h connPtr conn Hc Hconn).
    + exact (Android_destroyPrepared_live h stmtPtr w Hs Hstmt).
  - intros h db l conn d w Hdb Hconn Hstmt. split; [|split].
    + exact (Ios_close_database_live h dbPtr _ Hd Hdb).
    + exact (Ios_disconnect_live h connPtr _ Hc Hconn).
    + exact (Ios_destroy_prepared_live h stmtPtr w Hs Hstmt).
Qed.

(** ** Running SQL through a handle *)

(** X14.  A query, an execute or a prepare through a handle that is
    not null, for which there is no SQL text (on Android
    [GetStringUTFChars] gives [nullptr], which the code takes for a null
    Java string; on iOS [sql] is a null pointer), is refused before the
    handle is used: no object is read, the engine is not called, native
    memory is as it was, and the call reports [Invalid SQL string]
    (Android) or [Invalid SQL] (iOS), or returns the null handle. *)
Theorem null_sql_is_refused {RT : Runtime} (connPtr : Z) :
  connPtr <> 0 ->
  (forall h : gmap Z Android.Object,
      Android.query connPtr None h
      = Ret (Some "ERROR:Invalid SQL string", h) /\
      Android.execute connPtr None h
      = Ret (Some "ERROR:Invalid SQL string", h) /\
      Android.prepare connPtr None h = Ret (0, h)) /\
  (forall (h : gmap Z Ios.Object) (rows_changed_out : option Z)
          (error_out : ErrorOut),
      Ios.duckdb_ios_query connPtr None error_out h
      = Ret ((None, Ios.set_error error_out "Invalid SQL"), h) /\
      Ios.duckdb_ios_execute connPtr None rows_changed_out error_out h
      = Ret ((false, rows_changed_out,
              Ios.set_error error_out "Invalid SQL"), h) /\
      Ios.duckdb_ios_prepare connPtr None error_out h
      = Ret ((0, Ios.set_error error_out "Invalid SQL"), h)).
Proof.
  intros Hp. apply Z.eqb_neq in Hp. split.
  - intros h.
    unfold Android.query, Android.execute, Android.prepare. rewrite Hp.
    repeat split.
  - intros h rows_changed_out error_out.
    unfold Ios.duckdb_ios_query, Ios.duckdb_ios_execute,
      Ios.duckdb_ios_prepare.
    rewrite Hp. repeat split.
Qed.

(** X15.  An execute through a live connection runs the SQL once.  When
    the result carries no error, Android returns the object
    [{"changes":N}] and iOS returns true and writes N to
    [rows_changed_out] when the caller gave one, where N is the
    [RowCount()] of the result, which the code takes for the number of
    rows changed (as long as it fits an [int64_t]); the error slot is
    not written.  When the result carries an error or the engine throws,
    Android returns [ERROR:] and the message, iOS returns false, writes
    the message and leaves [rows_changed_out] as it was.  Native memory
    is never changed. *)
Theorem execute_reports_the_row_count
    (connPtr : Z) (conn : Connection) (sql : string) :
  connPtr <> 0 ->
  (forall h : gmap Z Android.Object,
      h !! connPtr = Some (Android.Obj_Connection conn) ->
      exists k,
        Android.execute connPtr (Some sql) h
        = Vis (Connection_Query conn sql) k /\
        (forall what, k (inl what) = Ret (Some ("ERROR:" << c_str what), h)) /\
        (forall result : MaterializedQueryResult,
            HasError result = true ->
            k (inr result)
            = Ret (Some ("ERROR:" << c_str (GetError result)), h)) /\
        (forall result : MaterializedQueryResult,
            HasError result = false ->
            Z.of_nat (RowCount result) <= 2 ^ 63 - 1 ->
            k (inr result)
            = Ret (Some (with_quotes "{'changes':"
                           << decimal_literal (Z.of_nat (RowCount result))
                           << "}"), h))) /\
  (forall (h : gmap Z Ios.Object) (d : Z) (rows_changed_out : option Z)
          (error_out : ErrorOut),
      h !! connPtr = Some (Ios.Obj_ConnectionWrapper
                             {| Ios.conn := Some conn; Ios.db_wrapper := d |}) ->
      exists k,
        Ios.duckdb_ios_execute connPtr (Some sql) rows_changed_out error_out h
        = Vis (Connection_Query conn sql) k /\
        (forall what,
            k (inl what)
            = Ret ((false, rows_changed_out,
                    Ios.set_error error_out what), h)) /\
        (forall result : MaterializedQueryResult,
            HasError result = true ->
            k (inr result)
            = Ret ((false, rows_changed_out,
                    Ios.set_error error_out (GetError result)), h)) /\
        (forall result : MaterializedQueryResult,
            HasError result = false ->
            Z.of_nat (RowCount result) <= 2 ^ 63 - 1 ->
            k (inr result)
            = Ret ((true,
                    match rows_changed_out with
                    | Some _ => Some (Z.of_nat (RowCount result))
                    | None => None
                    end, error_out), h))).
Proof.
  intros Hp. split.
  - intros h Hlive.
    destruct (Android_execute_live h connPtr conn sql Hp Hlive)
      as (k & Hrun & Hthrow & Hres).
    exists k. split; [exact Hrun|]. split; [exact Hthrow|]. split.
    + intros result Herr. now rewrite Hres, Herr.
    + intros result Herr Hfit. rewrite Hres, Herr.
      rewrite to_int64_id by lia. reflexivity.
  - intros h d rows_changed_out error_out Hlive.
    destruct (Ios_execute_live h connPtr d conn sql rows_changed_out
                error_out Hp Hlive) as (k & Hrun & Hthrow & Hres).
    exists k. split; [exact Hrun|]. split; [exact Hthrow|]. split.
    + intros result Herr. now rewrite Hres, Herr.
    + intros result Herr Hfit. rewrite Hres, Herr.
      rewrite to_int64_id by lia. reflexivity.
Qed.

(** X16.  An exception of the engine never leaves a query or an
    execution of a prepared statement: it is caught and returned as an
    error.  Android returns [ERROR:] and the [what()] of the exception,
    cut at its first NUL byte if it has one; the marker itself always
    arrives.  iOS returns a null pointer and writes the message to the
    [error_out] slot.  Whatever the engine answers, the call returns and
    native memory is as it was. *)
Theorem engine_exception_is_returned_as_error {RT : Runtime}
    (connPtr stmtPtr : Z) (sql : string) :
  connPtr <> 0 -> stmtPtr <> 0 ->
  (forall (h : gmap Z Android.Object) (conn : Connection)
          (w : Android.PreparedStatementWrapper),
      h !! connPtr = Some (Android.Obj_Connection conn) ->
      h !! stmtPtr = Some (Android.Obj_PreparedStatementWrapper w) ->
      (exists k,
          Android.query connPtr (Some sql) h = Vis (Connection_Query conn sql) k /\
          (forall what, k (inl what) = Ret (Some ("ERROR:" << c_str what), h)) /\
          (forall answer, exists s, k answer = Ret (s, h))) /\
      (exists k,
          Android.executePrepared stmtPtr h
          = Vis (PreparedStatement_Execute (Android.stmt w)
                   (Android.bindings w) false) k /\
          (forall what, k (inl what) = Ret (Some ("ERROR:" << c_str what), h)) /\
          (forall answer, exists s, k answer = Ret (s, h)))) /\
  (forall (h : gmap Z Ios.Object) (conn : Connection) (d : Z)
          (w : Ios.PreparedWrapper) (error_out : ErrorOut),
      h !! connPtr = Some (Ios.Obj_ConnectionWrapper
                             {| Ios.conn := Some conn; Ios.db_wrapper := d |}) ->
      h !! stmtPtr = Some (Ios.Obj_PreparedWrapper w) ->
      (exists k,
          Ios.duckdb_ios_query connPtr (Some sql) error_out h
          = Vis (Connection_Query conn sql) k /\
          (forall what,
              k (inl what) = Ret ((None, Ios.set_error error_out what), h)) /\
          (forall answer, exists r, k answer = Ret (r, h))) /\
      (exists k,
          Ios.duckdb_ios_execute_prepared stmtPtr error_out h
          = Vis (PreparedStatement_Execute (Ios.stmt w) (Ios.bindings w) true) k /\
          (forall what,
              k (inl what) = Ret ((None, Ios.set_error error_out what), h)) /\
          (forall answer, exists r, k answer = Ret (r, h)))).
Proof.
  intros Hc Hs. split.
  - intros h conn w Hconn Hstmt. split.
    + destruct (Android_query_live h connPtr conn sql Hc Hconn)
        as (k & Hrun & Hthrow & Hres).
      exists k. split; [exact Hrun|]. split; [exact Hthrow|].
      exact Hres.
    + exact (Android_executePrepared_throws h stmtPtr w Hs Hstmt).
  - intros h conn d w error_out Hconn Hstmt. split.
    + destruct (Ios_query_live h connPtr d conn sql error_out Hc Hconn)
        as (k & Hrun & Hthrow & Hres).
      exists k. split; [exact Hrun|]. split; [exact Hthrow|].
      exact Hres.
    + exact (Ios_execute_prepared_throws h stmtPtr w error_out Hs Hstmt).
Qed.

(** ** Binds, one after the other *)












(** X18.  What was bound is what is executed.  After a bind of [v] at
    the position [index] that can be served (the store has the position,
    or [index] is within the allocation limit), an execution hands the
    engine the statement with the store the bind left, in which the
    parameter [index] is [v] and the others are what they were.  Android
    passes [false] for [allow_stream_result]; iOS passes no second
    argument, which is the engine's default, [true].  After a clear, the
    engine gets as many nulls as the store had slots. *)
Theorem execute_passes_the_bound_values {RT : Runtime} (p index : Z) :
  p <> 0 -> 1 <= index <= INT_MAX ->
  (forall (op : AndroidBind) (h : gmap Z Android.Object)
          (w : Android.PreparedStatementWrapper),
      h !! p = Some (Android.Obj_PreparedStatementWrapper w) ->
      Z.of_nat (length (Android.bindings w)) <= INT_MAX ->
      index <= Z.of_nat (length (Android.bindings w)) \/ index <= alloc_limit ->
      exists values,
        store_after_bind (Android.bindings w) index (android_bound op) values /\
        (exists k,
            (android_bind op p index ;;; Android.executePrepared p) h
            = Vis (PreparedStatement_Execute (Android.stmt w) values false) k) /\
        (exists k,
            (android_bind op p index ;;; Android.clearBindings p ;;;
             Android.executePrepared p) h
            = Vis (PreparedStatement_Execute (Android.stmt w)
                     (replicate (length values) Value_null) false) k)) /\
  (forall (op : IosBind) (h : gmap Z Ios.Object) (w : Ios.PreparedWrapper)
          (error_out : ErrorOut),
      h !! p = Some (Ios.Obj_PreparedWrapper w) ->
      index <= Z.of_nat (length (Ios.bindings w)) \/ index <= alloc_limit ->
      exists values,
        store_after_bind (Ios.bindings w) index (ios_bound op) values /\
        (exists k,
            (ios_bind op p index ;;;
             Ios.duckdb_ios_execute_prepared p error_out) h
            = Vis (PreparedStatement_Execute (Ios.stmt w) values true) k) /\
        (exists k,
            (ios_bind op p index ;;; Ios.duckdb_ios_clear_bindings p ;;;
             Ios.duckdb_ios_execute_prepared p error_out) h
            = Vis (PreparedStatement_Execute (Ios.stmt w)
                     (replicate (length values) Value_null) true) k)).
Proof.
  intros Hp Hi. split.
  - intros op h w Hlive Hsz Hfits.
    set (w1 := {| Android.stmt := Android.stmt w;
                  Android.bindings :=
                    bound_store (Android.bindings w) index (android_bound op) |}).
    set (w2 := {| Android.stmt := Android.stmt w;
                  Android.bindings :=
                    replicate (length (Android.bindings w1)) Value_null |}).
    exists (Android.bindings w1).
    split; [apply bound_store_after_bind; lia|].
    assert (Hf : bind_fits (Android.bindings w) index = true)
      by (destruct Hfits;
          [now apply bind_fits_in_store | now apply bind_fits_in_limit]).
    pose proof (android_bind_live op h p index w Hp Hlive Hi Hsz Hf) as Hbind.
    fold w1 in Hbind.
    split.
    + rewrite (M_bind_Ret _ _ _ _ _ Hbind).
      destruct (Android_executePrepared_live _ p w1 Hp (lookup_insert_eq h p _))
        as (k & Hk & _).
      exists k. exact Hk.
    + rewrite (M_bind_Ret _ _ _ _ _ Hbind).
      rewrite (M_bind_Ret _ _ _ _ _
                 (Android_clearBindings_live _ p w1 Hp (lookup_insert_eq h p _))).
      destruct (Android_executePrepared_live _ p w2 Hp
                  (lookup_insert_eq
                     (<[p := Android.Obj_PreparedStatementWrapper w1]> h) p _))
        as (k & Hk & _).
      exists k. exact Hk.
  - intros op h w error_out Hlive Hfits.
    set (w1 := {| Ios.stmt := Ios.stmt w;
                  Ios.bindings :=
                    bound_store (Ios.bindings w) index (ios_bound op) |}).
    set (w2 := {| Ios.stmt := Ios.stmt w;
                  Ios.bindings :=
                    replicate (length (Ios.bindings w1)) Value_null |}).
    exists (Ios.bindings w1).
    split; [apply bound_store_after_bind; lia|].
    assert (Hf : bind_fits (Ios.bindings w) index = true)
      by (destruct Hfits;
          [now apply bind_fits_in_store | now apply bind_fits_in_limit]).
    pose proof (ios_bind_live op h p index w Hp Hlive Hi Hf) as Hbind.
    fold w1 in Hbind.
    split.
    + rewrite (M_bind_Ret _ _ _ _ _ Hbind).
      destruct (Ios_execute_prepared_live _ p w1 error_out Hp
                  (lookup_insert_eq h p _)) as (k & Hk & _).
      exists k. exact Hk.
    + rewrite (M_bind_Ret _ _ _ _ _ Hbind).
      rewrite (M_bind_Ret _ _ _ _ _
                 (Ios_clear_bindings_live _ p w1 Hp (lookup_insert_eq h p _))).
      destruct (Ios_execute_prepared_live _ p w2 error_out Hp
                  (lookup_insert_eq (<[p := Ios.Obj_PreparedWrapper w1]> h) p _))
        as (k & Hk & _).
      exists k. exact Hk.
Qed.

(** X21.  A bind that cannot be served aborts.  Through a live handle, a
    bind at a position that the store does not have and that is beyond
    the allocation limit makes [resize] throw; no bind entry point has a
    [try] block, so the exception leaves the entry point: the call does
    not return false, and it does not return at all.  An execution that
    comes after it is not reached. *)
Theorem bind_beyond_the_limit_aborts {RT : Runtime} (p index : Z) :
  p <> 0 -> 1 <= index <= INT_MAX -> alloc_limit < index ->
  (forall (op : AndroidBind) (h : gmap Z Android.Object)
          (w : Android.PreparedStatementWrapper),
      h !! p = Some (Android.Obj_PreparedStatementWrapper w) ->
      Z.of_nat (length (Android.bindings w)) < index ->
      android_bind op p index h = Crash /\
      (android_bind op p index ;;; Android.executePrepared p) h = Crash) /\
  (forall (op : IosBind) (h : gmap Z Ios.Object) (w : Ios.PreparedWrapper)
          (error_out : ErrorOut),
      h !! p = Some (Ios.Obj_PreparedWrapper w) ->
      Z.of_nat (length (Ios.bindings w)) < index ->
      ios_bind op p index h = Crash /\
      (ios_bind op p index ;;; Ios.duckdb_ios_execute_prepared p error_out) h
      = Crash).
Proof.
  intros Hp Hi Hlim. split.
  - intros op h w Hlive Hlen.
    assert (Hf : bind_fits (Android.bindings w) index = false).
    { unfold bind_fits. apply orb_false_iff. split; apply Z.leb_gt; lia. }
    assert (Hc : android_bind op p index h = Crash).
    { apply (android_bind_beyond op h p index w); try assumption.
      unfold INT_MAX in *. lia. }
    split; [exact Hc | now apply M_bind_Crash].
  - intros op h w error_out Hlive Hlen.
    assert (Hf : bind_fits (Ios.bindings w) index = false).
    { unfold bind_fits. apply orb_false_iff. split; apply Z.leb_gt; lia. }
    assert (Hc : ios_bind op p index h = Crash)
      by now apply (ios_bind_beyond op h p index w).
    split; [exact Hc | now apply M_bind_Crash].
Qed.

(** ** Handles that lead nowhere *)

Lemma load_dangling {Object : Type} (h : gmap Z Object) (p : Z) :
  h !! p = None -> load p h = Crash.
Proof. intros E. unfold load. now rewrite E. Qed.

Lemma Android_bind_dangling {RT : Runtime} (op : AndroidBind) (h : gmap Z Android.Object)
    (p index : Z) :
  p <> 0 -> h !! p = None -> 1 <= index <= INT_MAX + 1 ->
  android_bind op p index h = Crash.
Proof.
  intros Hp Hnone Hi. apply Z.eqb_neq in Hp.
  assert (Hslot : Android.bind_slot p index h = Crash).
  { unfold Android.bind_slot.
    rewrite (M_bind_Ret _ _ _ _ _
               (int_result_in (index - 1) h
                  ltac:(unfold INT_MIN, INT_MAX in *; lia))).
    destruct (index - 1 <? 0) eqn:E; [apply Z.ltb_lt in E; lia|].
    apply M_bind_Crash. unfold Android.load_PreparedStatementWrapper.
    apply M_bind_Crash. now apply load_dangling. }
  destruct op; simpl;
    unfold Android.bindString, Android.bindLong, Android.bindDouble,
      Android.bindBoolean, Android.bindNull;
    rewrite Hp; now rewrite (M_bind_Crash _ _ _ Hslot).
Qed.

Lemma Ios_bind_dangling {RT : Runtime} (op : IosBind) (h : gmap Z Ios.Object) (p index : Z) :
  p <> 0 -> h !! p = None -> 1 <= index <= INT_MAX + 1 ->
  ios_bind op p index h = Crash.
Proof.
  intros Hp Hnone Hi. apply Z.eqb_neq in Hp.
  assert (Hidx : (index <? 1) = false) by (apply Z.ltb_ge; lia).
  assert (Hslot : Ios.bind_slot p index h = Crash).
  { unfold Ios.bind_slot.
    rewrite (M_bind_Ret _ _ _ _ _
               (int_result_in (index - 1) h
                  ltac:(unfold INT_MIN, INT_MAX in *; lia))).
    apply M_bind_Crash. unfold Ios.load_PreparedWrapper.
    apply M_bind_Crash. now apply load_dangling. }
  destruct op; simpl;
    unfold Ios.duckdb_ios_bind_string, Ios.duckdb_ios_bind_int64,
      Ios.duckdb_ios_bind_double, Ios.duckdb_ios_bind_bool,
      Ios.duckdb_ios_bind_null;
    rewrite Hp, Hidx; simpl; now rewrite (M_bind_Crash _ _ _ Hslot).
Qed.

(** X19.  No entry point checks more of a handle than that it is not
    null.  With a handle that leads to no live object, as after the
    object was destroyed, every entry point that uses its handle reads
    freed memory: the behaviour is undefined.  So is destroying a
    statement twice.  The exceptions are the calls that are refused
    before the handle is used: a query with a null SQL string, and a
    bind below the position 1. *)
Theorem stale_handle_is_not_detected {RT : Runtime} (p : Z) :
  p <> 0 ->
  (forall (h : gmap Z Android.Object) (sql : string),
      h !! p = None ->
      Android.closeDatabase p h = Crash /\
      Android.connect p h = Crash /\
      Android.disconnect p h = Crash /\
      Android.query p (Some sql) h = Crash /\
      Android.execute p (Some sql) h = Crash /\
      Android.prepare p (Some sql) h = Crash /\
      Android.destroyPrepared p h = Crash /\
      Android.executePrepared p h = Crash /\
      Android.clearBindings p h = Crash /\
      (forall op index, 1 <= index <= INT_MAX ->
                        android_bind op p index h = Crash)) /\
  (forall (h : gmap Z Ios.Object) (sql : string) (rows_changed_out : option Z)
          (error_out : ErrorOut),
      h !! p = None ->
      Ios.duckdb_ios_close_database p h = Crash /\
      Ios.duckdb_ios_connect p error_out h = Crash /\
      Ios.duckdb_ios_disconnect p h = Crash /\
      Ios.duckdb_ios_query p (Some sql) error_out h = Crash /\
      Ios.duckdb_ios_execute p (Some sql) rows_changed_out error_out h = Crash /\
      Ios.duckdb_ios_prepare p (Some sql) error_out h = Crash /\
      Ios.duckdb_ios_destroy_prepared p h = Crash /\
      Ios.duckdb_ios_execute_prepared p error_out h = Crash /\
      Ios.duckdb_ios_clear_bindings p h = Crash /\
      Ios.duckdb_ios_has_spatial_extension p h = Crash /\
      (forall op index, 1 <= index <= INT_MAX ->
                        ios_bind op p index h = Crash)) /\
  (forall (h : gmap Z Android.Object) (w : Android.PreparedStatementWrapper),
      h !! p = Some (Android.Obj_PreparedStatementWrapper w) ->
      all_rets (fun _ => False)
        ((Android.destroyPrepared p ;;; Android.destroyPrepared p) h)) /\
  (forall (h : gmap Z Ios.Object) (w : Ios.PreparedWrapper),
      h !! p = Some (Ios.Obj_PreparedWrapper w) ->
      all_rets (fun _ => False)
        ((Ios.duckdb_ios_destroy_prepared p ;;;
          Ios.duckdb_ios_destroy_prepared p) h)).
Proof.
  intros Hp. pose proof Hp as Hp'. apply Z.eqb_neq in Hp'.
  split; [|split; [|split]].
  - intros h sql Hnone.
    unfold Android.closeDatabase, Android.connect, Android.disconnect,
      Android.query, Android.execute, Android.prepare,
      Android.destroyPrepared, Android.executePrepared, Android.clearBindings.
    rewrite Hp'.
    unfold Android.load_DatabaseWrapper, Android.load_Connection,
      Android.load_PreparedStatementWrapper, GetStringUTFChars.
    repeat (split;
            [repeat apply M_bind_Crash; now apply load_dangling|]).
    intros op index Hi. apply Android_bind_dangling; auto. lia.
  - intros h sql rows_changed_out error_out Hnone.
    unfold Ios.duckdb_ios_close_database, Ios.duckdb_ios_connect,
      Ios.duckdb_ios_disconnect, Ios.duckdb_ios_query, Ios.duckdb_ios_execute,
      Ios.duckdb_ios_prepare, Ios.duckdb_ios_destroy_prepared,
      Ios.duckdb_ios_execute_prepared, Ios.duckdb_ios_clear_bindings,
      Ios.duckdb_ios_has_spatial_extension.
    rewrite Hp'. change (negb false) with true. cbv iota.
    unfold Ios.load_Connection, Ios.load_DatabaseWrapper,
      Ios.load_ConnectionWrapper, Ios.load_PreparedWrapper.
    repeat (split;
            [repeat apply M_bind_Crash; now apply load_dangling|]).
    intros op index Hi. apply Ios_bind_dangling; auto. lia.
  - intros h w Hlive.
    destruct (Android_destroyPrepared_live h p w Hp Hlive) as (k & Hrun & Hk).
    assert (Hagain : Android.destroyPrepared p (delete p h) = Crash).
    { unfold Android.destroyPrepared. rewrite Hp'.
      unfold Android.load_PreparedStatementWrapper.
      repeat apply M_bind_Crash. apply load_dangling, lookup_delete_eq. }
    unfold M_bind. rewrite Hrun. simpl. intros x. rewrite Hk. simpl.
    now rewrite Hagain.
  - intros h w Hlive.
    destruct (Ios_destroy_prepared_live h p w Hp Hlive) as (k & Hrun & Hk).
    assert (Hagain : Ios.duckdb_ios_destroy_prepared p (delete p h) = Crash).
    { unfold Ios.duckdb_ios_destroy_prepared. rewrite Hp'.
      change (negb false) with true. cbv iota.
      unfold Ios.load_PreparedWrapper.
      repeat apply M_bind_Crash. apply load_dangling, lookup_delete_eq. }
    unfold M_bind. rewrite Hrun. simpl. intros x. rewrite Hk. simpl.
    now rewrite Hagain.
Qed.

(** ** Sessions *)

Lemma always_bind {St A B : Type} (m : M St A) (f : A -> M St B)
    (Q : B * St -> Prop) (s : St) :
  always (fun r => always Q (f r.1 r.2)) (m s) -> always Q (M_bind m f s).
Proof.
  unfold always, M_bind.
  induction (m s) as [[a s']| |X e k IH]; simpl.
  - intros [_ H]. exact H.
  - intros [[] _].
  - intros [Hn Ha]. split; intros x; apply (IH x); auto.
Qed.

Lemma always_impl {R : Type} (P Q : R -> Prop) (p : Prog R) :
  (forall r, P r -> Q r) -> always P p -> always Q p.
Proof.
  intros HPQ [Hn Ha]. split; [exact Hn|]. now apply (all_rets_impl P Q).
Qed.

Lemma always_Ret {R : Type} (Q : R -> Prop) (r : R) : Q r -> always Q (Ret r).
Proof. intros H. split; [exact I | exact H]. Qed.

Lemma always_Vis {R X : Type} (Q : R -> Prop) (e : EngineE X)
    (k : X -> Prog R) :
  (forall x, always Q (k x)) -> always Q (Vis e k).
Proof. intros H. split; intros x; apply (H x). Qed.

Lemma handle_to_null {Object : Type} (kind : Object -> Prop)
    (h : gmap Z Object) :
  handle_to kind 0 h h.
Proof. now left. Qed.

Lemma handle_to_fresh {Object : Type} (kind : Object -> Prop)
    (h : gmap Z Object) (p : Z) (o : Object) :
  p <> 0 -> h !! p = None -> kind o -> handle_to kind p h (<[p := o]> h).
Proof. intros Hp Hf Hk. right. eauto. Qed.

Section AndroidSession.
Context {RT : Runtime}.

Lemma Android_openDatabase_always (path : jstring) (h : gmap Z Android.Object) :
  always (fun r => exists h0, handle_to android_database r.1 h0 r.2 /\
                              (r.1 <> 0 -> h0 = h))
    (Android.openDatabase path h).
Proof.
  destruct (Android_openDatabase_runs path h)
    as (p & k & Hp & Hfresh & Hrun & Hfail & Hok).
  rewrite Hrun. apply always_Vis. intros [what|db].
  - rewrite Hfail. apply always_Ret. simpl. eexists.
    split; [apply handle_to_null | intros []; reflexivity].
  - destruct (Hok db) as (k2 & Hk & Hk2). rewrite Hk.
    apply always_Vis. intros loaded. rewrite Hk2. apply always_Ret. simpl.
    exists h. split; [|reflexivity].
    apply handle_to_fresh; auto. now exists db, (Some db).
Qed.

Lemma Android_connect_always (dbPtr : Z) (h0 h : gmap Z Android.Object) :
  handle_to android_database dbPtr h0 h ->
  always (fun r => handle_to android_connection r.1 h r.2)
    (Android.connect dbPtr h).
Proof.
  intros [[-> ->] | (Hp & Hfresh & o & (db & c & ->) & ->)].
  - apply always_Ret, handle_to_null.
  - destruct (Android_connect_live _ dbPtr
                {| Android.cpp_db := Some db; Android.c_db := c |} db Hp
                (lookup_insert_eq h0 dbPtr _) eq_refl)
      as (q & k & Hq & Hqf & Hrun & Hfail & Hok).
    rewrite Hrun. apply always_Vis. intros [what|conn].
    + rewrite Hfail. apply always_Ret, handle_to_null.
    + rewrite Hok. apply always_Ret. simpl.
      apply handle_to_fresh; auto. now exists conn.
Qed.

Lemma Android_prepare_always (connPtr : Z) (sql : jstring)
    (h1 h : gmap Z Android.Object) :
  handle_to android_connection connPtr h1 h ->
  always (fun r => handle_to android_statement r.1 h r.2)
    (Android.prepare connPtr sql h).
Proof.
  intros [[-> ->] | (Hp & Hfresh & o & (conn & ->) & ->)].
  - apply always_Ret, handle_to_null.
  - destruct sql as [sql|].
    + destruct (Android_prepare_live _ connPtr conn sql Hp
                  (lookup_insert_eq h1 connPtr _))
        as (q & k & Hq & Hqf & Hrun & Hfail & Hok).
      rewrite Hrun. apply always_Vis. intros [what|stmt].
      * rewrite Hfail. apply always_Ret, handle_to_null.
      * rewrite Hok. destruct (stmt_HasError stmt).
        -- apply always_Ret, handle_to_null.
        -- apply always_Ret. simpl. apply handle_to_fresh; auto.
           eexists. reflexivity.
    + apply Z.eqb_neq in Hp. unfold Android.prepare. rewrite Hp.
      apply always_Ret, handle_to_null.
Qed.

Lemma Android_executePrepared_always (stmtPtr : Z)
    (h2 h : gmap Z Android.Object) :
  handle_to android_statement stmtPtr h2 h ->
  always (fun r => r.2 = h) (Android.executePrepared stmtPtr h).
Proof.
  intros [[-> ->] | (Hp & Hfresh & o & (w & ->) & ->)].
  - now apply always_Ret.
  - destruct (Android_executePrepared_live _ stmtPtr w Hp
                (lookup_insert_eq h2 stmtPtr _)) as (k & Hrun & Hk).
    rewrite Hrun. apply always_Vis. intros x.
    destruct (Hk x) as [s ->]. now apply always_Ret.
Qed.

Lemma Android_destroyPrepared_always (stmtPtr : Z)
    (h2 h : gmap Z Android.Object) :
  handle_to android_statement stmtPtr h2 h ->
  always (fun r => r.2 = h2) (Android.destroyPrepared stmtPtr h).
Proof.
  intros [[-> ->] | (Hp & Hfresh & o & (w & ->) & ->)].
  - now apply always_Ret.
  - destruct (Android_destroyPrepared_live _ stmtPtr w Hp
                (lookup_insert_eq h2 stmtPtr _)) as (k & Hrun & Hk).
    rewrite Hrun. apply always_Vis. intros x. rewrite Hk.
    apply always_Ret. now apply insert_then_delete.
Qed.

Lemma Android_disconnect_always (connPtr : Z)
    (h1 h : gmap Z Android.Object) :
  handle_to android_connection connPtr h1 h ->
  always (fun r => r.2 = h1) (Android.disconnect connPtr h).
Proof.
  intros [[-> ->] | (Hp & Hfresh & o & (conn & ->) & ->)].
  - now apply always_Ret.
  - destruct (Android_disconnect_live _ connPtr conn Hp
                (lookup_insert_eq h1 connPtr _)) as (k & Hrun & Hk).
    rewrite Hrun. apply always_Vis. intros x. rewrite Hk.
    apply always_Ret. now apply insert_then_delete.
Qed.

Lemma Android_closeDatabase_always (dbPtr : Z)
    (h0 h : gmap Z Android.Object) :
  handle_to android_database dbPtr h0 h ->
  always (fun r => r.2 = h0) (Android.closeDatabase dbPtr h).
Proof.
  intros [[-> ->] | (Hp & Hfresh & o & (db & c & ->) & ->)].
  - now apply always_Ret.
  - destruct (Android_closeDatabase_live _ dbPtr
                {| Android.cpp_db := Some db; Android.c_db := c |} Hp
                (lookup_insert_eq h0 dbPtr _)) as (k & Hrun & Hk).
    rewrite Hrun. apply always_Vis. intros x. rewrite Hk.
    apply always_Ret. now apply insert_then_delete.
Qed.

Lemma android_session_always (path sql : jstring) (h : gmap Z Android.Object) :
  always (fun r => session_db r.1 <> 0 -> r.2 = h)
    (android_session path sql h).
Proof.
  unfold android_session.
  apply always_bind.
  eapply always_impl; [|apply Android_openDatabase_always].
  intros [db h1] (h0 & Hdb & Hh0). simpl in *.
  apply always_bind.
  eapply always_impl; [|apply (Android_connect_always db h0 h1 Hdb)].
  intros [conn h2] Hconn. simpl in *.
  apply always_bind.
  eapply always_impl; [|apply (Android_prepare_always conn sql h1 h2 Hconn)].
  intros [stmt h3] Hstmt. simpl in *.
  apply always_bind.
  eapply always_impl; [|apply (Android_executePrepared_always stmt h2 h3 Hstmt)].
  intros [r h3'] E. simpl in E. subst h3'. simpl.
  apply always_bind.
  eapply always_impl; [|apply (Android_destroyPrepared_always stmt h2 h3 Hstmt)].
  intros [[] h2'] E. simpl in E. subst h2'. simpl.
  apply always_bind.
  eapply always_impl; [|apply (Android_disconnect_always conn h1 h2 Hconn)].
  intros [[] h1'] E. simpl in E. subst h1'. simpl.
  apply always_bind.
  eapply always_impl; [|apply (Android_closeDatabase_always db h0 h1 Hdb)].
  intros [[] h0'] E. simpl in E. subst h0'. simpl.
  apply always_Ret. simpl. exact Hh0.
Qed.
End AndroidSession.

Section IosSession.
Context {RT : Runtime}.

Lemma Ios_open_database_always (path : cstring) (error_out : ErrorOut)
    (h : gmap Z Ios.Object) :
  always (fun r => exists h0, handle_to ios_database r.1.1 h0 r.2 /\
                              (r.1.1 <> 0 -> h0 = h))
    (Ios.duckdb_ios_open_database path error_out h).
Proof.
  destruct (Ios_open_database_runs path error_out h)
    as (p & k & Hp & Hfresh & Hrun & Hfail & Hok).
  rewrite Hrun. apply always_Vis. intros [what|d].
  - rewrite Hfail. apply always_Ret. simpl. eexists.
    split; [apply handle_to_null | intros []; reflexivity].
  - destruct (Hok d) as (k2 & Hk & Hk2). rewrite Hk.
    apply always_Vis. intros loaded. rewrite Hk2. apply always_Ret. simpl.
    exists h. split; [|reflexivity].
    apply handle_to_fresh; auto. eexists. eexists. reflexivity.
Qed.

Lemma Ios_connect_always (dbPtr : Z) (error_out : ErrorOut)
    (h0 h : gmap Z Ios.Object) :
  handle_to ios_database dbPtr h0 h ->
  always (fun r => exists h0' h1,
                     handle_to ios_database dbPtr h0' h1 /\
                     handle_to ios_connection r.1.1 h1 r.2 /\
                     (r.1.1 <> 0 -> h0' = h0))
    (Ios.duckdb_ios_connect dbPtr error_out h).
Proof.
  intros Hdb.
  destruct Hdb as [[-> ->] | (Hp & Hfresh & o & (d & l & ->) & ->)].
  - apply always_Ret. simpl. exists h0, h0.
    split; [apply handle_to_null|]. split; [apply handle_to_null | reflexivity].
  - set (W := Ios.Obj_DatabaseWrapper
                {| Ios.db := Some d; Ios.spatial_loaded := l |}).
    destruct (Ios_connect_live (<[dbPtr := W]> h0) dbPtr
                {| Ios.db := Some d; Ios.spatial_loaded := l |} d error_out Hp
                (lookup_insert_eq h0 dbPtr _) eq_refl)
      as (q & k & Hq & Hqf & Hrun & Hfail & Hok).
    assert (Hne : q <> dbPtr).
    { intros ->. now rewrite lookup_insert_eq in Hqf. }
    rewrite Hrun. apply always_Vis. intros [what|c].
    + rewrite Hfail. apply always_Ret. simpl.
      set (L := Ios.Obj_ConnectionWrapper
                  {| Ios.conn := None; Ios.db_wrapper := dbPtr |}).
      exists (<[q := L]> h0), (<[q := L]> (<[dbPtr := W]> h0)).
      split; [|split; [apply handle_to_null | intros []; reflexivity]].
      rewrite insert_insert_ne by exact Hne.
      apply handle_to_fresh; [exact Hp | | now exists d, l].
      rewrite lookup_insert_ne by exact Hne. exact Hfresh.
    + rewrite Hok. apply always_Ret. simpl.
      exists h0, (<[dbPtr := W]> h0).
      split; [apply handle_to_fresh; auto; now exists d, l|].
      split; [|reflexivity].
      apply handle_to_fresh; auto. now exists c, dbPtr.
Qed.

Lemma Ios_prepare_always (connPtr : Z) (sql : cstring) (error_out : ErrorOut)
    (h1 h : gmap Z Ios.Object) :
  handle_to ios_connection connPtr h1 h ->
  always (fun r => handle_to ios_statement r.1.1 h r.2)
    (Ios.duckdb_ios_prepare connPtr sql error_out h).
Proof.
  intros [[-> ->] | (Hp & Hfresh & o & (c & d & ->) & ->)].
  - apply always_Ret, handle_to_null.
  - destruct sql as [sql|].
    + destruct (Ios_prepare_live _ connPtr d c sql error_out Hp
                  (lookup_insert_eq h1 connPtr _))
        as (q & k & Hq & Hqf & Hrun & Hfail & Hok).
      rewrite Hrun. apply always_Vis. intros [what|stmt].
      * rewrite Hfail. apply always_Ret, handle_to_null.
      * rewrite Hok. destruct (stmt_HasError stmt).
        -- apply always_Ret, handle_to_null.
        -- apply always_Ret. simpl. apply handle_to_fresh; auto.
           eexists. reflexivity.
    + apply Z.eqb_neq in Hp. unfold Ios.duckdb_ios_prepare. rewrite Hp.
      apply always_Ret, handle_to_null.
Qed.

Lemma Ios_execute_prepared_always (stmtPtr : Z) (error_out : ErrorOut)
    (h2 h : gmap Z Ios.Object) :
  handle_to ios_statement stmtPtr h2 h ->
  always (fun r => r.2 = h) (Ios.duckdb_ios_execute_prepared stmtPtr error_out h).
Proof.
  intros [[-> ->] | (Hp & Hfresh & o & (w & ->) & ->)].
  - now apply always_Ret.
  - destruct (Ios_execute_prepared_live _ stmtPtr w error_out Hp
                (lookup_insert_eq h2 stmtPtr _)) as (k & Hrun & Hk).
    rewrite Hrun. apply always_Vis. intros x.
    destruct (Hk x) as [s ->]. now apply always_Ret.
Qed.

Lemma Ios_destroy_prepared_always (stmtPtr : Z) (h2 h : gmap Z Ios.Object) :
  handle_to ios_statement stmtPtr h2 h ->
  always (fun r => r.2 = h2) (Ios.duckdb_ios_destroy_prepared stmtPtr h).
Proof.
  intros [[-> ->] | (Hp & Hfresh & o & (w & ->) & ->)].
  - now apply always_Ret.
  - destruct (Ios_destroy_prepared_live _ stmtPtr w Hp
                (lookup_insert_eq h2 stmtPtr _)) as (k & Hrun & Hk).
    rewrite Hrun. apply always_Vis. intros x. rewrite Hk.
    apply always_Ret. now apply insert_then_delete.
Qed.

Lemma Ios_disconnect_always (connPtr : Z) (h1 h : gmap Z Ios.Object) :
  handle_to ios_connection connPtr h1 h ->
  always (fun r => r.2 = h1) (Ios.duckdb_ios_disconnect connPtr h).
Proof.
  intros [[-> ->] | (Hp & Hfresh & o & (c & d & ->) & ->)].
  - now apply always_Ret.
  - destruct (Ios_disconnect_live _ connPtr
                {| Ios.conn := Some c; Ios.db_wrapper := d |} Hp
                (lookup_insert_eq h1 connPtr _)) as (k & Hrun & Hk).
    rewrite Hrun. apply always_Vis. intros x. rewrite Hk.
    apply always_Ret. now apply insert_then_delete.
Qed.

Lemma Ios_close_database_always (dbPtr : Z) (h0 h : gmap Z Ios.Object) :
  handle_to ios_database dbPtr h0 h ->
  always (fun r => r.2 = h0) (Ios.duckdb_ios_close_database dbPtr h).
Proof.
  intros [[-> ->] | (Hp & Hfresh & o & (d & l & ->) & ->)].
  - now apply always_Ret.
  - destruct (Ios_close_database_live _ dbPtr
                {| Ios.db := Some d; Ios.spatial_loaded := l |} Hp
                (lookup_insert_eq h0 dbPtr _)) as (k & Hrun & Hk).
    rewrite Hrun. apply always_Vis. intros x. rewrite Hk.
    apply always_Ret. now apply insert_then_delete.
Qed.

Lemma ios_session_always (path sql : cstring) (h : gmap Z Ios.Object) :
  always (fun r => session_db r.1 <> 0 -> session_conn r.1 <> 0 -> r.2 = h)
    (ios_session path sql h).
Proof.
  unfold ios_session.
  apply always_bind.
  eapply always_impl; [|apply Ios_open_database_always].
  intros [[db e1] h1] (h0 & Hdb & Hh0). simpl in *.
  apply always_bind.
  eapply always_impl; [|apply (Ios_connect_always db None h0 h1 Hdb)].
  intros [[conn e2] h2] (h0' & h1' & Hdb' & Hconn & Hh0'). simpl in *.
  apply always_bind.
  eapply always_impl; [|apply (Ios_prepare_always conn sql None h1' h2 Hconn)].
  intros [[stmt e3] h3] Hstmt. simpl in *.
  apply always_bind.
  eapply always_impl;
    [|apply (Ios_execute_prepared_always stmt None h2 h3 Hstmt)].
  intros [[r e4] h3'] E. simpl in E. subst h3'. simpl.
  apply always_bind.
  eapply always_impl; [|apply (Ios_destroy_prepared_always stmt h2 h3 Hstmt)].
  intros [[] h2'] E. simpl in E. subst h2'. simpl.
  apply always_bind.
  eapply always_impl; [|apply (Ios_disconnect_always conn h1' h2 Hconn)].
  intros [[] h1''] E. simpl in E. subst h1''. simpl.
  apply always_bind.
  eapply always_impl; [|apply (Ios_close_database_always db h0' h1' Hdb')].
  intros [[] h0''] E. simpl in E. subst h0''. simpl.
  apply always_Ret. simpl. intros Hd Hc. rewrite (Hh0' Hc). now apply Hh0.
Qed.
End IosSession.

(** X20.  A whole session leaves nothing behind.  A program that opens a
    database, connects, prepares a statement, executes it, and then
    destroys the statement, disconnects and closes, passing on each
    handle as it got it, always returns, whatever the engine answers at
    each step and whatever the SQL is; no call aborts on the null handle
    a failed call before it returned.  When the open succeeded (and, on
    iOS, the connect), the objects in native memory are at the end what
    they were at the start. *)
Theorem session_restores_memory {RT : Runtime} :
  (forall (path sql : jstring) (h : gmap Z Android.Object),
      always (fun r => session_db r.1 <> 0 -> r.2 = h)
        (android_session path sql h)) /\
  (forall (path sql : cstring) (h : gmap Z Ios.Object),
      always (fun r => session_db r.1 <> 0 -> session_conn r.1 <> 0 ->
                       r.2 = h)
        (ios_session path sql h)).
Proof.
  split.
  - exact android_session_always.
  - exact ios_session_always.
Qed.

(** * Further instances *)

Lemma no_rows_is_empty_array_witness :
  RowCount sample_no_rows = 0%nat /\
  chunk_size (table_chunk []) = 0%nat /\
  @Android.resultToJson sample_runtime sample_no_rows = "[]" /\
  @Android.queryResultToJson sample_runtime
    (with_stream sample_chunked [table_chunk []]) = "[]" /\
  @Ios.resultToJson sample_runtime
    (with_stream sample_chunked [table_chunk []]) = "[]".
Proof.
  destruct (@no_rows_is_empty_array sample_runtime) as [HM HQ].
  split; [reflexivity|]. split; [reflexivity|].
  split; [apply HM; reflexivity|].
  apply (HQ (with_stream sample_chunked [table_chunk []])). reflexivity.
Defined.

Lemma empty_chunk_ends_the_stream_witness :
  chunk_size (table_chunk []) = 0%nat /\
  @Android.queryResultToJson sample_runtime
    (with_stream sample_chunked
       ([table_chunk (take 1 sample_table)]
          ++ table_chunk [] :: [table_chunk (drop 1 sample_table)])%list)
  = @Android.queryResultToJson sample_runtime
      (with_stream sample_chunked [table_chunk (take 1 sample_table)]) /\
  @Ios.resultToJson sample_runtime
    (with_stream sample_chunked
       ([table_chunk (take 1 sample_table)]
          ++ table_chunk [] :: [table_chunk (drop 1 sample_table)])%list)
  = @Ios.resultToJson sample_runtime
      (with_stream sample_chunked [table_chunk (take 1 sample_table)]).
Proof.
  split; [reflexivity|].
  apply (@empty_chunk_ends_the_stream sample_runtime sample_chunked
           [table_chunk (take 1 sample_table)]
           [table_chunk (drop 1 sample_table)] (table_chunk [])).
  reflexivity.
Defined.

Lemma other_types_are_written_as_text_witness :
  written_as_text DATE = true /\
  IsNull (Value_other DATE "2024-02-29") = false /\
  json_string_decode
    (@Android.put_value sample_runtime "" DATE (Value_other DATE "2024-02-29"))
  = Some (@ToString sample_runtime (Value_other DATE "2024-02-29")) /\
  json_string_decode
    (@Ios.put_value sample_runtime "" DATE (Value_other DATE "2024-02-29"))
  = Some (@ToString sample_runtime (Value_other DATE "2024-02-29")).
Proof.
  split; [reflexivity|]. split; [reflexivity|].
  apply (@other_types_are_written_as_text sample_runtime DATE
           (Value_other DATE "2024-02-29")); reflexivity.
Defined.

Lemma serialized_text_is_a_C_string_witness :
  (forall bits, no_NUL (@put_float sample_runtime bits) = true) /\
  (forall bits, no_NUL (@put_double sample_runtime bits) = true) /\
  c_str (@Android.resultToJson sample_runtime sample_materialized)
  = @Android.resultToJson sample_runtime sample_materialized /\
  c_str (@Android.queryResultToJson sample_runtime sample_chunked)
  = @Android.queryResultToJson sample_runtime sample_chunked /\
  c_str (@Ios.resultToJson sample_runtime sample_chunked)
  = @Ios.resultToJson sample_runtime sample_chunked.
Proof.
  assert (Hf : forall bits, no_NUL (@put_float sample_runtime bits) = true)
    by (intros bits; reflexivity).
  assert (Hd : forall bits, no_NUL (@put_double sample_runtime bits) = true)
    by (intros bits; reflexivity).
  split; [exact Hf|]. split; [exact Hd|].
  destruct (@serialized_text_is_a_C_string sample_runtime Hf Hd) as [HM HQ].
  split; [apply HM | apply HQ].
Defined.

Lemma connect_gives_a_fresh_handle_witness :
  8 <> 0 /\
  (exists q k,
      q <> 0 /\ sample_android_db_heap !! q = None /\
      Android.connect 8 sample_android_db_heap
      = Vis (Connection_new sample_db) k /\
      (forall what, k (inl what) = Ret (0, sample_android_db_heap)) /\
      (forall conn,
          k (inr conn)
          = Ret (q, <[q := Android.Obj_Connection conn]>
                      sample_android_db_heap))) /\
  (exists q k,
      q <> 0 /\ sample_ios_db_heap !! q = None /\
      Ios.duckdb_ios_connect 8 (Some None) sample_ios_db_heap
      = Vis (Connection_new sample_db) k /\
      (forall what,
          k (inl what)
          = Ret ((0, Ios.set_error (Some None) what),
                 <[q := Ios.Obj_ConnectionWrapper
                          {| Ios.conn := None; Ios.db_wrapper := 8 |}]>
                   sample_ios_db_heap)) /\
      (forall c,
          k (inr c)
          = Ret ((q, Some None),
                 <[q := Ios.Obj_ConnectionWrapper
                          {| Ios.conn := Some c; Ios.db_wrapper := 8 |}]>
                   sample_ios_db_heap))).
Proof.
  assert (Hp : 8 <> 0) by lia.
  split; [exact Hp|].
  destruct (connect_gives_a_fresh_handle 8 sample_db Hp) as [HA HI].
  split.
  - apply (HA sample_android_db_heap sample_android_db); reflexivity.
  - apply (HI sample_ios_db_heap sample_ios_db (Some None)); reflexivity.
Defined.

Lemma failed_prepare_allocates_nothing_witness :
  16 <> 0 /\
  stmt_HasError {| stmt_id := 2; stmt_error := Some "Parser Error";
                   named_param_map := ∅ |} = true /\
  (exists k,
      Android.prepare 16 (Some "SELEC") sample_android_heap
      = Vis (Connection_Prepare sample_conn "SELEC") k /\
      (forall what, k (inl what) = Ret (0, sample_android_heap)) /\
      k (inr {| stmt_id := 2; stmt_error := Some "Parser Error";
                named_param_map := ∅ |})
      = Ret (0, sample_android_heap)) /\
  (exists k,
      Ios.duckdb_ios_prepare 16 (Some "SELEC") (Some None) sample_ios_heap
      = Vis (Connection_Prepare sample_conn "SELEC") k /\
      (forall what,
          k (inl what)
          = Ret ((0, Ios.set_error (Some None) what), sample_ios_heap)) /\
      k (inr {| stmt_id := 2; stmt_error := Some "Parser Error";
                named_param_map := ∅ |})
      = Ret ((0, Some (Some "Parser Error")), sample_ios_heap)).
Proof.
  assert (Hp : 16 <> 0) by lia.
  split; [exact Hp|]. split; [reflexivity|].
  destruct (failed_prepare_allocates_nothing 16 sample_conn "SELEC" Hp)
    as [HA HI].
  split.
  - destruct (HA sample_android_heap eq_refl) as (k & Hrun & Hthrow & Hstmt).
    exists k. split; [exact Hrun|]. split; [exact Hthrow|].
    apply Hstmt. reflexivity.
  - destruct (HI sample_ios_heap 8 (Some None) eq_refl)
      as (k & Hrun & Hthrow & Hstmt).
    exists k. split; [exact Hrun|]. split; [exact Hthrow|].
    apply (Hstmt {| stmt_id := 2; stmt_error := Some "Parser Error";
                    named_param_map := ∅ |}). reflexivity.
Defined.

Lemma destroy_frees_the_handle_witness :
  8 <> 0 /\ 16 <> 0 /\ 32 <> 0 /\
  (exists k, Android.closeDatabase 8 sample_android_db_heap
             = Vis (DuckDB_release sample_db) k /\
             forall x, k x = Ret (tt, delete 8 sample_android_db_heap)) /\
  (exists k, Android.disconnect 16 sample_android_db_heap
             = Vis (Connection_delete sample_conn) k /\
             forall x, k x = Ret (tt, delete 16 sample_android_db_heap)) /\
  (exists k, Android.destroyPrepared 32 sample_android_db_heap
             = Vis (PreparedStatement_delete sample_stmt) k /\
             forall x, k x = Ret (tt, delete 32 sample_android_db_heap)) /\
  (exists k, Ios.duckdb_ios_close_database 8 sample_ios_db_heap
             = Vis (DuckDB_release sample_db) k /\
             forall x, k x = Ret (tt, delete 8 sample_ios_db_heap)) /\
  (exists k, Ios.duckdb_ios_disconnect 16 sample_ios_db_heap
             = Vis (Connection_delete sample_conn) k /\
             forall x, k x = Ret (tt, delete 16 sample_ios_db_heap)) /\
  (exists k, Ios.duckdb_ios_destroy_prepared 32 sample_ios_db_heap
             = Vis (PreparedStatement_delete sample_stmt) k /\
             forall x, k x = Ret (tt, delete 32 sample_ios_db_heap)).
Proof.
  assert (Hd : 8 <> 0) by lia.
  assert (Hc : 16 <> 0) by lia.
  assert (Hs : 32 <> 0) by lia.
  split; [exact Hd|]. split; [exact Hc|]. split; [exact Hs|].
  destruct (destroy_frees_the_handle 8 16 32 Hd Hc Hs) as [HA HI].
  destruct (HA sample_android_db_heap sample_db (Some sample_db) sample_conn
              sample_android_wrapper eq_refl eq_refl eq_refl)
    as (H1 & H2 & H3).
  destruct (HI sample_ios_db_heap sample_db true sample_conn 8
              sample_ios_wrapper eq_refl eq_refl eq_refl)
    as (H4 & H5 & H6).
  repeat (split; [assumption|]). assumption.
Defined.

Lemma null_sql_is_refused_witness :
  16 <> 0 /\
  @Android.query sample_runtime 16 None sample_android_heap
  = Ret (Some "ERROR:Invalid SQL string", sample_android_heap) /\
  Android.execute 16 None sample_android_heap
  = Ret (Some "ERROR:Invalid SQL string", sample_android_heap) /\
  Android.prepare 16 None sample_android_heap = Ret (0, sample_android_heap) /\
  @Ios.duckdb_ios_query sample_runtime 16 None (Some None) sample_ios_heap
  = Ret ((None, Some (Some "Invalid SQL")), sample_ios_heap) /\
  Ios.duckdb_ios_execute 16 None (Some 7) (Some None) sample_ios_heap
  = Ret ((false, Some 7, Some (Some "Invalid SQL")), sample_ios_heap) /\
  Ios.duckdb_ios_prepare 16 None (Some None) sample_ios_heap
  = Ret ((0, Some (Some "Invalid SQL")), sample_ios_heap).
Proof.
  assert (Hp : 16 <> 0) by lia.
  split; [exact Hp|].
  destruct (@null_sql_is_refused sample_runtime 16 Hp) as [HA HI].
  destruct (HA sample_android_heap) as (H1 & H2 & H3).
  destruct (HI sample_ios_heap (Some 7) (Some None)) as (H4 & H5 & H6).
  split; [exact H1|]. split; [exact H2|]. split; [exact H3|].
  split; [exact H4|]. split; [exact H5 | exact H6].
Defined.

Lemma execute_reports_the_row_count_witness :
  16 <> 0 /\
  HasError sample_materialized = false /\
  Z.of_nat (RowCount sample_materialized) <= 2 ^ 63 - 1 /\
  HasError sample_failed = true /\
  (exists k,
      Android.execute 16 (Some "DELETE FROM t") sample_android_heap
      = Vis (Connection_Query sample_conn "DELETE FROM t") k /\
      k (inr sample_materialized)
      = Ret (Some (with_quotes "{'changes':2}"), sample_android_heap) /\
      k (inr sample_failed)
      = Ret (Some "ERROR:Parser Error: syntax error at end of input",
             sample_android_heap)) /\
  (exists k,
      Ios.duckdb_ios_execute 16 (Some "DELETE FROM t") (Some 7) (Some None)
        sample_ios_heap
      = Vis (Connection_Query sample_conn "DELETE FROM t") k /\
      k (inr sample_materialized)
      = Ret ((true, Some 2, Some None), sample_ios_heap) /\
      k (inr sample_failed)
      = Ret ((false, Some 7,
              Some (Some "Parser Error: syntax error at end of input")),
             sample_ios_heap)).
Proof.
  assert (Hp : 16 <> 0) by lia.
  assert (Hfit : Z.of_nat (RowCount sample_materialized) <= 2 ^ 63 - 1)
    by (simpl; lia).
  split; [exact Hp|]. split; [reflexivity|]. split; [exact Hfit|].
  split; [reflexivity|].
  destruct (execute_reports_the_row_count 16 sample_conn "DELETE FROM t" Hp)
    as [HA HI].
  split.
  - destruct (HA sample_android_heap eq_refl) as (k & Hrun & _ & Herr & Hok).
    exists k. split; [exact Hrun|]. split.
    + exact (Hok sample_materialized eq_refl Hfit).
    + exact (Herr sample_failed eq_refl).
  - destruct (HI sample_ios_heap 8 (Some 7) (Some None) eq_refl)
      as (k & Hrun & _ & Herr & Hok).
    exists k. split; [exact Hrun|]. split.
    + exact (Hok sample_materialized eq_refl Hfit).
    + exact (Herr sample_failed eq_refl).
Defined.

Lemma engine_exception_is_returned_as_error_witness :
  16 <> 0 /\ 32 <> 0 /\
  (exists k,
      @Android.query sample_runtime 16 (Some "SELECT 1") sample_android_heap
      = Vis (Connection_Query sample_conn "SELECT 1") k /\
      k (inl "Out of Memory")
      = Ret (Some "ERROR:Out of Memory", sample_android_heap)) /\
  (exists k,
      @Android.executePrepared sample_runtime 32 sample_android_heap
      = Vis (PreparedStatement_Execute sample_stmt [Value_null; Value_null]
               false) k /\
      k (inl "Out of Memory")
      = Ret (Some "ERROR:Out of Memory", sample_android_heap)) /\
  (exists k,
      @Ios.duckdb_ios_query sample_runtime 16 (Some "SELECT 1") (Some None)
        sample_ios_heap
      = Vis (Connection_Query sample_conn "SELECT 1") k /\
      k (inl "Out of Memory")
      = Ret ((None, Some (Some "Out of Memory")), sample_ios_heap)) /\
  (exists k,
      @Ios.duckdb_ios_execute_prepared sample_runtime 32 (Some None)
        sample_ios_heap
      = Vis (PreparedStatement_Execute sample_stmt [Value_null; Value_null]
               true) k /\
      k (inl "Out of Memory")
      = Ret ((None, Some (Some "Out of Memory")), sample_ios_heap)).
Proof.
  assert (Hc : 16 <> 0) by lia.
  assert (Hs : 32 <> 0) by lia.
  split; [exact Hc|]. split; [exact Hs|].
  destruct (@engine_exception_is_returned_as_error sample_runtime 16 32
              "SELECT 1" Hc Hs) as [HA HI].
  destruct (HA sample_android_heap sample_conn sample_android_wrapper
              eq_refl eq_refl)
    as ((k1 & Hq & Hqt & _) & (k2 & He & Het & _)).
  destruct (HI sample_ios_heap sample_conn 8 sample_ios_wrapper (Some None)
              eq_refl eq_refl)
    as ((k3 & Hq' & Hqt' & _) & (k4 & He' & Het' & _)).
  split; [exists k1; split; [exact Hq | exact (Hqt "Out of Memory")]|].
  split; [exists k2; split; [exact He | exact (Het "Out of Memory")]|].
  split; [exists k3; split; [exact Hq' | exact (Hqt' "Out of Memory")]|].
  exists k4; split; [exact He' | exact (Het' "Out of Memory")].
Defined.


Lemma execute_passes_the_bound_values_witness :
  32 <> 0 /\ 1 <= 3 <= INT_MAX /\ 3 <= @alloc_limit sample_runtime /\
  (exists values,
      store_after_bind [Value_null; Value_null] 3 (Value_integer BIGINT 7)
        values /\
      (exists k,
          (@android_bind sample_runtime (A_bindLong 7) 32 3 ;;;
           @Android.executePrepared sample_runtime 32) sample_android_heap
          = Vis (PreparedStatement_Execute sample_stmt values false) k) /\
      (exists k,
          (@android_bind sample_runtime (A_bindLong 7) 32 3 ;;;
           Android.clearBindings 32 ;;;
           @Android.executePrepared sample_runtime 32) sample_android_heap
          = Vis (PreparedStatement_Execute sample_stmt
                   (replicate (length values) Value_null) false) k)) /\
  (exists values,
      store_after_bind [Value_null; Value_null] 3 (Value_integer BIGINT 7)
        values /\
      (exists k,
          (@ios_bind sample_runtime (I_bind_int64 7) 32 3 ;;;
           @Ios.duckdb_ios_execute_prepared sample_runtime 32 None)
            sample_ios_heap
          = Vis (PreparedStatement_Execute sample_stmt values true) k) /\
      (exists k,
          (@ios_bind sample_runtime (I_bind_int64 7) 32 3 ;;;
           Ios.duckdb_ios_clear_bindings 32 ;;;
           @Ios.duckdb_ios_execute_prepared sample_runtime 32 None)
            sample_ios_heap
          = Vis (PreparedStatement_Execute sample_stmt
                   (replicate (length values) Value_null) true) k)).
Proof.
  assert (Hp : 32 <> 0) by lia.
  assert (Hi : 1 <= 3 <= INT_MAX) by (unfold INT_MAX; lia).
  assert (Hl : 3 <= @alloc_limit sample_runtime) by (simpl; lia).
  split; [exact Hp|]. split; [exact Hi|]. split; [exact Hl|].
  destruct (@execute_passes_the_bound_values sample_runtime 32 3 Hp Hi)
    as [HA HI].
  split.
  - apply (HA (A_bindLong 7) sample_android_heap sample_android_wrapper);
      [reflexivity | unfold INT_MAX; simpl; lia | right; exact Hl].
  - apply (HI (I_bind_int64 7) sample_ios_heap sample_ios_wrapper None);
      [reflexivity | right; exact Hl].
Defined.

Lemma bind_beyond_the_limit_aborts_witness :
  32 <> 0 /\ 1 <= 2000000 <= INT_MAX /\
  @alloc_limit sample_runtime < 2000000 /\
  @android_bind sample_runtime (A_bindLong 7) 32 2000000 sample_android_heap
  = Crash /\
  (@android_bind sample_runtime (A_bindLong 7) 32 2000000 ;;;
   @Android.executePrepared sample_runtime 32) sample_android_heap = Crash /\
  @ios_bind sample_runtime (I_bind_int64 7) 32 2000000 sample_ios_heap
  = Crash /\
  (@ios_bind sample_runtime (I_bind_int64 7) 32 2000000 ;;;
   @Ios.duckdb_ios_execute_prepared sample_runtime 32 None) sample_ios_heap
  = Crash.
Proof.
  assert (Hp : 32 <> 0) by lia.
  assert (Hi : 1 <= 2000000 <= INT_MAX) by (unfold INT_MAX; lia).
  assert (Hl : @alloc_limit sample_runtime < 2000000) by (simpl; lia).
  split; [exact Hp|]. split; [exact Hi|]. split; [exact Hl|].
  destruct (@bind_beyond_the_limit_aborts sample_runtime 32 2000000 Hp Hi Hl)
    as [HA HI].
  destruct (HA (A_bindLong 7) sample_android_heap sample_android_wrapper
              eq_refl ltac:(simpl; lia)) as [H1 H2].
  destruct (HI (I_bind_int64 7) sample_ios_heap sample_ios_wrapper None
              eq_refl ltac:(simpl; lia)) as [H3 H4].
  split; [exact H1|]. split; [exact H2|]. split; [exact H3 | exact H4].
Defined.

Lemma stale_handle_is_not_detected_witness :
  32 <> 0 /\
  (∅ : gmap Z Android.Object) !! 32 = None /\
  1 <= 1 <= INT_MAX /\
  @Android.executePrepared sample_runtime 32 ∅ = Crash /\
  Android.destroyPrepared 32 ∅ = Crash /\
  @android_bind sample_runtime A_bindNull 32 1 ∅ = Crash /\
  @Ios.duckdb_ios_execute_prepared sample_runtime 32 None ∅ = Crash /\
  Ios.duckdb_ios_destroy_prepared 32 ∅ = Crash /\
  @ios_bind sample_runtime I_bind_null 32 1 ∅ = Crash /\
  all_rets (fun _ => False)
    ((Android.destroyPrepared 32 ;;; Android.destroyPrepared 32)
       sample_android_heap) /\
  all_rets (fun _ => False)
    ((Ios.duckdb_ios_destroy_prepared 32 ;;;
      Ios.duckdb_ios_destroy_prepared 32) sample_ios_heap).
Proof.
  assert (Hp : 32 <> 0) by lia.
  assert (Hi : 1 <= 1 <= INT_MAX) by (unfold INT_MAX; lia).
  split; [exact Hp|]. split; [reflexivity|]. split; [exact Hi|].
  destruct (@stale_handle_is_not_detected sample_runtime 32 Hp)
    as (HA & HI & HAA & HII).
  assert (HeA : (∅ : gmap Z Android.Object) !! 32 = None) by reflexivity.
  assert (HeI : (∅ : gmap Z Ios.Object) !! 32 = None) by reflexivity.
  destruct (HA ∅ "SELECT 1" HeA)
    as (_ & _ & _ & _ & _ & _ & H1 & H2 & _ & H3).
  destruct (HI ∅ "SELECT 1" None None HeI)
    as (_ & _ & _ & _ & _ & _ & H4 & H5 & _ & _ & H6).
  split; [exact H2|]. split; [exact H1|].
  split; [exact (H3 A_bindNull 1 Hi)|].
  split; [exact H5|]. split; [exact H4|].
  split; [exact (H6 I_bind_null 1 Hi)|].
  split.
  - exact (HAA sample_android_heap sample_android_wrapper eq_refl).
  - exact (HII sample_ios_heap sample_ios_wrapper eq_refl).
Defined.

Lemma session_restores_memory_witness :
  always (fun r => session_db r.1 <> 0 -> r.2 = sample_android_heap)
    (@android_session sample_runtime None (Some "SELECT 1")
       sample_android_heap) /\
  always (fun r => session_db r.1 <> 0 -> session_conn r.1 <> 0 ->
                   r.2 = sample_ios_heap)
    (@ios_session sample_runtime None (Some "SELECT 1") sample_ios_heap).
Proof.
  destruct (@session_restores_memory sample_runtime) as [HA HI].
  split; [apply HA | apply HI].
Defined.
